(** * lifxtui: the state store, the UDP transport and the DJ engine

    A shallow embedding of [src/lifx/store.ts], [src/lifx/client.ts] and
    [src/lifx/effects.ts], and the properties of the specification that
    concern them; then the parts of [src/utils/colors.ts],
    [src/components/App.tsx] and [src/components/ScenesPanel.tsx] that
    drive them, with further properties of the code.

    Conventions of the embedding.
    - A JavaScript object used as a dictionary ([store.devices],
      [store.groups]) is an association list in insertion order, which is
      the order [Object.keys] and [Object.values] enumerate (serial numbers
      and group ids are hexadecimal strings, never array indices).
    - Protocol numbers (16-bit colour components, product ids, the
      millisecond clock [Date.now()]) are integers of [Z].
    - [Set<string>] is [gset string].
    - An [async] function is cut at its [await]: the part that runs inside
      the call and the continuation the event loop resumes later are two
      functions, and the suspended continuations are part of the state.
    - Solid's path setter [setStore('devices', sn, field, v)] reads
      [store.devices[sn][field]] first, so it raises a [TypeError] when the
      record [sn] does not exist; the embedding spells that case out
      wherever the source can reach it. *)

From Stdlib Require Import ZArith QArith Qround List String Bool Lia.
From Stdlib Require Import Sorted Permutation OrdersEx.
From Stdlib Require Import Ascii Decimal DecimalString Qminmax.
From stdpp Require Import base tactics strings list gmap.

Set Warnings "-clear-no-such-hyp".

Local Open Scope string_scope.
Local Open Scope Z_scope.
Local Open Scope list_scope.

(** ** JavaScript objects as insertion-ordered dictionaries *)

Module JsObject.

Definition t (V : Type) : Type := list (string * V).

(** [o[k]] *)
Fixpoint get {V} (k : string) (o : t V) : option V :=
  match o with
  | [] => None
  | (k', v) :: o' => if String.eqb k' k then Some v else get k o'
  end.

(** In-place update of the value stored under [k]; nothing happens when
    [k] is not a key. *)
Definition update {V} (k : string) (f : V -> V) (o : t V) : t V :=
  map (fun kv => if String.eqb (fst kv) k then (fst kv, f (snd kv)) else kv) o.

(** [o[k] = v]: a new key goes to the end of the enumeration order. *)
Definition put {V} (k : string) (v : V) (o : t V) : t V :=
  match get k o with
  | Some _ => update k (fun _ => v) o
  | None => o ++ [(k, v)]
  end.

(** [Object.keys(o)] and [Object.values(o)] *)
Definition keys {V} (o : t V) : list string := map fst o.
Definition values {V} (o : t V) : list V := map snd o.

End JsObject.

(** ** [src/lifx/store.ts] *)

Module Store.

Inductive DeviceType := light | switch | unknown.

Definition DeviceType_eqb (a b : DeviceType) : bool :=
  match a, b with
  | light, light | switch, switch | unknown, unknown => true
  | _, _ => false
  end.

Definition SWITCH_PRODUCT_IDS : list Z := [70; 71; 89].

Record HSBK := mkHSBK
  { hue : Z; saturation : Z; brightness : Z; kelvin : Z }.

(** The device handle of the protocol library: identity and transport
    address. *)
Record Device := mkDevice
  { dev_serialNumber : string;
    dev_port : Z;
    dev_address : string;
    dev_target : list Z }.

Record DeviceState := mkDeviceState
  { serialNumber : string;
    device : Device;
    label : string;
    group : string;
    groupId : string;
    power : bool;
    color : HSBK;
    online : bool;
    selected : bool;
    lastSeen : Z;
    deviceType : DeviceType;
    productId : Z }.

Record GroupState := mkGroupState
  { g_id : string;
    g_label : string;
    g_devices : list string;
    g_expanded : bool }.

Record LifxStore := mkLifxStore
  { devices : JsObject.t DeviceState;
    groups : JsObject.t GroupState;
    selectedDevices : list string;
    isScanning : bool }.

(** *** Field setters ([setStore] on one field of a record) *)

Definition set_device (v : Device) (d : DeviceState) : DeviceState :=
  mkDeviceState (serialNumber d) v (label d) (group d) (groupId d) (power d)
    (color d) (online d) (selected d) (lastSeen d) (deviceType d) (productId d).
Definition set_label (v : string) (d : DeviceState) : DeviceState :=
  mkDeviceState (serialNumber d) (device d) v (group d) (groupId d) (power d)
    (color d) (online d) (selected d) (lastSeen d) (deviceType d) (productId d).
Definition set_group (v : string) (d : DeviceState) : DeviceState :=
  mkDeviceState (serialNumber d) (device d) (label d) v (groupId d) (power d)
    (color d) (online d) (selected d) (lastSeen d) (deviceType d) (productId d).
Definition set_groupId (v : string) (d : DeviceState) : DeviceState :=
  mkDeviceState (serialNumber d) (device d) (label d) (group d) v (power d)
    (color d) (online d) (selected d) (lastSeen d) (deviceType d) (productId d).
Definition set_power (v : bool) (d : DeviceState) : DeviceState :=
  mkDeviceState (serialNumber d) (device d) (label d) (group d) (groupId d) v
    (color d) (online d) (selected d) (lastSeen d) (deviceType d) (productId d).
Definition set_color (v : HSBK) (d : DeviceState) : DeviceState :=
  mkDeviceState (serialNumber d) (device d) (label d) (group d) (groupId d) (power d)
    v (online d) (selected d) (lastSeen d) (deviceType d) (productId d).
Definition set_online (v : bool) (d : DeviceState) : DeviceState :=
  mkDeviceState (serialNumber d) (device d) (label d) (group d) (groupId d) (power d)
    (color d) v (selected d) (lastSeen d) (deviceType d) (productId d).
Definition set_selected (v : bool) (d : DeviceState) : DeviceState :=
  mkDeviceState (serialNumber d) (device d) (label d) (group d) (groupId d) (power d)
    (color d) (online d) v (lastSeen d) (deviceType d) (productId d).
Definition set_lastSeen (v : Z) (d : DeviceState) : DeviceState :=
  mkDeviceState (serialNumber d) (device d) (label d) (group d) (groupId d) (power d)
    (color d) (online d) (selected d) v (deviceType d) (productId d).
Definition set_deviceType (v : DeviceType) (d : DeviceState) : DeviceState :=
  mkDeviceState (serialNumber d) (device d) (label d) (group d) (groupId d) (power d)
    (color d) (online d) (selected d) (lastSeen d) v (productId d).
Definition set_productId (v : Z) (d : DeviceState) : DeviceState :=
  mkDeviceState (serialNumber d) (device d) (label d) (group d) (groupId d) (power d)
    (color d) (online d) (selected d) (lastSeen d) (deviceType d) v.

Definition add_member (sn : string) (g : GroupState) : GroupState :=
  mkGroupState (g_id g) (g_label g) (g_devices g ++ [sn]) (g_expanded g).
Definition flip_expanded (g : GroupState) : GroupState :=
  mkGroupState (g_id g) (g_label g) (g_devices g) (negb (g_expanded g)).

Definition with_devices (f : JsObject.t DeviceState -> JsObject.t DeviceState)
    (s : LifxStore) : LifxStore :=
  mkLifxStore (f (devices s)) (groups s) (selectedDevices s) (isScanning s).
Definition with_groups (f : JsObject.t GroupState -> JsObject.t GroupState)
    (s : LifxStore) : LifxStore :=
  mkLifxStore (devices s) (f (groups s)) (selectedDevices s) (isScanning s).
Definition with_selectedDevices (l : list string) (s : LifxStore) : LifxStore :=
  mkLifxStore (devices s) (groups s) l (isScanning s).
Definition with_isScanning (b : bool) (s : LifxStore) : LifxStore :=
  mkLifxStore (devices s) (groups s) (selectedDevices s) b.

(** [setStore('devices', sn, field, v)] on a record that exists. *)
Definition setDevice (sn : string) (f : DeviceState -> DeviceState)
    (s : LifxStore) : LifxStore :=
  with_devices (JsObject.update sn f) s.

(** [createStore({devices: {}, groups: {}, selectedDevices: [], isScanning: true})] *)
Definition emptyStore : LifxStore := mkLifxStore [] [] [] true.

(** *** Messages handed to the protocol client *)

Inductive Command :=
| GetColorCommand
| GetLabelCommand
| GetGroupCommand
| GetVersionCommand
| SetColorCommand (h s b k duration : Z)
| SetLightPowerCommand (on : bool) (duration : Z).

(** Outcome of one promise under [Promise.allSettled]. *)
Inductive Settled (A : Type) :=
| fulfilled (value : A)
| rejected.
Arguments fulfilled {A} value.
Arguments rejected {A}.

(** Decoded replies. [power] of a light state and [product] of a version
    reply may be [undefined]. *)
Record LightState := mkLightState
  { ls_hue : Z; ls_saturation : Z; ls_brightness : Z; ls_kelvin : Z;
    ls_power : option Z }.
Record StateGroup := mkStateGroup { sg_group : string; sg_label : string }.
Record StateVersion := mkStateVersion { sv_vendor : Z; sv_product : option Z }.

Record Results := mkResults
  { colorResult : Settled LightState;
    labelResult : Settled string;
    groupResult : Settled StateGroup;
    versionResult : Settled StateVersion }.

(** The store together with what [createLifxStore] closes over and what
    the event loop holds for it. *)
Record World := mkWorld
  { store : LifxStore;
    pendingQueries : gset string;
    (** suspended [queryDeviceState] continuations, by serial number *)
    awaiting : list string;
    (** every message passed to [client.send] / [client.unicast] *)
    outbox : list (Command * string) }.

Definition with_store (f : LifxStore -> LifxStore) (w : World) : World :=
  mkWorld (f (store w)) (pendingQueries w) (awaiting w) (outbox w).

Definition initWorld : World := mkWorld emptyStore ∅ [] [].

(** *** Reads through optional chaining: [store.devices[sn]?.field] *)

Definition dev_selected (sn : string) (s : LifxStore) : bool :=
match JsObject.get sn (devices s) with Some d => selected d | None => false end.
Definition dev_online (sn : string) (s : LifxStore) : bool :=
match JsObject.get sn (devices s) with Some d => online d | None => false end.
Definition dev_power (sn : string) (s : LifxStore) : bool :=
match JsObject.get sn (devices s) with Some d => power d | None => false end.

(** [l.includes(sn)] *)
Definition includes (sn : string) (l : list string) : bool :=
existsb (String.eqb sn) l.

(** [l.forEach(f)] where [f] mutates the state [S]. *)
Definition forEach {A S : Type} (l : list A) (f : A -> S -> S) (s : S) : S :=
fold_left (fun acc x => f x acc) l s.

(** [sn.slice(-6)] *)
Definition slice_last6 (sn : string) : string :=
let n := String.length sn in
if (n <=? 6)%nat then sn else String.substring (n - 6) 6 sn.

(** *** queryDeviceState *)

Definition subQueries : list Command :=
[GetColorCommand; GetLabelCommand; GetGroupCommand; GetVersionCommand].

(** The four blocks of the [batch] callback, in source order. *)
Definition applyVersion (sn : string) (r : Settled StateVersion)
  (s : LifxStore) : LifxStore :=
match r with
| fulfilled versionVal =>
    let productId := match sv_product versionVal with Some p => p | None => 0 end in
    let s1 := setDevice sn (set_productId productId) s in
    if existsb (Z.eqb productId) SWITCH_PRODUCT_IDS
    then setDevice sn (set_deviceType switch) s1
    else setDevice sn (set_deviceType light) s1
| rejected => s
end.

Definition applyColor (sn : string) (r : Settled LightState)
  (s : LifxStore) : LifxStore :=
match r with
| fulfilled v =>
    let s1 := setDevice sn
      (set_color (mkHSBK (ls_hue v) (ls_saturation v) (ls_brightness v) (ls_kelvin v))) s in
    match ls_power v with
    | Some p => setDevice sn (set_power (0 <? p)) s1
    | None => s1
    end
| rejected => s
end.

(** The label is a string: the empty string is falsy. *)
Definition applyLabel (sn : string) (r : Settled string)
  (s : LifxStore) : LifxStore :=
match r with
| fulfilled v => if String.eqb v EmptyString then s else setDevice sn (set_label v) s
| rejected => s
end.

Definition applyGroup (sn : string) (r : Settled StateGroup)
  (s : LifxStore) : LifxStore :=
match r with
| fulfilled groupVal =>
    let groupId := sg_group groupVal in
    let groupLabel := sg_label groupVal in
    let s1 := setDevice sn (set_group groupLabel) s in
    let s2 := setDevice sn (set_groupId groupId) s1 in
    match JsObject.get groupId (groups s2) with
    | None =>
        with_groups (JsObject.put groupId (mkGroupState groupId groupLabel [sn] true)) s2
    | Some g =>
        if includes sn (g_devices g) then s2
        else with_groups (JsObject.update groupId (add_member sn)) s2
    end
| rejected => s
end.

Definition batchBody (sn : string) (r : Results) (now : Z)
  (s : LifxStore) : LifxStore :=
let s1 := applyVersion sn (versionResult r) s in
let s2 := applyColor sn (colorResult r) s1 in
let s3 := applyLabel sn (labelResult r) s2 in
let s4 := applyGroup sn (groupResult r) s3 in
let s5 := setDevice sn (set_online true) s4 in
setDevice sn (set_lastSeen now) s5.

(** The call, up to the [await]. [sendsOk] is the number of [client.send]
    calls that return before one raises ([4] or more: none raises). When
    one raises, control goes to [catch] and then [finally] inside the call. *)
Definition queryDeviceState (dev : Device) (sendsOk : nat) (w : World) : World :=
let sn := dev_serialNumber dev in
if bool_decide (sn ∈ pendingQueries w) then w
else
  let sent := map (fun c => (c, sn)) (take sendsOk subQueries) in
  if (4 <=? sendsOk)%nat then
    mkWorld (store w) ({[sn]} ∪ pendingQueries w) (awaiting w ++ [sn])
      (outbox w ++ sent)
  else
    mkWorld (setDevice sn (set_online false) (store w))
      (({[sn]} ∪ pendingQueries w) ∖ {[sn]}) (awaiting w) (outbox w ++ sent).

Fixpoint remove_first (sn : string) (l : list string) : list string :=
match l with
| [] => []
| x :: l' => if String.eqb x sn then l' else x :: remove_first sn l'
end.

(** The continuation after [await Promise.allSettled([...])], resumed with
    the four outcomes at time [now]. [Promise.allSettled] never rejects, so
    [catch] is entered only if a [setStore] of the batch raises, which is
    when the record is missing; the [setStore] in [catch] raises again. *)
Definition queryDeviceState_resume (sn : string) (r : Results) (now : Z)
  (w : World) : World :=
mkWorld
  (match JsObject.get sn (devices (store w)) with
   | Some _ => batchBody sn r now (store w)
   | None => store w
   end)
  (pendingQueries w ∖ {[sn]}) (remove_first sn (awaiting w)) (outbox w).

(** *** registerDevice *)

Definition newDeviceState (dev : Device) (now : Z) : DeviceState :=
mkDeviceState (dev_serialNumber dev) dev (slice_last6 (dev_serialNumber dev))
  EmptyString EmptyString false (mkHSBK 0 0 32768 3500) true false now unknown 0.

(** The [if]/[else] of [registerDevice]. *)
Definition upsertDevice (dev : Device) (now : Z) (s : LifxStore) : LifxStore :=
let sn := dev_serialNumber dev in
match JsObject.get sn (devices s) with
| None => with_devices (JsObject.put sn (newDeviceState dev now)) s
| Some _ => setDevice sn (set_lastSeen now) (setDevice sn (set_device dev) s)
end.

Definition registerDevice (dev : Device) (now : Z) (sendsOk : nat)
  (w : World) : World :=
queryDeviceState dev sendsOk (with_store (upsertDevice dev now) w).

(** *** Selection *)

Definition updateSelectedList (s : LifxStore) : LifxStore :=
with_selectedDevices
  (List.filter (fun sn => dev_selected sn s) (JsObject.keys (devices s))) s.

Definition toggleSelect (sn : string) (s : LifxStore) : LifxStore :=
match JsObject.get sn (devices s) with
| None => s
| Some d => updateSelectedList (setDevice sn (set_selected (negb (selected d))) s)
end.

Definition selectDevice (sn : string) (s : LifxStore) : LifxStore :=
let s1 := forEach (JsObject.keys (devices s))
            (fun k => setDevice k (set_selected false)) s in
match JsObject.get sn (devices s1) with
| None => s1
| Some _ => updateSelectedList (setDevice sn (set_selected true) s1)
end.

Definition selectAll (s : LifxStore) : LifxStore :=
updateSelectedList
  (forEach (JsObject.keys (devices s))
     (fun k acc => if dev_online k acc then setDevice k (set_selected true) acc else acc)
     s).

Definition selectNone (s : LifxStore) : LifxStore :=
updateSelectedList
  (forEach (JsObject.keys (devices s)) (fun k => setDevice k (set_selected false)) s).

Definition selectGroup (groupId : string) (s : LifxStore) : LifxStore :=
match JsObject.get groupId (groups s) with
| None => s
| Some g =>
    let allSelected := forallb (fun sn => dev_selected sn s) (g_devices g) in
    updateSelectedList
      (forEach (g_devices g)
         (fun sn acc =>
            if dev_online sn acc
            then setDevice sn (set_selected (negb allSelected)) acc
            else acc)
         s)
end.

Definition toggleGroup (groupId : string) (s : LifxStore) : LifxStore :=
match JsObject.get groupId (groups s) with
| None => s
| Some _ => with_groups (JsObject.update groupId flip_expanded) s
end.

(** *** Control functions

    [unicastThrows sn] tells whether [client.unicast] raises for device
    [sn]; the [try]/[catch] around it then skips the optimistic update. *)

Definition setColor (unicastThrows : string -> bool) (hsbk : HSBK)
  (duration : Z) (w : World) : World :=
let sel := selectedDevices (store w) in
if (length sel =? 0)%nat then w
else
  forEach sel
    (fun sn acc =>
       match JsObject.get sn (devices (store acc)) with
       | Some deviceState =>
           if online deviceState then
             if unicastThrows sn then acc
             else
               mkWorld (setDevice sn (set_color hsbk) (store acc))
                 (pendingQueries acc) (awaiting acc)
                 (outbox acc ++
                    [(SetColorCommand (hue hsbk) (saturation hsbk)
                        (brightness hsbk) (kelvin hsbk) duration, sn)])
           else acc
       | None => acc
       end)
    w.

Definition setPower (unicastThrows : string -> bool) (on : bool)
  (duration : Z) (w : World) : World :=
let sel := selectedDevices (store w) in
if (length sel =? 0)%nat then w
else
  forEach sel
    (fun sn acc =>
       match JsObject.get sn (devices (store acc)) with
       | Some deviceState =>
           if online deviceState then
             if unicastThrows sn then acc
             else
               mkWorld (setDevice sn (set_power on) (store acc))
                 (pendingQueries acc) (awaiting acc)
                 (outbox acc ++ [(SetLightPowerCommand on duration, sn)])
           else acc
       | None => acc
       end)
    w.

(** [selected.some((sn) => store.devices[sn]?.power)] *)
Definition anyOn (s : LifxStore) : bool :=
existsb (fun sn => dev_power sn s) (selectedDevices s).

Definition togglePower (unicastThrows : string -> bool) (w : World) : World :=
let sel := selectedDevices (store w) in
if (length sel =? 0)%nat then w
else setPower unicastThrows (negb (anyOn (store w))) 0 w.

(** [refreshAll] sets the scanning flag, awaits [queryDeviceState] for each
    device in turn and clears the flag: a sequence of calls and resumptions
    between these two writes. *)
Definition refreshAll_begin (s : LifxStore) : LifxStore := with_isScanning true s.
Definition refreshAll_end (s : LifxStore) : LifxStore := with_isScanning false s.

(** *** Read views *)

(** [Array.prototype.sort] is stable; for a comparator that is a
    consistent ordering it returns the one stable sorted arrangement,
    which insertion from the right computes. *)
Fixpoint sort_insert {A : Type} (cmp : A -> A -> Z) (x : A) (l : list A) : list A :=
match l with
| [] => [x]
| y :: l' => if cmp x y <=? 0 then x :: y :: l' else y :: sort_insert cmp x l'
end.

Definition Array_sort {A : Type} (cmp : A -> A -> Z) (l : list A) : list A :=
fold_right (sort_insert cmp) [] l.

Section Views.

(** [String.prototype.localeCompare], fixed by the host's collation. *)
Variable localeCompare : string -> string -> Z.

(** [d !== undefined && d.deviceType !== 'switch'] *)
Definition notSwitch (d : DeviceState) : bool :=
negb (DeviceType_eqb (deviceType d) switch).

Definition getGroupDevices (groupId : string) (s : LifxStore) : list DeviceState :=
match JsObject.get groupId (groups s) with
| None => []
| Some g =>
    Array_sort (fun a b => localeCompare (label a) (label b))
      (List.filter notSwitch
         (omap (fun sn => JsObject.get sn (devices s)) (g_devices g)))
end.

Definition hasLights (s : LifxStore) (g : GroupState) : bool :=
existsb
  (fun sn =>
     match JsObject.get sn (devices s) with
     | Some d => notSwitch d
     | None => false
     end)
  (g_devices g).

Definition compareGroups (a b : GroupState) : Z :=
if String.eqb (g_id a) "ungrouped" then 1
else if String.eqb (g_id b) "ungrouped" then -1
else localeCompare (g_label a) (g_label b).

Definition getSortedGroups (s : LifxStore) : list GroupState :=
Array_sort compareGroups
  (List.filter (hasLights s) (JsObject.values (groups s))).

End Views.

(** *** The store as a transition system *)

Inductive Event :=
| ERegisterDevice (dev : Device) (now : Z) (sendsOk : nat)
| EQueryDeviceState (dev : Device) (sendsOk : nat)
| EResume (sn : string) (r : Results) (now : Z)
| EToggleSelect (sn : string)
| ESelectDevice (sn : string)
| ESelectAll
| ESelectNone
| ESelectGroup (groupId : string)
| EToggleGroup (groupId : string)
| ESetColor (unicastThrows : string -> bool) (hsbk : HSBK) (duration : Z)
| ESetPower (unicastThrows : string -> bool) (on : bool) (duration : Z)
| ETogglePower (unicastThrows : string -> bool)
| ERefreshAllBegin
| ERefreshAllEnd.

Definition exec (e : Event) (w : World) : World :=
match e with
| ERegisterDevice dev now k => registerDevice dev now k w
| EQueryDeviceState dev k => queryDeviceState dev k w
| EResume sn r now => queryDeviceState_resume sn r now w
| EToggleSelect sn => with_store (toggleSelect sn) w
| ESelectDevice sn => with_store (selectDevice sn) w
| ESelectAll => with_store selectAll w
| ESelectNone => with_store selectNone w
| ESelectGroup g => with_store (selectGroup g) w
| EToggleGroup g => with_store (toggleGroup g) w
| ESetColor t hsbk d => setColor t hsbk d w
| ESetPower t on d => setPower t on d w
| ETogglePower t => togglePower t w
| ERefreshAllBegin => with_store refreshAll_begin w
| ERefreshAllEnd => with_store refreshAll_end w
end.

(** A continuation can be resumed only if it is suspended. *)
Definition enabled (e : Event) (w : World) : Prop :=
match e with
| EResume sn _ _ => sn ∈ awaiting w
| _ => True
end.

Inductive reachable : World -> Prop :=
| reachable_init : reachable initWorld
| reachable_step (w : World) (e : Event) :
    reachable w -> enabled e w -> reachable (exec e w).

Definition run (es : list Event) (w : World) : World :=
fold_left (fun acc e => exec e acc) es w.
End Store.

(** ** [src/lifx/client.ts]: the UDP transport *)

Module Client.

(** The [node:dgram] socket, as far as the transport drives it: whether
    [socket.close()] has been called, and how many datagrams passed to
    [socket.send] still wait for their completion callback. *)
Record Socket := mkSocket
  { sock_closed : bool;
    sock_queued : nat }.

Record Transport := mkTransport
  { sendCounter : Z;
    socketShouldClose : bool;
    (** whether the 500 ms discovery timer is armed *)
    scanInterval : bool;
    socket : Socket }.

Definition socket_close (k : Socket) : Socket := mkSocket true (sock_queued k).
Definition socket_send (k : Socket) : Socket :=
mkSocket (sock_closed k) (S (sock_queued k)).
Definition socket_done (k : Socket) : Socket :=
mkSocket (sock_closed k) (Nat.pred (sock_queued k)).

(** State after [createSocket], before the first broadcast. *)
Definition init : Transport := mkTransport 0 false true (mkSocket false 0).

Definition socketCallback (t : Transport) : Transport :=
let c := sendCounter t - 1 in
if socketShouldClose t && (c <=? 0)
then mkTransport c (socketShouldClose t) (scanInterval t) (socket_close (socket t))
else mkTransport c (socketShouldClose t) (scanInterval t) (socket t).

(** [onSend] of the router: every datagram of the client goes through it. *)
Definition onSend (t : Transport) : Transport :=
mkTransport (sendCounter t + 1) (socketShouldClose t) (scanInterval t)
  (socket_send (socket t)).

(** The socket finishes one queued datagram and invokes the callback it was
    given, [socketCallback]. *)
Definition sendCompleted (t : Transport) : Transport :=
socketCallback
  (mkTransport (sendCounter t) (socketShouldClose t) (scanInterval t)
     (socket_done (socket t))).

Definition close (t : Transport) : Transport :=
socketCallback (mkTransport (sendCounter t) true false (socket t)).

Inductive Event := ESend | ECompleted | EClose.

Definition exec (e : Event) (t : Transport) : Transport :=
match e with
| ESend => onSend t
| ECompleted => sendCompleted t
| EClose => close t
end.

(** A completion callback runs only for a datagram that is queued. *)
Definition enabled (e : Event) (t : Transport) : Prop :=
match e with
| ECompleted => (0 < sock_queued (socket t))%nat
| _ => True
end.

(** States the transport is in while it is open: sends and completions
    only, no [close()] yet. *)
Inductive running : Transport -> Prop :=
| running_init : running init
| running_send t : running t -> running (onSend t)
| running_completed t :
    running t -> enabled ECompleted t -> running (sendCompleted t).

End Client.

(** ** [src/lifx/effects.ts]: the DJ engine *)

Module Effects.

Inductive DJPattern := chase | strobe | alternate | wave | random | pulse | blackout.

Record DJConfig := mkDJConfig
  { bpm : Z;
    pattern : DJPattern;
    colors : list Store.HSBK;
    intensity : Q;
    subdivision : Q }.

(** [Partial<DJConfig>] *)
Record PartialDJConfig := mkPartial
  { p_bpm : option Z;
    p_pattern : option DJPattern;
    p_colors : option (list Store.HSBK);
    p_intensity : option Q;
    p_subdivision : option Q }.

(** [{ ...prev, ...newConfig }] *)
Definition merge (prev : DJConfig) (newConfig : PartialDJConfig) : DJConfig :=
mkDJConfig
  (match p_bpm newConfig with Some v => v | None => bpm prev end)
  (match p_pattern newConfig with Some v => v | None => pattern prev end)
  (match p_colors newConfig with Some v => v | None => colors prev end)
  (match p_intensity newConfig with Some v => v | None => intensity prev end)
  (match p_subdivision newConfig with Some v => v | None => subdivision prev end).

Definition DEFAULT_BLUE : Store.HSBK := Store.mkHSBK 43690 65535 65535 3500.
Definition DEFAULT_PURPLE : Store.HSBK := Store.mkHSBK 49151 65535 65535 3500.
Definition DEFAULT_PINK : Store.HSBK := Store.mkHSBK 58981 45000 65535 3500.

(** A timer armed by [setInterval(onBeat, period)]. *)
Record Timer := mkTimer
  { timer_id : nat;
    timer_period : Q }.

(** The variables [createDJEngine] closes over. [configWrites] counts the
    calls of the signal setter [setConfig], each of which notifies the
    subscribers of [config]; [timersArmed] numbers the timers. *)
Record Engine := mkEngine
  { intervalId : option Timer;
    beatCount : Z;
    lastBeatTime : Z;
    lastTapTime : Z;
    config : DJConfig;
    configWrites : nat;
    timersArmed : nat }.

Definition initEngine : Engine :=
mkEngine None 0 0 0
  (mkDJConfig 120 chase [DEFAULT_BLUE; DEFAULT_PURPLE; DEFAULT_PINK] 1 1) 0 0.

(** [(60000 / config().bpm) / config().subdivision], as a rational. *)
Definition getBeatInterval (e : Engine) : Q :=
((60000 / inject_Z (bpm (config e))) / subdivision (config e))%Q.

Definition stop (e : Engine) : Engine :=
match intervalId e with
| Some _ =>
    mkEngine None (beatCount e) (lastBeatTime e) (lastTapTime e) (config e)
      (configWrites e) (timersArmed e)
| None => e
end.

Definition setConfig (f : DJConfig -> DJConfig) (e : Engine) : Engine :=
mkEngine (intervalId e) (beatCount e) (lastBeatTime e) (lastTapTime e)
  (f (config e)) (S (configWrites e)) (timersArmed e).

Definition setInterval_onBeat (e : Engine) : Engine :=
mkEngine (Some (mkTimer (timersArmed e) (getBeatInterval e))) (beatCount e)
  (lastBeatTime e) (lastTapTime e) (config e) (configWrites e)
  (S (timersArmed e)).

Definition updateConfig (newConfig : PartialDJConfig) (e : Engine) : Engine :=
let e1 := setConfig (fun prev => merge prev newConfig) e in
match intervalId e1 with
| Some _ => setInterval_onBeat (stop e1)
| None => e1
end.

(** [Math.round]: the nearest integer, halves upwards. *)
Definition Math_round (q : Q) : Z := Qfloor (q + (1 # 2)).

Definition set_lastTapTime (now : Z) (e : Engine) : Engine :=
mkEngine (intervalId e) (beatCount e) (lastBeatTime e) now (config e)
  (configWrites e) (timersArmed e).

(** [now] is the value of [Date.now()] in the call. The quotient
    [60000 / interval] is taken in the rationals: for an integer interval
    between 200 and 2000 it is either exactly a half-integer, which a
    double represents exactly, or at least 1/4000 away from one, so the
    double quotient rounds to the same integer. *)
Definition tapTempo (now : Z) (e : Engine) : Engine :=
let e1 :=
  if 0 <? lastTapTime e then
    let interval := now - lastTapTime e in
    if (200 <? interval) && (interval <? 2000) then
      let newBpm := Math_round (60000 / inject_Z interval)%Q in
      updateConfig (mkPartial (Some newBpm) None None None None) e
    else e
  else e in
set_lastTapTime now e1.

End Effects.

(** ** Vocabulary of the properties *)

Module Vocabulary.
Import Store.

(** [sn] is in the member list of group [groupId]. *)
Definition isMember (sn groupId : string) (s : LifxStore) : bool :=
match JsObject.get groupId (groups s) with
| Some g => includes sn (g_devices g)
| None => false
end.

(** The device type a version reply with product id [p] stands for. *)
Definition classify (p : option Z) : DeviceType :=
if existsb (Z.eqb (match p with Some v => v | None => 0 end)) SWITCH_PRODUCT_IDS
then switch else light.

(** What the batch writes into the record of [sn], field by field. *)
Definition batchRecord (r : Results) (now : Z) (d : DeviceState) : DeviceState :=
let d1 := match versionResult r with
          | fulfilled v =>
              set_deviceType (classify (sv_product v))
                (set_productId (match sv_product v with Some p => p | None => 0 end) d)
          | rejected => d
          end in
let d2 := match colorResult r with
          | fulfilled c =>
              let d' := set_color (mkHSBK (ls_hue c) (ls_saturation c)
                                     (ls_brightness c) (ls_kelvin c)) d1 in
              match ls_power c with
              | Some p => set_power (0 <? p) d'
              | None => d'
              end
          | rejected => d1
          end in
let d3 := match labelResult r with
          | fulfilled l => if String.eqb l EmptyString then d2 else set_label l d2
          | rejected => d2
          end in
let d4 := match groupResult r with
          | fulfilled g => set_groupId (sg_group g) (set_group (sg_label g) d3)
          | rejected => d3
          end in
set_lastSeen now (set_online true d4).

(** The part of the world that only [queryDeviceState] and its
  continuation write. *)
Definition sameQueries (w w' : World) : Prop :=
pendingQueries w' = pendingQueries w /\ awaiting w' = awaiting w.

(** The deduplication invariant: no two suspended refreshes of one
    device, and the pending set names exactly the suspended ones. *)
Definition dedupInv (w : World) : Prop :=
NoDup (awaiting w) /\ forall sn : string, sn ∈ awaiting w <-> sn ∈ pendingQueries w.

(** A device of class light: one that a version reply has classified as
    a light. *)
Definition lightClass (d : DeviceState) : Prop := deviceType d = light.

(** What the read views keep: a device that is not classified as a
    switch, whether it is of class light or has not been classified. *)
Definition nonSwitch (d : DeviceState) : Prop := deviceType d <> switch.

(** The order of [getSortedGroups]: labels in the order of [lc], groups
    with id ["ungrouped"] after all the others. *)
Definition groupLe (lc : string -> string -> Z) (a b : GroupState) : Prop :=
g_id b = "ungrouped" \/ (g_id a <> "ungrouped" /\ lc (g_label a) (g_label b) <= 0).

(** The order of [getGroupDevices]: labels in the order of [lc]. *)
Definition deviceLe (lc : string -> string -> Z) (a b : DeviceState) : Prop :=
lc (label a) (label b) <= 0.

(** The group dictionary is keyed by group id: every key occurs once and
    is the id of the group stored under it. *)
Definition groupsWf (s : LifxStore) : Prop :=
NoDup (JsObject.keys (groups s))
/\ Forall (fun kv => g_id (snd kv) = fst kv) (groups s).

End Vocabulary.

(** ** Concrete devices and replies, used to run the model *)

Module Examples.
Import Store.

Definition lamp : Device := mkDevice "d073d5000001" 56700 "192.168.1.20" [].
Definition lamp_moved : Device := mkDevice "d073d5000001" 56700 "192.168.1.37" [].
Definition strip : Device := mkDevice "d073d5000002" 56700 "192.168.1.21" [].

Definition allRejected : Results := mkResults rejected rejected rejected rejected.

Definition white : LightState := mkLightState 0 0 32768 3500 (Some 65535).
Definition livingRoom : StateGroup := mkStateGroup "a1b2c3d4" "Living Room".
Definition kitchen : StateGroup := mkStateGroup "e5f6a7b8" "Kitchen".
Definition bulb : StateVersion := mkStateVersion 1 (Some 27).

Definition allAnswered (l : string) (g : StateGroup) : Results :=
mkResults (fulfilled white) (fulfilled l) (fulfilled g) (fulfilled bulb).

(** The lamp has just been discovered; its first refresh is in flight. *)
Definition discovered : World :=
Eval vm_compute in
registerDevice lamp 1000 4 initWorld.

(** Its first refresh has completed: it is in the living room. *)
Definition inLivingRoom : World :=
Eval vm_compute in
queryDeviceState_resume "d073d5000001" (allAnswered "Lamp" livingRoom) 2000 discovered.

(** A second refresh, whose group reply names the kitchen. *)
Definition regroup : list Event :=
[EQueryDeviceState lamp 4;
 EResume "d073d5000001" (allAnswered "Lamp" kitchen) 3000].

Definition dark : LightState := mkLightState 0 0 32768 3500 (Some 0).

(** Lamp (on) and strip (off) are both in the living room and online;
    only the lamp is selected. *)
Definition partlySelected : World :=
Eval vm_compute in
run [ERegisterDevice lamp 1000 4;
     ERegisterDevice strip 1000 4;
     EResume "d073d5000001" (allAnswered "Lamp" livingRoom) 2000;
     EResume "d073d5000002"
       (mkResults (fulfilled dark) (fulfilled "Strip") (fulfilled livingRoom)
          (fulfilled bulb)) 2000;
     EToggleSelect "d073d5000001"]
  initWorld.

(** Both are selected. *)
Definition bothSelected : World :=
Eval vm_compute in
exec (EToggleSelect "d073d5000002") partlySelected.

(** Both are selected, then a refresh of the lamp raises in [client.send]
    and the lamp is marked offline. *)
Definition lampOffline : World :=
Eval vm_compute in
exec (EQueryDeviceState lamp 0) bothSelected.

Definition neverThrows (sn : string) : bool := false.

(** A collation to run the read views with: code unit order. *)
Definition codeUnitCompare (a b : string) : Z :=
match String_as_OT.compare a b with
| Lt => -1
| Eq => 0
| Gt => 1
end.

Definition wallSwitch : Device := mkDevice "d073d5000003" 56700 "192.168.1.22" [].
Definition porch : Device := mkDevice "d073d5000004" 56700 "192.168.1.23" [].

(** Four devices: the lamp in the living room, the strip in the kitchen,
    a switch alone in the hall, and a porch light whose group has the id
    "ungrouped" and a label that sorts first. *)
Definition house : World :=
Eval vm_compute in
run [ERegisterDevice lamp 1000 4;
     ERegisterDevice strip 1000 4;
     ERegisterDevice wallSwitch 1000 4;
     ERegisterDevice porch 1000 4;
     EResume "d073d5000004"
       (allAnswered "Porch" (mkStateGroup "ungrouped" "A porch")) 2000;
     EResume "d073d5000001" (allAnswered "Lamp" livingRoom) 2000;
     EResume "d073d5000003"
       (mkResults (fulfilled white) (fulfilled "Switch")
          (fulfilled (mkStateGroup "c9d0e1f2" "Hall"))
          (fulfilled (mkStateVersion 1 (Some 70)))) 2000;
     EResume "d073d5000002" (allAnswered "Strip" kitchen) 2000]
  initWorld.

(** The wall switch alone, after a refresh whose version query failed:
    it is in the hall and its type is still unknown. *)
Definition unclassified : World :=
Eval vm_compute in
run [ERegisterDevice wallSwitch 1000 4;
     EResume "d073d5000003"
       (mkResults rejected (fulfilled "Switch")
          (fulfilled (mkStateGroup "c9d0e1f2" "Hall")) rejected) 2000]
  initWorld.

End Examples.

(** ** [src/utils/colors.ts]: hex strings and interpolation *)

Module Colors.

Record RGB := mkRGB { r : Z; g : Z; b : Z }.

Definition hexDigits : list ascii :=
["0"; "1"; "2"; "3"; "4"; "5"; "6"; "7"; "8"; "9"; "a"; "b"; "c"; "d"; "e"; "f"]%char.

Definition hexDigit (d : Z) : ascii := nth (Z.to_nat d) hexDigits "0"%char.

(** Digits of a non-negative integer in base 16, most significant first.
    The fuel is one more than the binary logarithm, which bounds the
    number of hexadecimal digits. *)
Fixpoint toString16_digits (fuel : nat) (n : Z) (acc : string) : string :=
match fuel with
| O => acc
| S fuel' =>
    let acc' := String (hexDigit (n mod 16)) acc in
    if n <? 16 then acc' else toString16_digits fuel' (n / 16) acc'
end.

(** [n.toString(16)] for an integer [n] *)
Definition toString16 (n : Z) : string :=
if n <? 0
then String "-" (toString16_digits (S (Z.to_nat (Z.log2 (- n)))) (- n) EmptyString)
else toString16_digits (S (Z.to_nat (Z.log2 n))) n EmptyString.

Fixpoint repeatChar (n : nat) (c : ascii) : string :=
match n with
| O => EmptyString
| S n' => String c (repeatChar n' c)
end.

(** [s.padStart(n, c)] *)
Definition padStart (n : nat) (c : ascii) (s : string) : string :=
String.append (repeatChar (n - String.length s) c) s.

Definition toHex (n : Z) : string := padStart 2 "0" (toString16 n).

Definition rgbToHex (rgb : RGB) : string :=
String "#" (String.append (toHex (r rgb)) (String.append (toHex (g rgb)) (toHex (b rgb)))).

(** The character class [[a-f\d]] under the [i] flag. *)
Definition isHexDigit (c : ascii) : bool :=
let n := nat_of_ascii c in
((48 <=? n) && (n <=? 57) || (97 <=? n) && (n <=? 102) || (65 <=? n) && (n <=? 70))%nat.

Definition hexVal (c : ascii) : Z :=
let n := nat_of_ascii c in
if (n <=? 57)%nat then Z.of_nat (n - 48)
else if (n <=? 70)%nat then Z.of_nat (n - 55)
else Z.of_nat (n - 87).

(** [parseInt(s, 16)] on a string of two hexadecimal digits *)
Definition parseInt16_2 (c1 c2 : ascii) : Z := 16 * hexVal c1 + hexVal c2.

Definition white : RGB := mkRGB 255 255 255.

(** The regular expression is anchored at both ends: an optional [#],
    then exactly six hexadecimal digits in three groups of two. *)
Definition hexToRgb (hex : string) : RGB :=
let body := match hex with
            | String "#" rest => rest
            | _ => hex
            end in
match list_ascii_of_string body with
| [c1; c2; c3; c4; c5; c6] =>
    if forallb isHexDigit [c1; c2; c3; c4; c5; c6]
    then mkRGB (parseInt16_2 c1 c2) (parseInt16_2 c3 c4) (parseInt16_2 c5 c6)
    else white
| _ => white
end.

(** [lerpHsbk(a, b, t)] for an integer [t]: all the arithmetic is then on
    integers, which doubles carry exactly, and [Math.round] is the
    identity. *)
Definition lerpHsbk (a b : Store.HSBK) (t : Z) : Store.HSBK :=
let hueDiff := Store.hue b - Store.hue a in
let hueDiff := if 32767 <? hueDiff then hueDiff - 65535 else hueDiff in
let hueDiff := if hueDiff <? -32767 then hueDiff + 65535 else hueDiff in
let hue := Store.hue a + hueDiff * t in
let hue := if hue <? 0 then hue + 65535 else hue in
let hue := if 65535 <? hue then hue - 65535 else hue in
Store.mkHSBK hue
  (Store.saturation a + (Store.saturation b - Store.saturation a) * t)
  (Store.brightness a + (Store.brightness b - Store.brightness a) * t)
  (Store.kelvin a + (Store.kelvin b - Store.kelvin a) * t).

Definition COLOR_PRESETS : JsObject.t Store.HSBK :=
[("red", Store.mkHSBK 0 65535 65535 3500);
 ("orange", Store.mkHSBK 6000 65535 65535 3500);
 ("yellow", Store.mkHSBK 10920 65535 65535 3500);
 ("green", Store.mkHSBK 21845 65535 65535 3500);
 ("cyan", Store.mkHSBK 32767 65535 65535 3500);
 ("blue", Store.mkHSBK 43690 65535 65535 3500);
 ("purple", Store.mkHSBK 49151 65535 65535 3500);
 ("pink", Store.mkHSBK 58981 45000 65535 3500);
 ("white", Store.mkHSBK 0 0 65535 5500);
 ("warmWhite", Store.mkHSBK 0 0 65535 2700);
 ("coolWhite", Store.mkHSBK 0 0 65535 9000)].

End Colors.

(** ** [src/lifx/effects.ts]: starting the DJ engine and the beat *)

Module Beat.
Import Effects.

(** The waveform kinds of the protocol library. *)
Inductive Waveform := SAW | SINE | HALF_SINE | TRIANGLE | PULSE.

(** [createDJEngine] also closes over the list of target devices. *)
Record DJ := mkDJ
  { engine : Engine;
    devices : list Store.Device }.

Definition isRunning (e : Engine) : bool :=
match intervalId e with
| Some _ => true
| None => false
end.

(** [start(newDevices, newConfig?)], called at time [now]. *)
Definition start (newDevices : list Store.Device)
  (newConfig : option PartialDJConfig) (now : Z) (dj : DJ) : DJ :=
let e1 := stop (engine dj) in
let e2 := match newConfig with
          | Some c => setConfig (fun prev => merge prev c) e1
          | None => e1
          end in
let e3 := mkEngine (intervalId e2) 0 now (lastTapTime e2) (config e2)
            (configWrites e2) (timersArmed e2) in
mkDJ (setInterval_onBeat e3) newDevices.

(** [color ?? fallback] *)
Definition safeColor (color : option Store.HSBK) (fallback : Store.HSBK) : Store.HSBK :=
match color with
| Some c => c
| None => fallback
end.

(** [a % n] for a counter [a >= 0] and a length [n]: [NaN] when [n] is 0,
    and indexing an array with [NaN] gives [undefined]. *)
Definition remLength (a : Z) (n : nat) : option nat :=
match n with
| O => None
| S _ => Some (Z.to_nat (a mod Z.of_nat n))
end.

Definition at_ {A : Type} (l : list A) (i : option nat) : option A :=
match i with
| Some k => nth_error l k
| None => None
end.

Section Numbers.

(** The numbers of the beat are doubles. Their arithmetic is kept
    abstract: [ofZ] and [ofQ] inject an integer and a configuration value
    or decimal literal, [mul] and [div] are the product and the quotient
    and [round] is [Math.round]. *)
Variable float : Type.
Variable ofZ : Z -> float.
Variable ofQ : Q -> float.
Variable mul : float -> float -> float.
Variable div : float -> float -> float.
Variable round : float -> Z.

(** [getBeatInterval()]: [(60000 / config().bpm) / config().subdivision] *)
Definition beatInterval (cfg : DJConfig) : float :=
div (div (ofZ 60000) (ofZ (bpm cfg))) (ofQ (subdivision cfg)).

Inductive Msg :=
| SetColorCommand (h s b k : Z) (duration : float)
| SetWaveformCommand (transient : bool) (h s b k : Z) (period : float)
    (cycles : Z) (skewRatio : float) (waveform : Waveform).

(** What one call of [onBeat] did: the commands passed to
    [client.unicast], the commands scheduled with [setTimeout], and
    whether the call returned (a raising [client.unicast] is not caught
    in [onBeat] and ends the call). *)
Record Frame := mkFrame
  { sent : list (Msg * Store.Device);
    scheduled : list (Msg * Store.Device);
    returned : bool }.

(** [devices.forEach((device, i) => { client.unicast(now_ i device, device);
    later ... })], starting at index [i]. *)
Fixpoint unicastEach (unicastThrows : string -> bool)
  (now_ : nat -> Store.Device -> Msg)
  (later : nat -> Store.Device -> option Msg)
  (i : nat) (ds : list Store.Device) : Frame :=
match ds with
| [] => mkFrame [] [] true
| d :: ds' =>
    if unicastThrows (Store.dev_serialNumber d) then mkFrame [] [] false
    else
      let rest := unicastEach unicastThrows now_ later (S i) ds' in
      mkFrame ((now_ i d, d) :: sent rest)
        (match later i d with
         | Some m => (m, d) :: scheduled rest
         | None => scheduled rest
         end)
        (returned rest)
end.

(** [Math.round(color.brightness * cfg.intensity)] *)
Definition scaled (brightness : Z) (cfg : DJConfig) : Z :=
round (mul (ofZ brightness) (ofQ (intensity cfg))).

(** The command of pattern [p] for the device at index [i], with the beat
    counter already incremented to [beatCount]. [pick i] is
    [Math.floor(Math.random() * cfg.colors.length)] for that device. *)
Definition command (e : Engine) (nDevices : nat) (pick : nat -> nat)
  (beatCount : Z) (i : nat) : Msg :=
let cfg := config e in
let color := safeColor (at_ (colors cfg) (remLength beatCount (length (colors cfg))))
               DEFAULT_BLUE in
match pattern cfg with
| chase =>
    if (Z.of_nat i =? beatCount mod Z.of_nat nDevices)
    then SetColorCommand (Store.hue color) (Store.saturation color)
           (scaled (Store.brightness color) cfg) (Store.kelvin color) (ofZ 50)
    else SetColorCommand 0 0
           (round (mul (mul (ofZ (Store.brightness color)) (ofQ (1 # 10)))
                     (ofQ (intensity cfg))))
           (Store.kelvin color) (ofZ 100)
| strobe =>
    SetColorCommand (Store.hue color) (Store.saturation color)
      (if beatCount mod 2 =? 0 then scaled (Store.brightness color) cfg else 0)
      (Store.kelvin color) (ofZ 0)
| alternate =>
    SetColorCommand (Store.hue color) (Store.saturation color)
      (if Z.of_nat i mod 2 =? beatCount mod 2
       then scaled (Store.brightness color) cfg
       else round (mul (ofZ (Store.brightness color)) (ofQ (2 # 10))))
      (Store.kelvin color) (ofZ 50)
| wave =>
    let waveColor :=
      safeColor (at_ (colors cfg)
                   (remLength (beatCount + Z.of_nat i) (length (colors cfg))))
        DEFAULT_BLUE in
    SetColorCommand (Store.hue waveColor) (Store.saturation waveColor)
      (scaled (Store.brightness waveColor) cfg) (Store.kelvin waveColor)
      (mul (beatInterval cfg) (ofQ (8 # 10)))
| random =>
    let randColor := safeColor (nth_error (colors cfg) (pick i)) DEFAULT_BLUE in
    SetColorCommand (Store.hue randColor) (Store.saturation randColor)
      (scaled (Store.brightness randColor) cfg) (Store.kelvin randColor) (ofZ 50)
| pulse =>
    SetWaveformCommand true (Store.hue color) (Store.saturation color)
      (scaled (Store.brightness color) cfg) (Store.kelvin color)
      (beatInterval cfg) 1 (ofQ (5 # 10)) SINE
| blackout =>
    SetColorCommand (Store.hue color) (Store.saturation color)
      (round (mul (ofZ 65535) (ofQ (intensity cfg)))) (Store.kelvin color) (ofZ 0)
end.

(** The command [blackout] schedules 50 ms later for each device. *)
Definition afterglow (e : Engine) (beatCount : Z) : option Msg :=
let cfg := config e in
let color := safeColor (at_ (colors cfg) (remLength beatCount (length (colors cfg))))
               DEFAULT_BLUE in
match pattern cfg with
| blackout => Some (SetColorCommand 0 0 0 (Store.kelvin color) (ofZ 50))
| _ => None
end.

Definition set_beatCount (n : Z) (e : Engine) : Engine :=
mkEngine (intervalId e) n (lastBeatTime e) (lastTapTime e) (config e)
  (configWrites e) (timersArmed e).

(** One firing of the timer. *)
Definition onBeat (unicastThrows : string -> bool) (pick : nat -> nat)
  (dj : DJ) : DJ * Frame :=
match devices dj with
| [] => (dj, mkFrame [] [] true)
| _ :: _ =>
    let beatCount := beatCount (engine dj) + 1 in
    let e := set_beatCount beatCount (engine dj) in
    (mkDJ e (devices dj),
     unicastEach unicastThrows
       (fun i _ => command e (length (devices dj)) pick beatCount i)
       (fun _ _ => afterglow e beatCount)
       0 (devices dj))
end.

End Numbers.

End Beat.

(** ** [src/components/App.tsx]: the keys that drive the engine and the
    sliders that drive the store *)

Module App.
Import Effects.

(** [COLOR_PALETTES[0]] of the DJ screen: blue, purple, pink, cyan. *)
Definition partyPalette : list Store.HSBK :=
[Store.mkHSBK 43690 65535 65535 3500;
 Store.mkHSBK 49151 65535 65535 3500;
 Store.mkHSBK 58981 45000 65535 3500;
 Store.mkHSBK 32767 65535 65535 3500].

Definition patterns : list DJPattern :=
[chase; strobe; alternate; wave; random; pulse; blackout].

(** The keys [handleDJModeKeys] reacts to; [KDigit n] is one of the keys
    '1' to '7', [KOther] any other key. *)
Inductive DJKey :=
| KEscape
| KTap
| KSpace
| KDigit (n : nat)
| KPlus
| KMinus
| KIntensity (shift : bool)
| KOther.

(** [store.selectedDevices.map((sn) => store.devices[sn]?.device).filter(Boolean)] *)
Definition selectedHandles (s : Store.LifxStore) : list Store.Device :=
omap (fun sn => option_map Store.device (JsObject.get sn (Store.devices s)))
  (Store.selectedDevices s).

Definition onlyBpm (v : Z) : PartialDJConfig := mkPartial (Some v) None None None None.
Definition onlyPattern (p : DJPattern) : PartialDJConfig :=
mkPartial None (Some p) None None None.
Definition onlyColors (c : list Store.HSBK) : PartialDJConfig :=
mkPartial None None (Some c) None None.
Definition onlyIntensity (q : Q) : PartialDJConfig :=
mkPartial None None None (Some q) None.

Definition withEngine (f : Engine -> Engine) (dj : Beat.DJ) : Beat.DJ :=
Beat.mkDJ (f (Beat.engine dj)) (Beat.devices dj).

Section Doubles.

(** The intensity is a double, which the configuration holds as a
    rational, its exact value. The arithmetic on it is kept abstract:
    [addD] and [subD] are the sum and the difference of two doubles as
    the host rounds them, and [tenth] is the double that the literal
    [0.1] denotes. [Math.min] and [Math.max] compare exactly. *)
Variable addD : Q -> Q -> Q.
Variable subD : Q -> Q -> Q.
Variable tenth : Q.

(** [handleDJModeKeys], for a key pressed at time [now] while the store
    is [s]. *)
Definition handleDJModeKeys (key : DJKey) (now : Z) (s : Store.LifxStore)
  (dj : Beat.DJ) : Beat.DJ :=
let cfg := config (Beat.engine dj) in
match key with
| KEscape => withEngine stop dj
| KTap => withEngine (tapTempo now) dj
| KSpace =>
    if Beat.isRunning (Beat.engine dj) then withEngine stop dj
    else
      let selectedDevices := selectedHandles s in
      if (0 <? length selectedDevices)%nat
      then Beat.start selectedDevices (Some (onlyColors partyPalette)) now dj
      else dj
| KDigit n =>
    match n with
    | O => dj
    | S k =>
        match nth_error patterns k with
        | Some p => withEngine (updateConfig (onlyPattern p)) dj
        | None => dj
        end
    end
| KPlus => withEngine (updateConfig (onlyBpm (Z.min 300 (bpm cfg + 5)))) dj
| KMinus => withEngine (updateConfig (onlyBpm (Z.max 30 (bpm cfg - 5)))) dj
| KIntensity shift =>
    let newIntensity :=
      if shift then Qmin 1 (addD (intensity cfg) tenth)
      else Qmax tenth (subD (intensity cfg) tenth) in
    withEngine (updateConfig (onlyIntensity newIntensity)) dj
| KOther => dj
end.

End Doubles.

Definition clamp (lo hi x : Z) : Z := Z.max lo (Z.min hi x).

Definition with_hue (v : Z) (c : Store.HSBK) : Store.HSBK :=
Store.mkHSBK v (Store.saturation c) (Store.brightness c) (Store.kelvin c).
Definition with_saturation (v : Z) (c : Store.HSBK) : Store.HSBK :=
Store.mkHSBK (Store.hue c) v (Store.brightness c) (Store.kelvin c).
Definition with_brightness (v : Z) (c : Store.HSBK) : Store.HSBK :=
Store.mkHSBK (Store.hue c) (Store.saturation c) v (Store.kelvin c).
Definition with_kelvin (v : Z) (c : Store.HSBK) : Store.HSBK :=
Store.mkHSBK (Store.hue c) (Store.saturation c) (Store.brightness c) v.

(** The colour slider [slider] (1 hue, 2 saturation, 3 brightness,
    4 kelvin) moved by [step] (or [kelvinStep]) from colour [color]. *)
Definition adjusted (slider step kelvinStep : Z) (color : Store.HSBK) : Store.HSBK :=
if slider =? 1 then
  let hue := clamp 0 65535 (Store.hue color + step) in
  let hue := if 65535 <? hue then hue - 65535 else hue in
  let hue := if hue <? 0 then hue + 65535 else hue in
  with_hue hue color
else if slider =? 2 then
  with_saturation (clamp 0 65535 (Store.saturation color + step)) color
else if slider =? 3 then
  with_brightness (clamp 0 65535 (Store.brightness color + step)) color
else with_kelvin (clamp 1500 9000 (Store.kelvin color + kelvinStep)) color.

(** [adjustSlider(slider, step, kelvinStep)] *)
Definition adjustSlider (unicastThrows : string -> bool)
  (slider step kelvinStep : Z) (w : Store.World) : Store.World :=
match Store.selectedDevices (Store.store w) with
| [] => w
| firstSn :: _ =>
    if String.eqb firstSn EmptyString then w
    else
      match JsObject.get firstSn (Store.devices (Store.store w)) with
      | None => w
      | Some firstDevice =>
          if slider =? 0 then Store.togglePower unicastThrows w
          else if (1 <=? slider) && (slider <=? 4)
          then Store.setColor unicastThrows
                 (adjusted slider step kelvinStep (Store.color firstDevice)) 250 w
          else w
      end
end.

End App.

(** ** [src/components/ScenesPanel.tsx]: scenes *)

Module Scenes.

Record SceneDevice := mkSceneDevice
  { power : bool;
    color : Store.HSBK }.

Record Scene := mkScene
  { id : string;
    name : string;
    icon : string;
    devices : JsObject.t SceneDevice }.

(** The template literal [`scene-${Date.now()}`] *)
Definition sceneId (now : Z) : string :=
String.append "scene-" (NilZero.string_of_int (Z.to_int now)).

(** The default icon, a light bulb (U+1F4A1), as its UTF-8 bytes. *)
Definition defaultIcon : string :=
String (ascii_of_nat 240) (String (ascii_of_nat 159)
  (String (ascii_of_nat 146) (String (ascii_of_nat 161) EmptyString))).

(** [createSceneFromCurrentState(store, name, icon)] at time [now] *)
Definition createSceneFromCurrentState (now : Z) (s : Store.LifxStore)
  (name : string) (icon : option string) : Scene :=
mkScene (sceneId now) name
  (match icon with Some i => i | None => defaultIcon end)
  (Store.forEach (Store.selectedDevices s)
     (fun sn devices =>
        match JsObject.get sn (Store.devices s) with
        | Some device =>
            JsObject.put sn (mkSceneDevice (Store.power device) (Store.color device))
              devices
        | None => devices
        end)
     []).

(** [applyScene(store, scene)]: the second loop of the source only builds
    a local array, so the store changes in the first part alone. *)
Definition applyScene (scene : Scene) (s : Store.LifxStore) : Store.LifxStore :=
Store.forEach (JsObject.keys (devices scene))
  (fun sn acc =>
     match JsObject.get sn (Store.devices acc) with
     | Some _ => Store.toggleSelect sn acc
     | None => acc
     end)
  (Store.selectNone s).

End Scenes.

(** ** Vocabulary of the further properties *)

Module Invariants.
Import Store.

(** One record per device identity: the keys of the device dictionary
    are distinct and each record is stored under its own serial number. *)
Definition devicesWf (s : LifxStore) : Prop :=
NoDup (JsObject.keys (devices s))
/\ forall k d, JsObject.get k (devices s) = Some d -> serialNumber d = k.

(** The fields of a record that no selection or control operation
    writes. *)
Definition ident (d : DeviceState) : string * DeviceType :=
(serialNumber d, deviceType d).

(** How the device dictionary changes: a record is rewritten in place by
    a function that keeps its serial number and does not make its type
    unknown, or a record for a new key is appended. *)
Inductive evolves (o : JsObject.t DeviceState) : JsObject.t DeviceState -> Prop :=
| evolves_refl : evolves o o
| evolves_update (o' : JsObject.t DeviceState) (k : string)
    (f : DeviceState -> DeviceState) :
    evolves o o' ->
    (forall d, serialNumber (f d) = serialNumber d) ->
    (forall d, deviceType (f d) = deviceType d \/ deviceType (f d) <> unknown) ->
    evolves o (JsObject.update k f o')
| evolves_new (o' : JsObject.t DeviceState) (k : string) (v : DeviceState) :
    evolves o o' ->
    JsObject.get k o' = None ->
    serialNumber v = k ->
    evolves o (o' ++ [(k, v)]).

(** Every event of a sequence is enabled when its turn comes. *)
Fixpoint runnable (es : list Event) (w : World) : Prop :=
match es with
| [] => True
| e :: es' => enabled e w /\ runnable es' (exec e w)
end.

(** A device has a record. *)
Definition known (sn : string) (s : LifxStore) : bool :=
match JsObject.get sn (devices s) with
| Some _ => true
| None => false
end.

(** The selection list agrees with the selected flags. *)
Definition selectionInSync (s : LifxStore) : Prop :=
selectedDevices s
= List.filter (fun sn => dev_selected sn s) (JsObject.keys (devices s)).

End Invariants.

(** ** Vocabulary and instances for the beat *)

Module BeatRuns.
Import Effects Beat.

(** The engine with another palette and everything else the same. *)
Definition withColors (c : list Store.HSBK) (dj : DJ) : DJ :=
mkDJ
  (mkEngine (intervalId (engine dj)) (beatCount (engine dj))
     (lastBeatTime (engine dj)) (lastTapTime (engine dj))
     (mkDJConfig (bpm (config (engine dj))) (pattern (config (engine dj))) c
        (intensity (config (engine dj))) (subdivision (config (engine dj))))
     (configWrites (engine dj)) (timersArmed (engine dj)))
  (devices dj).

Definition withPattern (p : DJPattern) (dj : DJ) : DJ :=
mkDJ
  (mkEngine (intervalId (engine dj)) (beatCount (engine dj))
     (lastBeatTime (engine dj)) (lastTapTime (engine dj))
     (mkDJConfig (bpm (config (engine dj))) p (colors (config (engine dj)))
        (intensity (config (engine dj))) (subdivision (config (engine dj))))
     (configWrites (engine dj)) (timersArmed (engine dj)))
  (devices dj).

Section Numbers.
Variable float : Type.
Variable ofZ : Z -> float.
Variable ofQ : Q -> float.
Variable mul : float -> float -> float.
Variable div : float -> float -> float.
Variable round : float -> Z.

(** The state after [k] firings of the timer. *)
Definition beats (unicastThrows : string -> bool) (pick : nat -> nat)
  (k : nat) (dj : DJ) : DJ :=
Nat.iter k (fun d => fst (onBeat float ofZ ofQ mul div round unicastThrows pick d)) dj.

(** The frame of firing number [k], counted from 1. *)
Definition frameOfBeat (unicastThrows : string -> bool) (pick : nat -> nat)
  (k : nat) (dj : DJ) : Frame float :=
snd (onBeat float ofZ ofQ mul div round unicastThrows pick
       (beats unicastThrows pick (k - 1) dj)).

End Numbers.

(** An instance of the numbers, to run the beat: rationals, with
    [Math.round] as in the engine. *)
Definition runBeat (unicastThrows : string -> bool) (pick : nat -> nat)
  (dj : DJ) : DJ * Frame Q :=
onBeat Q inject_Z (fun q => q) Qmult Qdiv Math_round unicastThrows pick dj.

Definition trio : list Store.Device :=
[Examples.lamp; Examples.strip; Examples.porch].

(** The engine of the DJ screen, started on three devices at time 5000. *)
Definition started : DJ :=
start trio (Some (mkPartial None None (Some App.partyPalette) None None)) 5000
  (mkDJ initEngine []).

Definition stripRaises (sn : string) : bool := String.eqb sn "d073d5000002".

End BeatRuns.

(** ** Sessions of the DJ screen *)

Module Sessions.
Import Effects.

(** What happens to the engine while the DJ screen is open: a key is
    pressed at time [now] while the store is [s], or the timer fires. A
    timer that is not armed does not fire. *)
Inductive Step :=
| Pressed (key : App.DJKey) (now : Z) (s : Store.LifxStore)
| Fired (unicastThrows : string -> bool) (pick : nat -> nat).

Section Doubles.

(** The arithmetic of the intensity keys, as in [App]. *)
Variable addD : Q -> Q -> Q.
Variable subD : Q -> Q -> Q.
Variable tenth : Q.

Definition step (dj : Beat.DJ) (st : Step) : Beat.DJ :=
match st with
| Pressed key now s => App.handleDJModeKeys addD subD tenth key now s dj
| Fired unicastThrows pick =>
    if Beat.isRunning (Beat.engine dj)
    then fst (BeatRuns.runBeat unicastThrows pick dj)
    else dj
end.

Definition session (sts : list Step) (dj : Beat.DJ) : Beat.DJ :=
fold_left step sts dj.

End Doubles.

(** The double nearest to one tenth, [3602879701896397 / 2^55]. *)
Definition tenthD : Q := 3602879701896397 # 36028797018963968.

(** An instance of that arithmetic, to run a session: the exact sum and
    difference, which the double operations agree with wherever the exact
    result is a double. *)
Definition runSession (sts : list Step) (dj : Beat.DJ) : Beat.DJ :=
session Qplus Qminus tenthD sts dj.

(** The timer, when armed, has the period of the current configuration. *)
Definition timerInSync (e : Engine) : Prop :=
match intervalId e with
| Some t => timer_period t = getBeatInterval e
| None => True
end.

(** The engine as [createDJEngine] leaves it. *)
Definition fresh : Beat.DJ := Beat.mkDJ initEngine [].

(** Space with both example devices selected, a tap, a second tap 400 ms
    later, eleven times '+', a beat, and pattern key '2'. *)
Definition evening : list Step :=
[Pressed App.KSpace 5000 (Store.store Examples.bothSelected);
 Pressed App.KTap 6000 (Store.store Examples.bothSelected);
 Pressed App.KTap 6400 (Store.store Examples.bothSelected)]
++ repeat (Pressed App.KPlus 7000 (Store.store Examples.bothSelected)) 11
++ [Fired Examples.neverThrows (fun _ => 0%nat);
    Pressed (App.KDigit 2) 8000 (Store.store Examples.bothSelected)].

End Sessions.

(** ** A scene to apply *)

Module SceneRuns.

(** A scene that names the example strip and a device the store has
    never seen. *)
Definition movie : Scenes.Scene :=
Scenes.mkScene "scene-1700000000000" "Movie" Scenes.defaultIcon
  [("d073d5000002", Scenes.mkSceneDevice true (Store.mkHSBK 43690 65535 20000 3500));
   ("d073d5999999", Scenes.mkSceneDevice false (Store.mkHSBK 0 0 65535 2700))].

End SceneRuns.

(** * Properties *)

Import Store Vocabulary.

(** ** Dictionaries *)

Section JsObjectFacts.
Context {V : Type}.
Implicit Types (o : JsObject.t V) (k : string).

Lemma get_update k k' (f : V -> V) o :
  JsObject.get k (JsObject.update k' f o)
  = if String.eqb k k' then option_map f (JsObject.get k o) else JsObject.get k o.
Proof.
  induction o as [|[k0 v] o IH]; simpl.
  - by destruct (String.eqb k k').
  - destruct (String.eqb k0 k') eqn:E0; simpl;
      destruct (String.eqb k0 k) eqn:E1; simpl.
    + apply String.eqb_eq in E0, E1. subst. by rewrite String.eqb_refl.
    + exact IH.
    + apply String.eqb_eq in E1. subst. by rewrite E0.
    + exact IH.
Qed.

Lemma get_update_same k (f : V -> V) o :
  JsObject.get k (JsObject.update k f o) = option_map f (JsObject.get k o).
Proof. by rewrite get_update, String.eqb_refl. Qed.

Lemma get_app k o1 o2 :
  JsObject.get k (o1 ++ o2)
  = match JsObject.get k o1 with Some v => Some v | None => JsObject.get k o2 end.
Proof.
  induction o1 as [|[k0 v] o1 IH]; simpl; [done|].
  by destruct (String.eqb k0 k).
Qed.

Lemma get_put k k' (v : V) o :
  JsObject.get k (JsObject.put k' v o)
  = if String.eqb k k' then Some v else JsObject.get k o.
Proof.
  unfold JsObject.put. destruct (JsObject.get k' o) as [v0|] eqn:E.
  - rewrite get_update. destruct (String.eqb k k') eqn:Ek; [|done].
    apply String.eqb_eq in Ek. subst. by rewrite E.
  - rewrite get_app. simpl. rewrite (String.eqb_sym k' k).
    destruct (String.eqb k k') eqn:Ek.
    + apply String.eqb_eq in Ek. subst. by rewrite E.
    + by destruct (JsObject.get k o).
Qed.

Lemma keys_update k (f : V -> V) o :
  JsObject.keys (JsObject.update k f o) = JsObject.keys o.
Proof.
  unfold JsObject.keys, JsObject.update. rewrite map_map.
  apply map_ext. intros [k0 v]. simpl. by destruct (String.eqb k0 k).
Qed.

Lemma length_update k (f : V -> V) o :
  length (JsObject.update k f o) = length o.
Proof. unfold JsObject.update. by rewrite length_map. Qed.

End JsObjectFacts.

(** ** Single-record updates *)

Lemma get_setDevice (k sn : string) (f : DeviceState -> DeviceState) (s : LifxStore) :
  JsObject.get k (devices (setDevice sn f s))
  = if String.eqb k sn then option_map f (JsObject.get k (devices s))
    else JsObject.get k (devices s).
Proof. apply get_update. Qed.

Lemma get_setDevice_same (sn : string) (f : DeviceState -> DeviceState) (s : LifxStore) :
  JsObject.get sn (devices (setDevice sn f s))
  = option_map f (JsObject.get sn (devices s)).
Proof. apply get_update_same. Qed.

Lemma get_setDevice_other (k sn : string) (f : DeviceState -> DeviceState) (s : LifxStore) :
  k <> sn ->
  JsObject.get k (devices (setDevice sn f s)) = JsObject.get k (devices s).
Proof.
  intros Hk. rewrite get_setDevice.
  destruct (String.eqb k sn) eqn:E; [|done]. by apply String.eqb_eq in E.
Qed.

Lemma includes_In (sn : string) (l : list string) :
  includes sn l = true <-> In sn l.
Proof.
  unfold includes. rewrite existsb_exists. split.
  - intros (x & Hx & E). apply String.eqb_eq in E. by subst.
  - intros H. exists sn. split; [done|]. apply String.eqb_refl.
Qed.

Lemma includes_app (sn : string) (l1 l2 : list string) :
  includes sn (l1 ++ l2) = includes sn l1 || includes sn l2.
Proof. apply existsb_app. Qed.

(** ** The batch of a refresh *)

Lemma devices_applyGroup (sn : string) (g : StateGroup) (s : LifxStore) :
  devices (applyGroup sn (fulfilled g) s)
  = devices (setDevice sn (set_groupId (sg_group g))
               (setDevice sn (set_group (sg_label g)) s)).
Proof.
  unfold applyGroup. cbv zeta.
  destruct (JsObject.get _ _) as [g0|]; [|done].
  by destruct (includes sn (g_devices g0)).
Qed.

Lemma isMember_applyGroup (sn : string) (g : StateGroup) (s : LifxStore) :
  isMember sn (sg_group g) (applyGroup sn (fulfilled g) s) = true.
Proof.
  unfold applyGroup, isMember. cbv zeta.
  destruct (JsObject.get (sg_group g) (groups (setDevice _ _ _))) as [g0|] eqn:E.
  - destruct (includes sn (g_devices g0)) eqn:Ei.
    + by rewrite E.
    + simpl in *. rewrite get_update_same, E. simpl.
      rewrite includes_app. unfold includes at 2. simpl.
      by rewrite String.eqb_refl, orb_true_r.
  - simpl in *. rewrite get_put, String.eqb_refl. unfold includes. simpl.
    by rewrite String.eqb_refl.
Qed.

Lemma get_batchBody (sn : string) (r : Results) (now : Z) (s : LifxStore) :
  JsObject.get sn (devices (batchBody sn r now s))
  = option_map (batchRecord r now) (JsObject.get sn (devices s)).
Proof.
  unfold batchBody, batchRecord. cbv zeta.
  rewrite !get_setDevice_same.
  destruct r as [rc rl rg rv]; simpl.
  assert (Hg : JsObject.get sn (devices (applyGroup sn rg
             (applyLabel sn rl (applyColor sn rc (applyVersion sn rv s)))))
    = option_map (fun d => match rg with
                           | fulfilled g => set_groupId (sg_group g) (set_group (sg_label g) d)
                           | rejected => d end)
        (JsObject.get sn (devices (applyLabel sn rl (applyColor sn rc (applyVersion sn rv s)))))).
  { destruct rg as [g|]; [|by destruct (JsObject.get _ _)].
    rewrite devices_applyGroup, !get_setDevice_same.
    by destruct (JsObject.get _ _). }
  rewrite Hg. clear Hg.
  assert (Hl : JsObject.get sn (devices (applyLabel sn rl (applyColor sn rc (applyVersion sn rv s))))
    = option_map (fun d => match rl with
                           | fulfilled l => if String.eqb l EmptyString then d else set_label l d
                           | rejected => d end)
        (JsObject.get sn (devices (applyColor sn rc (applyVersion sn rv s))))).
  { destruct rl as [l|]; unfold applyLabel; cbv beta iota zeta;
      [|by destruct (JsObject.get _ _)].
    destruct (String.eqb l EmptyString); [by destruct (JsObject.get _ _)|].
    by rewrite get_setDevice_same. }
  rewrite Hl. clear Hl.
  assert (Hc : JsObject.get sn (devices (applyColor sn rc (applyVersion sn rv s)))
    = option_map (fun d => match rc with
                           | fulfilled c =>
                               let d' := set_color (mkHSBK (ls_hue c) (ls_saturation c)
                                                      (ls_brightness c) (ls_kelvin c)) d in
                               match ls_power c with
                               | Some p => set_power (0 <? p) d'
                               | None => d'
                               end
                           | rejected => d end)
        (JsObject.get sn (devices (applyVersion sn rv s)))).
  { destruct rc as [c|]; unfold applyColor; cbv beta iota zeta;
      [|by destruct (JsObject.get _ _)].
    destruct (ls_power c); rewrite !get_setDevice_same;
      by destruct (JsObject.get _ _). }
  rewrite Hc. clear Hc.
  assert (Hv : JsObject.get sn (devices (applyVersion sn rv s))
    = option_map (fun d => match rv with
                           | fulfilled v =>
                               set_deviceType (classify (sv_product v))
                                 (set_productId (match sv_product v with Some p => p | None => 0 end) d)
                           | rejected => d end)
        (JsObject.get sn (devices s))).
  { destruct rv as [v|]; unfold applyVersion, classify; cbv beta iota zeta;
      [|by destruct (JsObject.get _ _)].
    destruct (existsb _ _); rewrite !get_setDevice_same;
      by destruct (JsObject.get _ _). }
  rewrite Hv. clear Hv.
  by destruct (JsObject.get sn (devices s)).
Qed.

Lemma groups_batchBody (sn : string) (r : Results) (now : Z) (s : LifxStore) :
  groups (batchBody sn r now s)
  = groups (applyGroup sn (groupResult r)
              (applyLabel sn (labelResult r)
                 (applyColor sn (colorResult r)
                    (applyVersion sn (versionResult r) s)))).
Proof. reflexivity. Qed.

(** Whatever the four outcomes are, a resumed refresh of a registered
    device ends by marking it online and stamping it. *)
Lemma resume_marks_online (w : World) (sn : string) (d : DeviceState)
    (r : Results) (now : Z) :
  JsObject.get sn (devices (store w)) = Some d ->
  exists d',
    JsObject.get sn (devices (store (queryDeviceState_resume sn r now w))) = Some d'
    /\ online d' = true /\ lastSeen d' = now.
Proof.
  intros Hd. unfold queryDeviceState_resume. simpl. rewrite Hd.
  rewrite get_batchBody, Hd. simpl. eexists. split; [reflexivity|]. done.
Qed.

(** ** Refresh outcomes *)

(** C1. A refresh whose four sub-queries all fail should mark the device
    offline and leave [lastSeen] alone. Run on the code: the lamp is
    offline (an earlier [client.send] raised), a new refresh is started and
    all four of its promises are rejected; the continuation nevertheless
    sets [online] to [true] and [lastSeen] to the current time. *)
Theorem total_failure_marks_online :
  let sn := "d073d5000001" in
  let w0 := registerDevice Examples.lamp 1000 0 initWorld in
  let w1 := queryDeviceState Examples.lamp 4 w0 in
  let w2 := queryDeviceState_resume sn Examples.allRejected 5000 w1 in
  option_map online (JsObject.get sn (devices (store w1))) = Some false
  /\ option_map lastSeen (JsObject.get sn (devices (store w1))) = Some 1000
  /\ option_map online (JsObject.get sn (devices (store w2))) = Some true
  /\ option_map lastSeen (JsObject.get sn (devices (store w2))) = Some 5000.
Proof. vm_compute. done. Qed.



(** ** Re-registration *)

(** C9, as stated, fails: registering the lamp again (from a new address,
    at time 2000) while its record exists changes [lastSeen] from 1000 to
    2000. The second call's refresh is deduplicated, so the change is the
    upsert's. *)
Lemma registerDevice_changes_lastSeen :
  let sn := "d073d5000001" in
  let w := Examples.discovered in
  let w' := registerDevice Examples.lamp_moved 2000 4 w in
  option_map lastSeen (JsObject.get sn (devices (store w))) = Some 1000
  /\ option_map lastSeen (JsObject.get sn (devices (store w'))) = Some 2000
  /\ outbox w' = outbox w.
Proof. vm_compute. done. Qed.

(** C9, amended. For a device identity already in the store, the upsert of
    [registerDevice] replaces the device handle (the transport address)
    and refreshes [lastSeen]; label, group, groupId, power, color, online,
    selected, deviceType and productId of the record keep their values,
    every other record, the groups, the selection list and the scanning
    flag are untouched, and the key list is the same, so no record is
    created. When the refresh that [registerDevice] then starts does not
    raise, or is deduplicated, the store after [registerDevice] is the
    store after the upsert. *)
Theorem registerDevice_existing_frame (dev : Device) (now : Z)
    (s : LifxStore) (d : DeviceState) :
  JsObject.get (dev_serialNumber dev) (devices s) = Some d ->
  let sn := dev_serialNumber dev in
  let s' := upsertDevice dev now s in
  (exists d',
     JsObject.get sn (devices s') = Some d'
     /\ device d' = dev /\ lastSeen d' = now
     /\ serialNumber d' = serialNumber d
     /\ label d' = label d /\ group d' = group d /\ groupId d' = groupId d
     /\ power d' = power d /\ color d' = color d /\ online d' = online d
     /\ selected d' = selected d /\ deviceType d' = deviceType d
     /\ productId d' = productId d)
  /\ (forall k, k <> sn ->
        JsObject.get k (devices s') = JsObject.get k (devices s))
  /\ JsObject.keys (devices s') = JsObject.keys (devices s)
  /\ groups s' = groups s
  /\ selectedDevices s' = selectedDevices s
  /\ isScanning s' = isScanning s
  /\ (forall (w : World) (sendsOk : nat),
        store w = s ->
        (4 <= sendsOk)%nat \/ sn ∈ pendingQueries w ->
        store (registerDevice dev now sendsOk w) = s').
Proof.
  intros Hd sn s'. subst sn s'. unfold upsertDevice. cbv zeta. rewrite Hd.
  split; [|split; [|split; [|split; [|split; [|split]]]]]; try reflexivity.
  - rewrite !get_setDevice_same, Hd. simpl. eexists. split; [reflexivity|].
    repeat split.
  - intros k Hk. by rewrite !get_setDevice_other.
  - unfold setDevice, with_devices. simpl. by rewrite !keys_update.
  - intros w k Hs Hk. unfold registerDevice, queryDeviceState. cbv zeta.
    simpl pendingQueries.
    assert (Hu : store (with_store (upsertDevice dev now) w)
                 = setDevice (dev_serialNumber dev) (set_lastSeen now)
                     (setDevice (dev_serialNumber dev) (set_device dev) s)).
    { unfold with_store. simpl store. rewrite Hs. unfold upsertDevice.
      cbv zeta. by rewrite Hd. }
    destruct (bool_decide _) eqn:Hb; [exact Hu|].
    destruct Hk as [Hk|Hk].
    + apply Nat.leb_le in Hk. rewrite Hk. exact Hu.
    + apply bool_decide_eq_false in Hb. done.
Qed.

Lemma registerDevice_existing_frame_witness :
  JsObject.get "d073d5000001" (devices (store Examples.discovered))
  = Some (newDeviceState Examples.lamp 1000)
  /\ JsObject.get "d073d5000001"
       (devices (upsertDevice Examples.lamp_moved 2000 (store Examples.discovered)))
     = Some (set_lastSeen 2000
               (set_device Examples.lamp_moved (newDeviceState Examples.lamp 1000)))
  /\ JsObject.keys (devices (upsertDevice Examples.lamp_moved 2000 (store Examples.discovered)))
     = ["d073d5000001"].
Proof.
  split; [vm_compute; reflexivity|].
  pose proof (registerDevice_existing_frame Examples.lamp_moved 2000
                (store Examples.discovered) (newDeviceState Examples.lamp 1000)) as H.
  split; [vm_compute; reflexivity|].
  destruct H as (_ & _ & Hk & _); [vm_compute; reflexivity|].
  rewrite Hk. vm_compute; reflexivity.
Defined.

(** ** The transport: draining before close *)

Section TransportFacts.
Import Client.

(** While the transport is open the counter is the number of datagrams
    still queued in the socket. *)
Lemma running_counter (t : Transport) :
  running t ->
  sendCounter t = Z.of_nat (sock_queued (socket t))
  /\ socketShouldClose t = false
  /\ sock_closed (socket t) = false.
Proof.
  induction 1 as [|t Hr (Hc & Hs & Hk)|t Hr (Hc & Hs & Hk) Hen]; simpl in *.
  - done.
  - rewrite Hc. split; [lia|done].
  - unfold sendCompleted, socketCallback. simpl. rewrite Hs. simpl.
    rewrite Hc. split; [lia|done].
Qed.

(** [close()] decrements the counter itself, so it calls [socket.close()]
    at once exactly when at most one datagram is queued. *)
Lemma close_closes_iff (t : Transport) :
  running t ->
  sock_closed (socket (close t)) = true <-> (sock_queued (socket t) <= 1)%nat.
Proof.
  intros (Hc & Hs & Hk)%running_counter.
  unfold close, socketCallback. simpl.
  destruct (sendCounter t - 1 <=? 0) eqn:E; simpl.
  - apply Z.leb_le in E. split; [lia|done].
  - apply Z.leb_gt in E. rewrite Hk. split; [done|lia].
Qed.

Lemma socketCallback_fields (u : Transport) :
  sendCounter (socketCallback u) = sendCounter u - 1
  /\ socketShouldClose (socketCallback u) = socketShouldClose u
  /\ sock_queued (socket (socketCallback u)) = sock_queued (socket u)
  /\ sock_closed (socket (socketCallback u))
     = sock_closed (socket u) || (socketShouldClose u && (sendCounter u - 1 <=? 0)).
Proof.
  unfold socketCallback.
  destruct (socketShouldClose u && (sendCounter u - 1 <=? 0)); simpl.
  - by rewrite orb_true_r.
  - by rewrite orb_false_r.
Qed.

Lemma sendCompleted_fields (u : Transport) :
  sendCounter (sendCompleted u) = sendCounter u - 1
  /\ socketShouldClose (sendCompleted u) = socketShouldClose u
  /\ sock_queued (socket (sendCompleted u)) = Nat.pred (sock_queued (socket u))
  /\ sock_closed (socket (sendCompleted u))
     = sock_closed (socket u) || (socketShouldClose u && (sendCounter u - 1 <=? 0)).
Proof.
  unfold sendCompleted.
  exact (socketCallback_fields
           (mkTransport (sendCounter u) (socketShouldClose u) (scanInterval u)
              (socket_done (socket u)))).
Qed.

Lemma close_fields (u : Transport) :
  sendCounter (close u) = sendCounter u - 1
  /\ socketShouldClose (close u) = true
  /\ sock_queued (socket (close u)) = sock_queued (socket u)
  /\ sock_closed (socket (close u))
     = sock_closed (socket u) || (sendCounter u - 1 <=? 0).
Proof.
  unfold close.
  exact (socketCallback_fields
           (mkTransport (sendCounter u) true false (socket u))).
Qed.

(** After [close()], each completion decrements again: with [n + 1]
    datagrams queued at [close()], the socket is still open after fewer
    than [n] completions and is closed by the [n]-th, one datagram short. *)
Lemma close_then_completions (t : Transport) (n : nat) :
  running t ->
  sock_queued (socket t) = S n ->
  (forall m, (m < n)%nat ->
     sock_closed (socket (Nat.iter m sendCompleted (close t))) = false)
  /\ sock_closed (socket (Nat.iter n sendCompleted (close t))) = true
  /\ sock_queued (socket (Nat.iter n sendCompleted (close t))) = 1%nat.
Proof.
  intros (Hc & Hs & Hk)%running_counter Hq.
  assert (Hi : forall m, (m <= n)%nat ->
            sendCounter (Nat.iter m sendCompleted (close t)) = Z.of_nat (n - m)
            /\ socketShouldClose (Nat.iter m sendCompleted (close t)) = true
            /\ sock_queued (socket (Nat.iter m sendCompleted (close t))) = (S n - m)%nat
            /\ sock_closed (socket (Nat.iter m sendCompleted (close t)))
               = bool_decide (m = n)).
  { induction m as [|m IH]; intros Hm.
    - change (Nat.iter 0 sendCompleted (close t)) with (close t).
      destruct (close_fields t) as (-> & -> & -> & ->).
      rewrite Hc, Hq, Hk. simpl orb. repeat split; try lia.
      destruct (Z.leb_spec (Z.of_nat (S n) - 1) 0); symmetry.
      + apply bool_decide_eq_true. lia.
      + apply bool_decide_eq_false. lia.
    - destruct IH as (Ic & Is & Iq & Ik); [lia|].
      change (Nat.iter (S m) sendCompleted (close t))
        with (sendCompleted (Nat.iter m sendCompleted (close t))).
      destruct (sendCompleted_fields (Nat.iter m sendCompleted (close t)))
        as (-> & -> & -> & ->).
      rewrite Ic, Is, Iq, Ik. rewrite bool_decide_eq_false_2 by lia.
      simpl. repeat split; try lia.
      destruct (Z.leb_spec (Z.of_nat (n - m) - 1) 0); symmetry.
      + apply bool_decide_eq_true. lia.
      + apply bool_decide_eq_false. lia. }
  split; [|split].
  - intros m Hm. destruct (Hi m) as (_ & _ & _ & ->); [lia|].
    apply bool_decide_eq_false. lia.
  - destruct (Hi n) as (_ & _ & _ & ->); [lia|]. by apply bool_decide_eq_true.
  - destruct (Hi n) as (_ & _ & -> & _); [lia|]. lia.
Qed.

(** C2. With a send pending, [close()] should leave the socket open until
    the send's completion callback has run. Run on the code: one datagram
    is handed to the socket, then [close()] is called; [socket.close()] has
    been called while that datagram is still queued. *)
Theorem close_with_one_pending_send :
  let t := close (onSend init) in
  sock_queued (socket (onSend init)) = 1%nat
  /\ sock_closed (socket t) = true
  /\ sock_queued (socket t) = 1%nat.
Proof. vm_compute. done. Qed.

End TransportFacts.

(** ** Tap tempo *)

Section TapTempoFacts.
Import Effects.

Lemma lastTapTime_tapTempo (now : Z) (e : Engine) :
  lastTapTime (tapTempo now e) = now.
Proof. reflexivity. Qed.

Lemma bpm_updateConfig (v : Z) (e : Engine) :
  bpm (config (updateConfig (mkPartial (Some v) None None None None) e)) = v
  /\ configWrites (updateConfig (mkPartial (Some v) None None None None) e)
     = S (configWrites e).
Proof.
  unfold updateConfig, setConfig. cbv zeta. simpl intervalId.
  destruct (intervalId e); split; reflexivity.
Qed.

(** The second of two taps, [t] ms after a first one at [t0]. *)
Lemma tapTempo_second (e : Engine) (t0 t : Z) :
  0 < t0 ->
  tapTempo (t0 + t) (tapTempo t0 e)
  = set_lastTapTime (t0 + t)
      (if (200 <? t) && (t <? 2000)
       then updateConfig
              (mkPartial (Some (Math_round (60000 / inject_Z t)%Q)) None None None None)
              (tapTempo t0 e)
       else tapTempo t0 e).
Proof.
  intros H0. unfold tapTempo at 1. cbv zeta.
  rewrite lastTapTime_tapTempo.
  replace (t0 + t - t0) with t by lia.
  apply Z.ltb_lt in H0. by rewrite H0.
Qed.

(** C8. Two consecutive taps, the first at time [t0] and the second [t]
    milliseconds later: the second tap writes the configuration exactly
    when [200 < t < 2000], and then the tempo is [round(60000 / t)];
    otherwise the configuration and the timer are as the first tap left
    them. In both cases the tap time becomes that of the second tap. At
    [t = 1000] the tempo is 60; at [t = 2001] and at [t = 199] it is
    unchanged. [t0] is a value of [Date.now()], a positive number. *)
Theorem tapTempo_window (e : Engine) (t0 t : Z) :
  0 < t0 ->
  let e1 := tapTempo t0 e in
  let e2 := tapTempo (t0 + t) e1 in
  (200 < t < 2000 ->
     bpm (config e2) = Math_round (60000 / inject_Z t)%Q
     /\ configWrites e2 = S (configWrites e1))
  /\ (~ 200 < t < 2000 ->
        config e2 = config e1
        /\ configWrites e2 = configWrites e1
        /\ intervalId e2 = intervalId e1)
  /\ (configWrites e2 <> configWrites e1 <-> 200 < t < 2000)
  /\ lastTapTime e2 = t0 + t
  /\ (t = 1000 -> bpm (config e2) = 60)
  /\ (t = 2001 \/ t = 199 -> bpm (config e2) = bpm (config e1)).
Proof.
  intros H0 e1 e2. subst e2 e1. rewrite (tapTempo_second e t0 t H0).
  set (e1 := tapTempo t0 e).
  assert (Hin : 200 < t < 2000 -> (200 <? t) && (t <? 2000) = true).
  { intros [? ?]. apply andb_true_intro.
    split; by apply Z.ltb_lt. }
  assert (Hout : ~ 200 < t < 2000 -> (200 <? t) && (t <? 2000) = false).
  { intros Hn. apply andb_false_iff.
    destruct (Z.ltb_spec 200 t); [|by left].
    destruct (Z.ltb_spec t 2000); [lia|by right]. }
  split; [|split; [|split; [|split; [|split]]]].
  - intros Ht. rewrite (Hin Ht).
    exact (bpm_updateConfig (Math_round (60000 / inject_Z t)%Q) e1).
  - intros Ht. by rewrite (Hout Ht).
  - split.
    + intros Hw. destruct (decide (200 < t < 2000)) as [|Hn]; [done|].
      rewrite (Hout Hn) in Hw. done.
    + intros Ht. rewrite (Hin Ht).
      destruct (bpm_updateConfig (Math_round (60000 / inject_Z t)%Q) e1) as [_ Hw].
      change (configWrites
                (updateConfig
                   (mkPartial (Some (Math_round (60000 / inject_Z t)%Q))
                      None None None None) e1)
              <> configWrites e1).
      rewrite Hw. lia.
  - reflexivity.
  - intros ->. rewrite Hin by lia.
    exact (proj1 (bpm_updateConfig 60 e1)).
  - intros [-> | ->]; rewrite Hout by lia; reflexivity.
Qed.

Lemma tapTempo_window_witness :
  0 < 1700000000000
  /\ bpm (config (tapTempo (1700000000000 + 1000)
                    (tapTempo 1700000000000 initEngine))) = 60
  /\ bpm (config (tapTempo (1700000000000 + 2001)
                    (tapTempo 1700000000000 initEngine))) = 120
  /\ bpm (config (tapTempo (1700000000000 + 199)
                    (tapTempo 1700000000000 initEngine))) = 120
  /\ bpm (config (tapTempo (1700000000000 + 700)
                    (tapTempo 1700000000000 initEngine))) = 86.
Proof.
  split; [lia|].
  destruct (tapTempo_window initEngine 1700000000000 1000) as (_ & _ & _ & _ & H1 & _);
    [lia|].
  destruct (tapTempo_window initEngine 1700000000000 2001) as (_ & _ & _ & _ & _ & H2);
    [lia|].
  destruct (tapTempo_window initEngine 1700000000000 199) as (_ & _ & _ & _ & _ & H3);
    [lia|].
  destruct (tapTempo_window initEngine 1700000000000 700) as (H4 & _); [lia|].
  split; [exact (H1 eq_refl)|].
  split; [exact (H2 (or_introl eq_refl))|].
  split; [exact (H3 (or_intror eq_refl))|].
  destruct H4 as [H4 _]; [lia|]. exact H4.
Defined.

End TapTempoFacts.

(** ** What each operation leaves alone *)

Lemma forEach_ind {A S : Type} (P : S -> Prop) (f : A -> S -> S)
    (l : list A) (s : S) :
  P s -> (forall x acc, P acc -> P (f x acc)) -> P (forEach l f s).
Proof.
  intros Hs Hf. revert s Hs. unfold forEach.
  induction l as [|x l IH]; simpl; auto.
Qed.

Lemma setColor_frame (t : string -> bool) (hsbk : HSBK) (d : Z) (w : World) :
  sameQueries w (setColor t hsbk d w)
  /\ groups (store (setColor t hsbk d w)) = groups (store w).
Proof.
  unfold setColor. cbv zeta. destruct (_ =? _)%nat; [done|].
  apply (forEach_ind (fun acc => sameQueries w acc
                                 /\ groups (store acc) = groups (store w))); [done|].
  intros x acc [[Hp Ha] Hg].
  destruct (JsObject.get x _) as [ds|]; [|done].
  destruct (online ds); [|done]. destruct (t x); done.
Qed.

Lemma setPower_frame (t : string -> bool) (on : bool) (d : Z) (w : World) :
  sameQueries w (setPower t on d w)
  /\ groups (store (setPower t on d w)) = groups (store w).
Proof.
  unfold setPower. cbv zeta. destruct (_ =? _)%nat; [done|].
  apply (forEach_ind (fun acc => sameQueries w acc
                                 /\ groups (store acc) = groups (store w))); [done|].
  intros x acc [[Hp Ha] Hg].
  destruct (JsObject.get x _) as [ds|]; [|done].
  destruct (online ds); [|done]. destruct (t x); done.
Qed.

Lemma togglePower_frame (t : string -> bool) (w : World) :
  sameQueries w (togglePower t w)
  /\ groups (store (togglePower t w)) = groups (store w).
Proof.
  unfold togglePower. cbv zeta. destruct (_ =? _)%nat; [done|].
  apply setPower_frame.
Qed.

Lemma groups_toggleSelect (sn : string) (s : LifxStore) :
  groups (toggleSelect sn s) = groups s.
Proof. unfold toggleSelect. by destruct (JsObject.get sn _). Qed.

Lemma groups_selectNone (s : LifxStore) : groups (selectNone s) = groups s.
Proof.
  unfold selectNone, updateSelectedList. simpl.
  by apply (forEach_ind (fun acc => groups acc = groups s)).
Qed.

Lemma groups_selectAll (s : LifxStore) : groups (selectAll s) = groups s.
Proof.
  unfold selectAll, updateSelectedList. simpl.
  apply (forEach_ind (fun acc => groups acc = groups s)); [done|].
  intros x acc H. by destruct (dev_online x acc).
Qed.

Lemma groups_selectDevice (sn : string) (s : LifxStore) :
  groups (selectDevice sn s) = groups s.
Proof.
  unfold selectDevice. cbv zeta.
  assert (H : groups (forEach (JsObject.keys (devices s))
                        (fun k => setDevice k (set_selected false)) s) = groups s).
  { by apply (forEach_ind (fun acc => groups acc = groups s)). }
  by destruct (JsObject.get sn _).
Qed.

Lemma groups_selectGroup (groupId : string) (s : LifxStore) :
  groups (selectGroup groupId s) = groups s.
Proof.
  unfold selectGroup. destruct (JsObject.get groupId _) as [g|]; [|done].
  unfold updateSelectedList. simpl.
  apply (forEach_ind (fun acc => groups acc = groups s)); [done|].
  intros x acc H. by destruct (dev_online x acc).
Qed.

(** Only the refresh and [toggleGroup] write [store.groups]. *)
Lemma exec_groups (e : Event) (w : World) :
  match e with
  | EResume _ _ _ | EToggleGroup _ => True
  | ERegisterDevice _ _ _ | EQueryDeviceState _ _ | EToggleSelect _
  | ESelectDevice _ | ESelectAll | ESelectNone | ESelectGroup _
  | ESetColor _ _ _ | ESetPower _ _ _ | ETogglePower _
  | ERefreshAllBegin | ERefreshAllEnd =>
      groups (store (exec e w)) = groups (store w)
  end.
Proof.
  destruct e; simpl; try done.
  - unfold registerDevice, queryDeviceState. cbv zeta.
    assert (H : groups (store (with_store (upsertDevice dev now) w)) = groups (store w)).
    { unfold upsertDevice. simpl. by destruct (JsObject.get _ _). }
    destruct (bool_decide _); [done|]. by destruct (4 <=? sendsOk)%nat.
  - unfold queryDeviceState. cbv zeta.
    destruct (bool_decide _); [done|]. by destruct (4 <=? sendsOk)%nat.
  - apply groups_toggleSelect.
  - apply groups_selectDevice.
  - apply groups_selectAll.
  - apply groups_selectNone.
  - apply groups_selectGroup.
  - apply setColor_frame.
  - apply setPower_frame.
  - apply togglePower_frame.
Qed.

(** Only [queryDeviceState] and its continuation write the pending set
    and suspend or resume a continuation. *)
Lemma exec_sameQueries (e : Event) (w : World) :
  match e with
  | ERegisterDevice _ _ _ | EQueryDeviceState _ _ | EResume _ _ _ => True
  | EToggleSelect _ | ESelectDevice _ | ESelectAll | ESelectNone
  | ESelectGroup _ | EToggleGroup _ | ESetColor _ _ _ | ESetPower _ _ _
  | ETogglePower _ | ERefreshAllBegin | ERefreshAllEnd =>
      sameQueries w (exec e w)
  end.
Proof.
  destruct e; simpl; try done.
  - apply setColor_frame.
  - apply setPower_frame.
  - apply togglePower_frame.
Qed.

(** ** Group membership only grows *)

Lemma isMember_applyGroup_mono (sn sn' gid : string) (r : Settled StateGroup)
    (s : LifxStore) :
  isMember sn gid s = true -> isMember sn gid (applyGroup sn' r s) = true.
Proof.
  unfold isMember, applyGroup. destruct r as [g|]; [|done]. cbv zeta.
  change (groups (setDevice sn' (set_groupId (sg_group g))
                    (setDevice sn' (set_group (sg_label g)) s))) with (groups s).
  destruct (JsObject.get gid (groups s)) as [g1|] eqn:E1; [|done]. intros Hin.
  destruct (JsObject.get (sg_group g) (groups s)) as [g0|] eqn:E0.
  - destruct (includes sn' (g_devices g0)).
    + simpl. by rewrite E1.
    + simpl. rewrite get_update, E1. destruct (String.eqb gid (sg_group g)); [|done].
      simpl. by rewrite includes_app, Hin.
  - simpl. rewrite get_put. destruct (String.eqb gid (sg_group g)) eqn:Eg.
    + apply String.eqb_eq in Eg. subst. by rewrite E1 in E0.
    + by rewrite E1.
Qed.

Lemma isMember_batchBody_mono (sn sn' gid : string) (r : Results) (now : Z)
    (s : LifxStore) :
  isMember sn gid s = true -> isMember sn gid (batchBody sn' r now s) = true.
Proof.
  intros H. unfold isMember. rewrite groups_batchBody.
  apply (isMember_applyGroup_mono sn sn' gid (groupResult r)).
  unfold isMember.
  assert (Hg : groups (applyLabel sn' (labelResult r)
                 (applyColor sn' (colorResult r)
                    (applyVersion sn' (versionResult r) s))) = groups s).
  { destruct r as [rc rl rg rv]. simpl.
    unfold applyLabel, applyColor, applyVersion.
    destruct rl as [l|]; [destruct (String.eqb l EmptyString)|];
      (destruct rc as [c|]; [destruct (ls_power c)|]);
      (destruct rv as [v|]; [destruct (existsb _ _)|]); reflexivity. }
  by rewrite Hg.
Qed.

Lemma exec_isMember_mono (e : Event) (w : World) (sn gid : string) :
  isMember sn gid (store w) = true -> isMember sn gid (store (exec e w)) = true.
Proof.
  intros H. pose proof (exec_groups e w) as Hg.
  destruct e; try (unfold isMember in *; by rewrite Hg).
  - simpl. destruct (JsObject.get sn0 _); [|done].
    by apply isMember_batchBody_mono.
  - simpl. unfold toggleGroup, isMember in *.
    destruct (JsObject.get groupId0 _) as [g0|] eqn:E0; [|done]. simpl.
    rewrite get_update. destruct (String.eqb gid groupId0); [|done].
    by destruct (JsObject.get gid _).
Qed.

Lemma run_isMember_mono (es : list Event) (w : World) (sn gid : string) :
  isMember sn gid (store w) = true -> isMember sn gid (store (run es w)) = true.
Proof.
  revert w. unfold run. induction es as [|e es IH]; simpl; [done|].
  intros w H. apply IH. by apply exec_isMember_mono.
Qed.

(** C10. Once [sn] is in the member list of group [gid] it stays there
    through every sequence of store operations. In particular, when a
    later group reply for [sn] names another group, [sn] is a member of
    the new group and still a member of [gid]. *)
Theorem group_membership_append_only (w : World) (sn gid : string) :
  isMember sn gid (store w) = true ->
  (forall es : list Event, isMember sn gid (store (run es w)) = true)
  /\ (forall (d : DeviceState) (r : Results) (g : StateGroup) (now : Z),
        JsObject.get sn (devices (store w)) = Some d ->
        groupResult r = fulfilled g ->
        sg_group g <> gid ->
        let w' := queryDeviceState_resume sn r now w in
        isMember sn gid (store w') = true
        /\ isMember sn (sg_group g) (store w') = true).
Proof.
  intros H. split.
  - intros es. by apply run_isMember_mono.
  - intros d r g now Hd Hr Hne w'. split.
    + apply (exec_isMember_mono (EResume sn r now) w sn gid H).
    + subst w'. unfold queryDeviceState_resume. simpl store. rewrite Hd.
      unfold isMember. rewrite groups_batchBody, Hr.
      apply isMember_applyGroup.
Qed.

Lemma group_membership_append_only_witness :
  isMember "d073d5000001" "a1b2c3d4" (store Examples.inLivingRoom) = true
  /\ isMember "d073d5000001" "a1b2c3d4"
       (store (run Examples.regroup Examples.inLivingRoom)) = true
  /\ isMember "d073d5000001" "e5f6a7b8"
       (store (run Examples.regroup Examples.inLivingRoom)) = true.
Proof.
  split; [vm_compute; reflexivity|].
  split.
  - apply (group_membership_append_only Examples.inLivingRoom
             "d073d5000001" "a1b2c3d4").
    vm_compute; reflexivity.
  - vm_compute; reflexivity.
Defined.

(** ** Refresh deduplication *)

Lemma remove_first_elem (sn x : string) (l : list string) :
  NoDup l -> x ∈ remove_first sn l <-> x ∈ l /\ x <> sn.
Proof.
  induction 1 as [|y l Hy Hl IH]; simpl.
  - split; [by intros ?%elem_of_nil|by intros [?%elem_of_nil _]].
  - destruct (String.eqb y sn) eqn:E.
    + apply String.eqb_eq in E. subst y. rewrite elem_of_cons.
      split; [intros Hx; split; [by right|by intros ->]|by intros [[->|Hx] Hn]].
    + apply String.eqb_neq in E. rewrite !elem_of_cons, IH.
      split; [intros [->|[Hx Hn]]; split; auto|intros [[->|Hx] Hn]; auto].
Qed.

Lemma remove_first_NoDup (sn : string) (l : list string) :
  NoDup l -> NoDup (remove_first sn l).
Proof.
  induction 1 as [|y l Hy Hl IH]; simpl; [constructor|].
  destruct (String.eqb y sn); [done|].
  constructor; [|done].
  intros Hin. apply remove_first_elem in Hin; [|done]. by destruct Hin.
Qed.

Lemma dedupInv_queryDeviceState (dev : Device) (k : nat) (w : World) :
  dedupInv w -> dedupInv (queryDeviceState dev k w).
Proof.
  intros [Hnd Hiff]. unfold queryDeviceState. cbv zeta.
  destruct (bool_decide _) eqn:Hb; [done|].
  apply bool_decide_eq_false in Hb.
  destruct (4 <=? k)%nat; split; simpl.
  - apply NoDup_app. split; [done|]. split; [|apply NoDup_singleton].
    intros x Hx ->%list_elem_of_singleton. by apply Hb, Hiff.
  - intros sn. rewrite elem_of_app, list_elem_of_singleton, Hiff. set_solver.
  - done.
  - intros sn. rewrite Hiff. set_solver.
Qed.

Lemma dedupInv_resume (sn : string) (r : Results) (now : Z) (w : World) :
  dedupInv w -> dedupInv (queryDeviceState_resume sn r now w).
Proof.
  intros [Hnd Hiff]. split; simpl.
  - by apply remove_first_NoDup.
  - intros x. rewrite remove_first_elem, Hiff by done. set_solver.
Qed.

Lemma dedupInv_same (w w' : World) :
  sameQueries w w' -> dedupInv w -> dedupInv w'.
Proof. intros [Hp Ha] [Hnd Hiff]. unfold dedupInv. by rewrite Hp, Ha. Qed.

Lemma reachable_dedupInv (w : World) : reachable w -> dedupInv w.
Proof.
  induction 1 as [|w e Hr IH Hen].
  - split; [constructor|]. intros sn. simpl. set_solver.
  - pose proof (exec_sameQueries e w) as Hs.
    destruct e; try (by apply (dedupInv_same w)); simpl.
    + apply dedupInv_queryDeviceState. by apply (dedupInv_same w).
    + by apply dedupInv_queryDeviceState.
    + by apply dedupInv_resume.
Qed.

(** A call for a device whose refresh is pending returns the world as it
    found it. *)
Lemma queryDeviceState_pending (dev : Device) (k : nat) (w : World) :
  dev_serialNumber dev ∈ pendingQueries w -> queryDeviceState dev k w = w.
Proof.
  intros H. unfold queryDeviceState. cbv zeta.
  by rewrite bool_decide_eq_true_2.
Qed.

Lemma run_pending_calls (dev : Device) (ks : list nat) (w : World) :
  dev_serialNumber dev ∈ pendingQueries w ->
  run (map (EQueryDeviceState dev) ks) w = w.
Proof.
  intros H. unfold run. induction ks as [|k ks IH]; simpl; [done|].
  by rewrite queryDeviceState_pending.
Qed.

(** C3. In every reachable state at most one refresh of a device is
    suspended, and the pending set names exactly the devices with a
    suspended refresh. A call of [queryDeviceState] for a device whose
    refresh is in flight changes nothing: no message is sent, the store is
    not written. So [N] calls for one idle device, the first followed by
    [N - 1] more before it is resumed, leave the world as the first call
    alone does: one suspended refresh, the four sub-queries sent once. *)
Theorem refresh_dedup (w : World) :
  reachable w ->
  (NoDup (awaiting w)
   /\ forall sn : string, sn ∈ awaiting w <-> sn ∈ pendingQueries w)
  /\ (forall (dev : Device) (k : nat),
        dev_serialNumber dev ∈ awaiting w -> queryDeviceState dev k w = w)
  /\ (forall (dev : Device) (ks : list nat),
        dev_serialNumber dev ∉ awaiting w ->
        let sn := dev_serialNumber dev in
        let w1 := queryDeviceState dev 4 w in
        run (map (EQueryDeviceState dev) ks) w1 = w1
        /\ store w1 = store w
        /\ awaiting w1 = awaiting w ++ [sn]
        /\ outbox w1 = outbox w ++ map (fun c => (c, sn)) subQueries
        /\ NoDup (awaiting w1)).
Proof.
  intros Hr. pose proof (reachable_dedupInv w Hr) as [Hnd Hiff].
  split; [done|]. split.
  - intros dev k Hin. apply queryDeviceState_pending. by apply Hiff.
  - intros dev ks Hin sn w1.
    assert (Hw1 : w1 = mkWorld (store w) ({[sn]} ∪ pendingQueries w)
                         (awaiting w ++ [sn])
                         (outbox w ++ map (fun c => (c, sn)) subQueries)).
    { subst w1. unfold queryDeviceState. cbv zeta.
      rewrite bool_decide_eq_false_2; [done|]. intros Hp. by apply Hin, Hiff. }
    split; [|rewrite Hw1; simpl; repeat split].
    + apply run_pending_calls. rewrite Hw1. simpl. set_solver.
    + apply NoDup_app. split; [done|]. split; [|apply NoDup_singleton].
      intros x Hx ->%list_elem_of_singleton. done.
Qed.

Lemma reachable_discovered : reachable Examples.discovered.
Proof.
  exact (reachable_step initWorld (ERegisterDevice Examples.lamp 1000 4)
           reachable_init I).
Qed.

Lemma refresh_dedup_witness :
  reachable Examples.discovered
  /\ awaiting Examples.discovered = ["d073d5000001"]
  /\ queryDeviceState Examples.lamp 4 Examples.discovered = Examples.discovered
  /\ run (map (EQueryDeviceState Examples.strip) [4; 4; 0]%nat)
       (queryDeviceState Examples.strip 4 Examples.discovered)
     = queryDeviceState Examples.strip 4 Examples.discovered.
Proof.
  split; [exact reachable_discovered|].
  split; [vm_compute; reflexivity|].
  destruct (refresh_dedup Examples.discovered reachable_discovered)
    as (_ & Hnoop & Hfirst).
  split.
  - apply Hnoop. vm_compute. apply list_elem_of_here.
  - apply (Hfirst Examples.strip [4; 4; 0]%nat).
    vm_compute. intros H. apply list_elem_of_singleton in H. discriminate H.
Defined.

(** ** Group selection *)

Lemma set_selected_idem (b b' : bool) (d : DeviceState) :
  set_selected b (set_selected b' d) = set_selected b d.
Proof. reflexivity. Qed.

Lemma set_selected_same (d : DeviceState) : set_selected (selected d) d = d.
Proof. by destruct d. Qed.

Lemma includes_cons (k x : string) (l : list string) :
  includes k (x :: l) = String.eqb k x || includes k l.
Proof. reflexivity. Qed.

(** The loop of [selectGroup], record by record. *)
Lemma get_forEach_select (b : bool) (l : list string) (s : LifxStore) (k : string) :
  JsObject.get k
    (devices
       (forEach l
          (fun sn acc =>
             if dev_online sn acc then setDevice sn (set_selected b) acc else acc)
          s))
  = option_map
      (fun d => if includes k l && online d then set_selected b d else d)
      (JsObject.get k (devices s)).
Proof.
  revert s. induction l as [|x l IH]; intros s.
  - simpl. by destruct (JsObject.get k (devices s)).
  - change (forEach (x :: l) ?f s) with (forEach l f (f x s)).
    rewrite IH, includes_cons. unfold dev_online.
    destruct (String.eqb k x) eqn:E.
    + apply String.eqb_eq in E. subst x.
      destruct (JsObject.get k (devices s)) as [d|] eqn:Ed; [|by rewrite Ed].
      destruct (online d) eqn:Eo.
      * rewrite get_setDevice_same, Ed. simpl. rewrite Eo.
        by destruct (includes k l).
      * rewrite Ed. simpl. by rewrite Eo, andb_false_r.
    + assert (Hk : k <> x) by by apply String.eqb_neq.
      destruct (JsObject.get x (devices s)) as [dx|]; [|done].
      destruct (online dx); [|done]. by rewrite get_setDevice_other.
Qed.

Lemma get_selectGroup (gid : string) (g : GroupState) (s : LifxStore) (k : string) :
  JsObject.get gid (groups s) = Some g ->
  JsObject.get k (devices (selectGroup gid s))
  = option_map
      (fun d =>
         if includes k (g_devices g) && online d
         then set_selected (negb (forallb (fun sn => dev_selected sn s) (g_devices g))) d
         else d)
      (JsObject.get k (devices s)).
Proof.
  intros Hg. unfold selectGroup. rewrite Hg. cbv zeta.
  unfold updateSelectedList. simpl devices. apply get_forEach_select.
Qed.

Lemma forallb_const (b : bool) {A : Type} (f : A -> bool) (l : list A) :
  l <> [] -> (forall x, In x l -> f x = b) -> forallb f l = b.
Proof.
  intros Hl Hf. destruct b.
  - apply forallb_forall. auto.
  - destruct l as [|x l]; [done|]. simpl. rewrite (Hf x); [done|by left].
Qed.

(** Two calls on a group whose members are all online: every member ends
    with the flag "all members were selected" of the start, every other
    record is as it was. *)
Lemma get_selectGroup_twice (gid : string) (g : GroupState) (s : LifxStore)
    (k : string) :
  JsObject.get gid (groups s) = Some g ->
  (forall sn, In sn (g_devices g) -> dev_online sn s = true) ->
  JsObject.get k (devices (selectGroup gid (selectGroup gid s)))
  = option_map
      (fun d =>
         if includes k (g_devices g)
         then set_selected (forallb (fun sn => dev_selected sn s) (g_devices g)) d
         else d)
      (JsObject.get k (devices s)).
Proof.
  intros Hg Hon.
  set (all1 := forallb (fun sn => dev_selected sn s) (g_devices g)).
  assert (Hg1 : JsObject.get gid (groups (selectGroup gid s)) = Some g)
    by by rewrite groups_selectGroup.
  rewrite (get_selectGroup gid g _ k Hg1), (get_selectGroup gid g s k Hg).
  fold all1.
  destruct (includes k (g_devices g)) eqn:Ek; simpl.
  2:{ by destruct (JsObject.get k (devices s)). }
  assert (Hsel1 : forall sn, In sn (g_devices g) ->
            dev_selected sn (selectGroup gid s) = negb all1).
  { intros sn Hin. unfold dev_selected.
    rewrite (get_selectGroup gid g s sn Hg). fold all1.
    specialize (Hon sn Hin). unfold dev_online in Hon.
    destruct (JsObject.get sn (devices s)) as [d|]; [|done]. simpl.
    apply includes_In in Hin. by rewrite Hin, Hon. }
  assert (Hne : g_devices g <> []).
  { intros E. rewrite E in Ek. done. }
  rewrite (forallb_const (negb all1) _ _ Hne Hsel1), negb_involutive.
  apply includes_In in Ek. specialize (Hon k Ek). unfold dev_online in Hon.
  destruct (JsObject.get k (devices s)) as [d|]; [|done]. simpl.
  rewrite Hon. simpl. by rewrite Hon.
Qed.

(** C5, as stated, fails. Lamp and strip are the members of the living
    room, both online; the lamp is selected, the strip is not. The first
    [selectGroup] selects both, the second deselects both: the lamp does
    not return to its selected state. *)
Lemma selectGroup_twice_partly_selected :
  let s := store Examples.partlySelected in
  let s2 := selectGroup "a1b2c3d4" (selectGroup "a1b2c3d4" s) in
  option_map g_devices (JsObject.get "a1b2c3d4" (groups s))
  = Some ["d073d5000001"; "d073d5000002"]
  /\ dev_online "d073d5000001" s = true
  /\ dev_online "d073d5000002" s = true
  /\ dev_selected "d073d5000001" s = true
  /\ dev_selected "d073d5000002" s = false
  /\ dev_selected "d073d5000001" s2 = false
  /\ dev_selected "d073d5000002" s2 = false.
Proof. vm_compute. done. Qed.

(** C5, amended. For a group whose members are all online and, before the
    calls, either all selected or all unselected, two successive calls of
    [selectGroup] return every device record to its state before the
    calls. Whatever the selection was, after the two calls every member
    is selected if and only if all members were selected before, and the
    records of the devices outside the group are untouched. *)
Theorem selectGroup_twice (s : LifxStore) (gid : string) (g : GroupState) :
  JsObject.get gid (groups s) = Some g ->
  (forall sn, In sn (g_devices g) -> dev_online sn s = true) ->
  let allSelected := forallb (fun sn => dev_selected sn s) (g_devices g) in
  let s2 := selectGroup gid (selectGroup gid s) in
  ((allSelected = true
    \/ forall sn, In sn (g_devices g) -> dev_selected sn s = false) ->
   forall k, JsObject.get k (devices s2) = JsObject.get k (devices s))
  /\ (forall sn, In sn (g_devices g) -> dev_selected sn s2 = allSelected)
  /\ (forall k, ~ In k (g_devices g) ->
        JsObject.get k (devices s2) = JsObject.get k (devices s)).
Proof.
  intros Hg Hon all1 s2.
  assert (Hget := fun k => get_selectGroup_twice gid g s k Hg Hon).
  fold all1 in Hget. fold s2 in Hget.
  assert (Hmem : forall sn, In sn (g_devices g) -> dev_selected sn s2 = all1).
  { intros sn Hin. unfold dev_selected. rewrite Hget.
    specialize (Hon sn Hin). unfold dev_online in Hon.
    destruct (JsObject.get sn (devices s)) as [d|]; [|done]. simpl.
    apply includes_In in Hin. by rewrite Hin. }
  assert (Hout : forall k, ~ In k (g_devices g) ->
            JsObject.get k (devices s2) = JsObject.get k (devices s)).
  { intros k Hk. rewrite Hget.
    destruct (includes k (g_devices g)) eqn:E; [by apply includes_In in E|].
    by destruct (JsObject.get k (devices s)). }
  split; [|by split].
  intros Huni k. rewrite Hget.
  destruct (includes k (g_devices g)) eqn:E.
  2:{ by destruct (JsObject.get k (devices s)). }
  apply includes_In in E.
  destruct (JsObject.get k (devices s)) as [d|] eqn:Ed; [|done]. simpl.
  assert (Hsel : selected d = all1).
  { destruct Huni as [Ht|Hf].
    - rewrite Ht. subst all1. rewrite forallb_forall in Ht.
      specialize (Ht k E). unfold dev_selected in Ht. by rewrite Ed in Ht.
    - specialize (Hf k E). unfold dev_selected in Hf. rewrite Ed in Hf.
      rewrite Hf. subst all1. symmetry. apply not_true_is_false.
      intros Ht. rewrite forallb_forall in Ht. specialize (Ht k E).
      unfold dev_selected in Ht. rewrite Ed in Ht. congruence. }
  by rewrite <- Hsel, set_selected_same.
Qed.

Lemma selectGroup_twice_witness :
  JsObject.get "a1b2c3d4" (groups (store Examples.bothSelected))
  = Some (mkGroupState "a1b2c3d4" "Living Room"
            ["d073d5000001"; "d073d5000002"] true)
  /\ (forall sn, In sn ["d073d5000001"; "d073d5000002"] ->
        dev_online sn (store Examples.bothSelected) = true)
  /\ forall k,
       JsObject.get k
         (devices (selectGroup "a1b2c3d4"
                     (selectGroup "a1b2c3d4" (store Examples.bothSelected))))
       = JsObject.get k (devices (store Examples.bothSelected)).
Proof.
  assert (Hon : forall sn, In sn ["d073d5000001"; "d073d5000002"] ->
                  dev_online sn (store Examples.bothSelected) = true).
  { intros sn [<-|[<-|[]]]; vm_compute; reflexivity. }
  split; [vm_compute; reflexivity|]. split; [exact Hon|].
  apply (selectGroup_twice (store Examples.bothSelected) "a1b2c3d4"
           (mkGroupState "a1b2c3d4" "Living Room"
              ["d073d5000001"; "d073d5000002"] true)).
  - vm_compute; reflexivity.
  - exact Hon.
  - left. vm_compute; reflexivity.
Defined.

(** ** Power toggle *)

Lemma existsb_false {A : Type} (f : A -> bool) (l : list A) :
  existsb f l = false <-> forall x, In x l -> f x = false.
Proof.
  induction l as [|y l IH]; simpl.
  - split; [by intros _ x []|done].
  - rewrite orb_false_iff, IH. split.
    + intros [Hy Hl] x [<-|Hx]; auto.
    + intros H. split; [apply H; by left|]. intros x Hx. apply H. by right.
Qed.

(** The loop of [setPower], record by record. *)
Lemma get_forEach_setPower (t : string -> bool) (on : bool) (duration : Z)
    (l : list string) (w : World) (k : string) :
  let w' :=
    forEach l
      (fun sn acc =>
         match JsObject.get sn (devices (store acc)) with
         | Some deviceState =>
             if online deviceState then
               if t sn then acc
               else
                 mkWorld (setDevice sn (set_power on) (store acc))
                   (pendingQueries acc) (awaiting acc)
                   (outbox acc ++ [(SetLightPowerCommand on duration, sn)])
             else acc
         | None => acc
         end)
      w in
  JsObject.get k (devices (store w'))
  = option_map
      (fun d => if includes k l && online d && negb (t k) then set_power on d else d)
      (JsObject.get k (devices (store w)))
  /\ selectedDevices (store w') = selectedDevices (store w).
Proof.
  cbv zeta. revert w. induction l as [|x l IH]; intros w.
  - simpl. by destruct (JsObject.get k (devices (store w))).
  - change (forEach (x :: l) ?f w) with (forEach l f (f x w)).
    destruct (IH
      (match JsObject.get x (devices (store w)) with
       | Some deviceState =>
           if online deviceState then
             if t x then w
             else
               mkWorld (setDevice x (set_power on) (store w))
                 (pendingQueries w) (awaiting w)
                 (outbox w ++ [(SetLightPowerCommand on duration, x)])
           else w
       | None => w
       end)) as [IHg IHs].
    rewrite IHg, IHs, includes_cons. clear IHg IHs IH.
    destruct (String.eqb k x) eqn:E.
    + apply String.eqb_eq in E. subst x.
      destruct (JsObject.get k (devices (store w))) as [d|] eqn:Ed;
        [|by rewrite Ed].
      destruct (online d) eqn:Eo; [|by rewrite Ed; simpl; rewrite Eo, andb_false_r].
      destruct (t k) eqn:Et.
      * rewrite Ed. simpl. by rewrite Eo, !andb_false_r.
      * simpl store. rewrite get_setDevice_same, Ed. simpl. rewrite Eo.
        by destruct (includes k l).
    + assert (Hk : k <> x) by by apply String.eqb_neq.
      destruct (JsObject.get x (devices (store w))) as [dx|]; [|done].
      destruct (online dx); [|done]. destruct (t x); [done|].
      simpl store. by rewrite get_setDevice_other.
Qed.

Lemma setPower_effect (t : string -> bool) (on : bool) (duration : Z)
    (w : World) (k : string) :
  dev_power k (store (setPower t on duration w))
  = (if includes k (selectedDevices (store w)) && dev_online k (store w) && negb (t k)
     then on else dev_power k (store w))
  /\ dev_online k (store (setPower t on duration w)) = dev_online k (store w)
  /\ selectedDevices (store (setPower t on duration w)) = selectedDevices (store w).
Proof.
  unfold setPower. cbv zeta.
  destruct (length (selectedDevices (store w)) =? 0)%nat eqn:El.
  - apply Nat.eqb_eq in El. destruct (selectedDevices (store w)); [|done].
    done.
  - destruct (get_forEach_setPower t on duration (selectedDevices (store w)) w k)
      as [Hg Hs].
    unfold dev_power, dev_online. rewrite Hg, Hs.
    destruct (JsObject.get k (devices (store w))) as [d|]; simpl.
    + destruct (includes k _ && online d && negb (t k)); done.
    + by rewrite andb_false_r.
Qed.

(** C6, as stated, fails. Lamp (on) and strip (off) are selected; the lamp
    has been marked offline. [togglePower] sees a selected device that is
    on and calls [setPower(false)], which skips the offline lamp: the lamp
    is still on, and no command was sent to it. *)
Lemma togglePower_skips_offline_device :
  let w := Examples.lampOffline in
  let w1 := togglePower Examples.neverThrows w in
  selectedDevices (store w) = ["d073d5000001"; "d073d5000002"]
  /\ dev_power "d073d5000001" (store w) = true
  /\ dev_power "d073d5000002" (store w) = false
  /\ dev_online "d073d5000001" (store w) = false
  /\ dev_power "d073d5000001" (store w1) = true
  /\ skipn (length (outbox w)) (outbox w1)
     = [(SetLightPowerCommand false 0, "d073d5000002")].
Proof. vm_compute. done. Qed.

(** C6, amended. For a non-empty selection, [togglePower()] is
    [setPower(on)] with [on = true] if and only if no selected device has
    power on, and [setPower(false)] otherwise. In particular, when the
    selected devices are all online and their commands are dispatched
    without error, and one of them (A) is on, one call leaves every
    selected device (A and B) off and a second call leaves every one on. *)
Theorem togglePower_policy (t : string -> bool) (w : World) :
  selectedDevices (store w) <> [] ->
  let sel := selectedDevices (store w) in
  togglePower t w = setPower t (negb (anyOn (store w))) 0 w
  /\ (negb (anyOn (store w)) = true
      <-> forall sn, In sn sel -> dev_power sn (store w) = false)
  /\ ((forall sn, In sn sel -> dev_online sn (store w) = true /\ t sn = false) ->
      anyOn (store w) = true ->
      let w1 := togglePower t w in
      let w2 := togglePower t w1 in
      (forall sn, In sn sel -> dev_power sn (store w1) = false)
      /\ (forall sn, In sn sel -> dev_power sn (store w2) = true)).
Proof.
  intros Hne sel.
  assert (Htp : forall w', selectedDevices (store w') <> [] ->
            togglePower t w' = setPower t (negb (anyOn (store w'))) 0 w').
  { intros w' Hw'. unfold togglePower. cbv zeta.
    destruct (selectedDevices (store w')); [done|reflexivity]. }
  split; [by apply Htp|]. split.
  - rewrite negb_true_iff. unfold anyOn. apply existsb_false.
  - intros Hok Hany w1 w2.
    assert (H1 : forall sn, In sn sel -> dev_power sn (store w1) = false).
    { intros sn Hin. subst w1. rewrite (Htp w Hne), Hany.
      change (negb true) with false.
      destruct (setPower_effect t false 0 w sn) as (-> & _ & _).
      destruct (Hok sn Hin) as [-> ->]. apply includes_In in Hin.
      fold sel. by rewrite Hin. }
    assert (Hs1 : selectedDevices (store w1) = sel).
    { subst w1. rewrite (Htp w Hne).
      by destruct (setPower_effect t (negb (anyOn (store w))) 0 w EmptyString) as (_ & _ & ->). }
    assert (Ho1 : forall sn, dev_online sn (store w1) = dev_online sn (store w)).
    { intros sn. subst w1. rewrite (Htp w Hne).
      by destruct (setPower_effect t (negb (anyOn (store w))) 0 w sn) as (_ & -> & _). }
    split; [exact H1|].
    intros sn Hin. subst w2.
    assert (Hne1 : selectedDevices (store w1) <> []) by by rewrite Hs1.
    assert (Hany1 : anyOn (store w1) = false).
    { unfold anyOn. apply existsb_false. rewrite Hs1. exact H1. }
    rewrite (Htp w1 Hne1), Hany1. change (negb false) with true.
    destruct (setPower_effect t true 0 w1 sn) as (-> & _ & _).
    rewrite Hs1, Ho1. destruct (Hok sn Hin) as [-> ->].
    apply includes_In in Hin. by rewrite Hin.
Qed.

Lemma togglePower_policy_witness :
  selectedDevices (store Examples.bothSelected) <> []
  /\ (forall sn, In sn (selectedDevices (store Examples.bothSelected)) ->
        dev_online sn (store Examples.bothSelected) = true
        /\ Examples.neverThrows sn = false)
  /\ anyOn (store Examples.bothSelected) = true
  /\ (forall sn, In sn (selectedDevices (store Examples.bothSelected)) ->
        dev_power sn
          (store (togglePower Examples.neverThrows Examples.bothSelected)) = false)
  /\ (forall sn, In sn (selectedDevices (store Examples.bothSelected)) ->
        dev_power sn
          (store (togglePower Examples.neverThrows
                    (togglePower Examples.neverThrows Examples.bothSelected))) = true).
Proof.
  assert (Hne : selectedDevices (store Examples.bothSelected) <> [])
    by (vm_compute; discriminate).
  assert (Hok : forall sn, In sn (selectedDevices (store Examples.bothSelected)) ->
                  dev_online sn (store Examples.bothSelected) = true
                  /\ Examples.neverThrows sn = false).
  { intros sn Hin. vm_compute in Hin.
    destruct Hin as [<-|[<-|[]]]; split; vm_compute; reflexivity. }
  assert (Hany : anyOn (store Examples.bothSelected) = true)
    by (vm_compute; reflexivity).
  split; [exact Hne|]. split; [exact Hok|]. split; [exact Hany|].
  destruct (togglePower_policy Examples.neverThrows Examples.bothSelected Hne)
    as (_ & _ & H).
  exact (H Hok Hany).
Defined.

(** ** Sorting *)

Section SortFacts.
Context {A : Type} (cmp : A -> A -> Z) (R : A -> A -> Prop).
Hypothesis R_le : forall x y, cmp x y <= 0 -> R x y.
Hypothesis R_gt : forall x y, 0 < cmp x y -> R y x.
Hypothesis R_trans : forall x y z, R x y -> R y z -> R x z.

Lemma sort_insert_perm (x : A) (l : list A) :
  Permutation (sort_insert cmp x l) (x :: l).
Proof.
  induction l as [|y l IH]; simpl; [done|].
  destruct (cmp x y <=? 0); [done|].
  rewrite IH. apply perm_swap.
Qed.

Lemma Array_sort_perm (l : list A) : Permutation (Array_sort cmp l) l.
Proof.
  unfold Array_sort. induction l as [|x l IH]; simpl; [done|].
  rewrite sort_insert_perm. by constructor.
Qed.

Lemma sort_insert_sorted (x : A) (l : list A) :
  StronglySorted R l -> StronglySorted R (sort_insert cmp x l).
Proof.
  induction 1 as [|y l Hl IH Hy]; simpl.
  - constructor; constructor.
  - destruct (Z.leb_spec (cmp x y) 0) as [Hle|Hgt].
    + constructor; [by constructor|].
      constructor; [by apply R_le|].
      eapply Forall_impl; [exact Hy|]. intros z Hz.
      apply (R_trans x y z); [by apply R_le|done].
    + constructor; [done|].
      apply List.Forall_forall. intros z Hz.
      apply (Permutation_in _ (sort_insert_perm x l)) in Hz.
      destruct Hz as [<-|Hz]; [by apply R_gt|].
      rewrite List.Forall_forall in Hy. by apply Hy.
Qed.

Lemma Array_sort_sorted (l : list A) : StronglySorted R (Array_sort cmp l).
Proof.
  unfold Array_sort. induction l as [|x l IH]; simpl; [constructor|].
  by apply sort_insert_sorted.
Qed.

End SortFacts.

Lemma StronglySorted_app_r {A : Type} (R : A -> A -> Prop) (l1 l2 : list A) :
  StronglySorted R (l1 ++ l2) -> StronglySorted R l2.
Proof.
  induction l1 as [|x l1 IH]; simpl; [done|].
  intros H. apply StronglySorted_inv in H. apply IH, H.
Qed.

(** ** Grouped read views *)

Lemma nonSwitch_classes (d : DeviceState) :
  nonSwitch d <-> lightClass d \/ deviceType d = unknown.
Proof.
  unfold nonSwitch, lightClass. destruct (deviceType d); split; try done;
    try (by left); try (by right); by intros [|].
Qed.

(** The views on a reachable state whose only device is not classified:
    the hall is returned although its only member, the only device of the
    store, is of class unknown and not of class light, and that member is
    listed. *)
Lemma views_show_unclassified_device :
  let s := store Examples.unclassified in
  reachable Examples.unclassified
  /\ map (fun kv => (fst kv, deviceType (snd kv))) (devices s)
     = [("d073d5000003", unknown)]
  /\ map (fun g => (g_label g, g_devices g))
       (getSortedGroups Examples.codeUnitCompare s)
     = [("Hall", ["d073d5000003"])]
  /\ map (fun d => (label d, deviceType d))
       (getGroupDevices Examples.codeUnitCompare "c9d0e1f2" s)
     = [("Switch", unknown)].
Proof.
  cbv zeta. split.
  - assert (E : Examples.unclassified
                = exec (EResume "d073d5000003"
                          (mkResults rejected (fulfilled "Switch")
                             (fulfilled (mkStateGroup "c9d0e1f2" "Hall")) rejected)
                          2000)
                    (exec (ERegisterDevice Examples.wallSwitch 1000 4) initWorld))
      by (vm_compute; reflexivity).
    rewrite E. apply reachable_step.
    + apply reachable_step; [apply reachable_init|exact I].
    + cbn [enabled]. apply list_elem_of_In. vm_compute. tauto.
  - split; [reflexivity|]. split; reflexivity.
Qed.

Lemma hasLights_spec (s : LifxStore) (g : GroupState) :
  hasLights s g = true
  <-> exists sn d,
        In sn (g_devices g)
        /\ JsObject.get sn (devices s) = Some d
        /\ nonSwitch d.
Proof.
  unfold hasLights, nonSwitch, notSwitch. rewrite existsb_exists. split.
  - intros (sn & Hin & H).
    destruct (JsObject.get sn (devices s)) as [d|] eqn:Ed; [|done].
    exists sn, d. split; [done|]. split; [done|].
    intros E. by rewrite E in H.
  - intros (sn & d & Hin & Hd & Ht). exists sn. split; [done|].
    rewrite Hd. by destruct (deviceType d).
Qed.

Section ViewFacts.
Variable localeCompare : string -> string -> Z.

(** A collation orders the strings: any two are comparable, and the
    order is transitive. *)
Hypothesis localeCompare_total :
  forall a b, 0 < localeCompare a b -> localeCompare b a <= 0.
Hypothesis localeCompare_trans :
  forall a b c,
    localeCompare a b <= 0 -> localeCompare b c <= 0 -> localeCompare a c <= 0.

Lemma compareGroups_le (a b : GroupState) :
  compareGroups localeCompare a b <= 0 -> groupLe localeCompare a b.
Proof.
  unfold compareGroups, groupLe.
  destruct (String.eqb (g_id a) "ungrouped") eqn:Ea; [lia|].
  apply String.eqb_neq in Ea.
  destruct (String.eqb (g_id b) "ungrouped") eqn:Eb.
  - apply String.eqb_eq in Eb. by left.
  - intros H. by right.
Qed.

Lemma compareGroups_gt (a b : GroupState) :
  0 < compareGroups localeCompare a b -> groupLe localeCompare b a.
Proof.
  unfold compareGroups, groupLe.
  destruct (String.eqb (g_id a) "ungrouped") eqn:Ea.
  - apply String.eqb_eq in Ea. by left.
  - destruct (String.eqb (g_id b) "ungrouped") eqn:Eb; [lia|].
    apply String.eqb_neq in Eb. intros H. right. split; [done|].
    by apply localeCompare_total.
Qed.

Lemma groupLe_trans (a b c : GroupState) :
  groupLe localeCompare a b -> groupLe localeCompare b c ->
  groupLe localeCompare a c.
Proof.
  unfold groupLe. intros [Hb|[Ha Hab]] [Hc|[Hb' Hbc]]; try (by left); try done.
  right. split; [done|]. by apply (localeCompare_trans _ (g_label b)).
Qed.

(** C7, amended. [getSortedGroups()] is a rearrangement of the groups
    that have at least one member with a record that is not classified as
    a switch, that is a member of class light or of class unknown: a
    group is returned exactly when it is in the store and has such a
    member, so never an empty or switch-only group. The result is ordered
    by label, and a group with id ["ungrouped"] is followed only by
    groups with that id. [getGroupDevices(id)] returns exactly the
    records of the members of group [id] that are not classified as a
    switch, ordered by label, and nothing when there is no such group.
    The label order is that of [localeCompare]. *)
Theorem sorted_views (s : LifxStore) :
  Permutation (getSortedGroups localeCompare s)
    (List.filter (hasLights s) (JsObject.values (groups s)))
  /\ (forall g,
        In g (getSortedGroups localeCompare s)
        <-> In g (JsObject.values (groups s))
            /\ exists sn d,
                 In sn (g_devices g)
                 /\ JsObject.get sn (devices s) = Some d
                 /\ (lightClass d \/ deviceType d = unknown))
  /\ StronglySorted (groupLe localeCompare) (getSortedGroups localeCompare s)
  /\ (forall l1 g l2,
        getSortedGroups localeCompare s = l1 ++ g :: l2 ->
        g_id g = "ungrouped" ->
        Forall (fun h => g_id h = "ungrouped") l2)
  /\ (forall groupId,
        (forall d,
           In d (getGroupDevices localeCompare groupId s)
           <-> exists g sn,
                 JsObject.get groupId (groups s) = Some g
                 /\ In sn (g_devices g)
                 /\ JsObject.get sn (devices s) = Some d
                 /\ (lightClass d \/ deviceType d = unknown))
        /\ StronglySorted (deviceLe localeCompare)
             (getGroupDevices localeCompare groupId s)).
Proof.
  assert (Hperm : Permutation (getSortedGroups localeCompare s)
                    (List.filter (hasLights s) (JsObject.values (groups s))))
    by apply Array_sort_perm.
  assert (Hsorted : StronglySorted (groupLe localeCompare)
                      (getSortedGroups localeCompare s)).
  { exact (Array_sort_sorted (compareGroups localeCompare)
             (groupLe localeCompare) compareGroups_le compareGroups_gt
             groupLe_trans _). }
  split; [exact Hperm|]. split; [|split; [exact Hsorted|split]].
  - intros g.
    assert (Hiff : (exists sn d,
                      In sn (g_devices g)
                      /\ JsObject.get sn (devices s) = Some d
                      /\ (lightClass d \/ deviceType d = unknown))
                   <-> hasLights s g = true).
    { rewrite hasLights_spec.
      split; intros (sn & d & Hin & Hd & Ht); exists sn, d;
        (split; [done|]); (split; [done|]); by apply nonSwitch_classes. }
    rewrite Hiff, <- filter_In. split.
    + apply Permutation_in. exact Hperm.
    + apply Permutation_in. symmetry. exact Hperm.
  - intros l1 g l2 E Hg. rewrite E in Hsorted.
    apply StronglySorted_app_r, StronglySorted_inv in Hsorted.
    destruct Hsorted as [_ Hall].
    eapply Forall_impl; [exact Hall|].
    intros h [Hh|[Hn _]]; [exact Hh|done].
  - intros groupId. unfold getGroupDevices.
    destruct (JsObject.get groupId (groups s)) as [g|] eqn:Eg.
    + split.
      * intros d.
        pose proof (Array_sort_perm
                      (fun a b => localeCompare (label a) (label b))
                      (List.filter notSwitch
                         (omap (fun sn => JsObject.get sn (devices s)) (g_devices g))))
          as Hp.
        unfold notSwitch in *. split.
        -- intros Hin. apply (Permutation_in _ Hp), filter_In in Hin.
           destruct Hin as [Hin Ht].
           apply list_elem_of_In, list_elem_of_omap in Hin.
           destruct Hin as (sn & Hsn & Hd). apply list_elem_of_In in Hsn.
           exists g, sn. split; [done|]. split; [done|]. split; [done|].
           apply nonSwitch_classes. intros E. by rewrite E in Ht.
        -- intros (g' & sn & Hg' & Hin & Hd & Ht). simplify_eq.
           apply (Permutation_in _ (Permutation_sym Hp)), filter_In. split.
           ++ apply list_elem_of_In, list_elem_of_omap. exists sn.
              by rewrite list_elem_of_In.
           ++ apply nonSwitch_classes in Ht. unfold nonSwitch in Ht.
              by destruct (deviceType d).
      * apply (Array_sort_sorted
                 (fun a b => localeCompare (label a) (label b))
                 (deviceLe localeCompare)).
        -- intros x y H. exact H.
        -- intros x y H. by apply localeCompare_total.
        -- intros x y z. apply localeCompare_trans.
    + split; [|constructor].
      intros d. split; [intros []|]. intros (g & sn & Hg & _). done.
Qed.

End ViewFacts.

Lemma codeUnitCompare_total (a b : string) :
  0 < Examples.codeUnitCompare a b -> Examples.codeUnitCompare b a <= 0.
Proof.
  unfold Examples.codeUnitCompare.
  destruct (String_as_OT.compare_spec a b) as [E|Hlt|Hgt]; try lia.
  intros _. unfold String_as_OT.lt in Hgt. rewrite Hgt. lia.
Qed.

Lemma codeUnitCompare_trans (a b c : string) :
  Examples.codeUnitCompare a b <= 0 ->
  Examples.codeUnitCompare b c <= 0 ->
  Examples.codeUnitCompare a c <= 0.
Proof.
  pose proof (@StrictOrder_Irreflexive _ _ String_as_OT.lt_strorder) as Hirr.
  pose proof (@StrictOrder_Transitive _ _ String_as_OT.lt_strorder) as Htr.
  unfold Examples.codeUnitCompare.
  destruct (String_as_OT.compare_spec a b) as [Eab|Hab|Hab]; try lia;
    destruct (String_as_OT.compare_spec b c) as [Ebc|Hbc|Hbc]; try lia;
    intros _ _; destruct (String_as_OT.compare_spec a c) as [Eac|Hac|Hac];
    try lia; exfalso; unfold String_as_OT.eq in *; subst.
  - exact (Hirr _ Hac).
  - exact (Hirr _ (Htr _ _ _ Hbc Hac)).
  - exact (Hirr _ (Htr _ _ _ Hab Hac)).
  - exact (Hirr _ (Htr _ _ _ Hab (Htr _ _ _ Hbc Hac))).
Qed.

(** The views on the example house: the kitchen and the living room in
    label order, the group with id "ungrouped" last although its label
    sorts first, and no hall, whose only member is a switch. *)
Example getSortedGroups_house :
  map g_label (getSortedGroups Examples.codeUnitCompare (store Examples.house))
  = ["Kitchen"; "Living Room"; "A porch"]
  /\ map g_label (JsObject.values (groups (store Examples.house)))
     = ["A porch"; "Living Room"; "Hall"; "Kitchen"]
  /\ getGroupDevices Examples.codeUnitCompare "c9d0e1f2" (store Examples.house) = []
  /\ map label
       (getGroupDevices Examples.codeUnitCompare "a1b2c3d4" (store Examples.house))
     = ["Lamp"].
Proof. vm_compute. done. Qed.

Lemma sorted_views_witness :
  (forall a b, 0 < Examples.codeUnitCompare a b -> Examples.codeUnitCompare b a <= 0)
  /\ (forall a b c,
        Examples.codeUnitCompare a b <= 0 ->
        Examples.codeUnitCompare b c <= 0 ->
        Examples.codeUnitCompare a c <= 0)
  /\ StronglySorted (groupLe Examples.codeUnitCompare)
       (getSortedGroups Examples.codeUnitCompare (store Examples.house))
  /\ (forall g,
        In g (getSortedGroups Examples.codeUnitCompare (store Examples.house)) ->
        exists sn d,
          In sn (g_devices g)
          /\ JsObject.get sn (devices (store Examples.house)) = Some d
          /\ (lightClass d \/ deviceType d = unknown)).
Proof.
  split; [exact codeUnitCompare_total|].
  split; [exact codeUnitCompare_trans|].
  destruct (sorted_views Examples.codeUnitCompare codeUnitCompare_total
              codeUnitCompare_trans (store Examples.house))
    as (_ & Hin & Hsorted & _).
  split; [exact Hsorted|].
  intros g Hg. apply Hin in Hg. apply Hg.
Defined.

(** ** Where the online flag is cleared *)

Lemma dev_online_setDevice (k sn : string) (f : DeviceState -> DeviceState)
    (s : LifxStore) :
  (forall d, online (f d) = online d) ->
  dev_online sn (setDevice k f s) = dev_online sn s.
Proof.
  intros Hf. unfold dev_online. rewrite get_setDevice.
  destruct (String.eqb sn k); [|done].
  destruct (JsObject.get sn (devices s)); simpl; [apply Hf|done].
Qed.

Lemma get_batchBody_other (k sn : string) (r : Results) (now : Z) (s : LifxStore) :
  k <> sn ->
  JsObject.get k (devices (batchBody sn r now s)) = JsObject.get k (devices s).
Proof.
  intros Hk. unfold batchBody. cbv zeta.
  rewrite !get_setDevice_other by done.
  destruct r as [rc rl rg rv]. cbn [versionResult colorResult labelResult groupResult].
  assert (Hv : JsObject.get k (devices (applyVersion sn rv s))
               = JsObject.get k (devices s)).
  { unfold applyVersion. destruct rv as [v|]; [|done]. cbv zeta.
    destruct (existsb _ _); by rewrite !get_setDevice_other. }
  assert (Hc : JsObject.get k (devices (applyColor sn rc (applyVersion sn rv s)))
               = JsObject.get k (devices s)).
  { unfold applyColor. destruct rc as [c|]; [|done]. cbv zeta.
    destruct (ls_power c); by rewrite !get_setDevice_other. }
  assert (Hl : JsObject.get k
                 (devices (applyLabel sn rl (applyColor sn rc (applyVersion sn rv s))))
               = JsObject.get k (devices s)).
  { unfold applyLabel. destruct rl as [l|]; [|done].
    destruct (String.eqb l EmptyString); [done|]. by rewrite get_setDevice_other. }
  destruct rg as [g|]; [|done].
  by rewrite devices_applyGroup, !get_setDevice_other.
Qed.

Lemma dev_online_batchBody (sn sn' : string) (r : Results) (now : Z)
    (s : LifxStore) :
  dev_online sn s = true -> dev_online sn (batchBody sn' r now s) = true.
Proof.
  unfold dev_online. intros H.
  destruct (String.eqb sn sn') eqn:E.
  - apply String.eqb_eq in E. subst sn'. rewrite get_batchBody.
    by destruct (JsObject.get sn (devices s)).
  - apply String.eqb_neq in E. by rewrite get_batchBody_other.
Qed.

Lemma dev_online_selection_loop (sn : string) (b : bool) (l : list string)
    (s : LifxStore) :
  dev_online sn
    (forEach l
       (fun k acc => if dev_online k acc then setDevice k (set_selected b) acc else acc)
       s)
  = dev_online sn s.
Proof.
  apply (forEach_ind (fun acc => dev_online sn acc = dev_online sn s)); [done|].
  intros x acc H. destruct (dev_online x acc); [|done].
  by rewrite dev_online_setDevice.
Qed.

Lemma dev_online_deselect_loop (sn : string) (l : list string) (s : LifxStore) :
  dev_online sn (forEach l (fun k => setDevice k (set_selected false)) s)
  = dev_online sn s.
Proof.
  apply (forEach_ind (fun acc => dev_online sn acc = dev_online sn s)); [done|].
  intros x acc H. by rewrite dev_online_setDevice.
Qed.

Lemma dev_online_setColor (sn : string) (t : string -> bool) (hsbk : HSBK)
    (d : Z) (w : World) :
  dev_online sn (store (setColor t hsbk d w)) = dev_online sn (store w).
Proof.
  unfold setColor. cbv zeta. destruct (_ =? _)%nat; [done|].
  apply (forEach_ind
           (fun acc => dev_online sn (store acc) = dev_online sn (store w))); [done|].
  intros x acc H. destruct (JsObject.get x _) as [ds|]; [|done].
  destruct (online ds); [|done]. destruct (t x); [done|].
  simpl store. by rewrite dev_online_setDevice.
Qed.

(** A device that is online goes offline in one place only: the [catch]
    of [queryDeviceState], entered when a [client.send] of its own refresh
    raises. In particular no outcome of the four sub-queries clears the
    flag. *)
Lemma online_cleared_only_by_throw (e : Event) (w : World) (sn : string) :
  dev_online sn (store w) = true ->
  dev_online sn (store (exec e w)) = false ->
  exists dev k,
    (e = EQueryDeviceState dev k \/ exists now, e = ERegisterDevice dev now k)
    /\ dev_serialNumber dev = sn
    /\ (k < 4)%nat.
Proof.
  intros Hon Hoff.
  assert (Hq : forall dev k w0,
            dev_online sn (store w0) = true ->
            dev_online sn (store (queryDeviceState dev k w0)) = false ->
            dev_serialNumber dev = sn /\ (k < 4)%nat).
  { intros dev k w0 H1 H0. unfold queryDeviceState in H0. cbv zeta in H0.
    destruct (bool_decide _); [congruence|].
    destruct (Nat.leb_spec 4 k); [simpl in H0; congruence|].
    split; [|done]. simpl store in H0. unfold dev_online in H0, H1.
    rewrite get_setDevice in H0.
    destruct (String.eqb sn (dev_serialNumber dev)) eqn:E;
      [by apply String.eqb_eq in E|congruence]. }
  destruct e; cbn [exec] in Hoff.
  - destruct (Hq dev sendsOk (with_store (upsertDevice dev now) w)) as [? ?];
      [|exact Hoff|exists dev, sendsOk; eauto].
    cbn [store with_store]. unfold upsertDevice. cbv zeta.
    destruct (JsObject.get (dev_serialNumber dev) (devices (store w))) as [d0|] eqn:E0.
    + by rewrite !dev_online_setDevice.
    + unfold dev_online in *. cbn [devices with_devices]. rewrite get_put.
      destruct (String.eqb sn (dev_serialNumber dev)); [done|exact Hon].
  - destruct (Hq dev sendsOk w Hon Hoff). exists dev, sendsOk. eauto.
  - unfold queryDeviceState_resume in Hoff. cbn [store] in Hoff.
    destruct (JsObject.get sn0 (devices (store w))); [|congruence].
    rewrite dev_online_batchBody in Hoff; [done|exact Hon].
  - cbn [store with_store] in Hoff. unfold toggleSelect in Hoff.
    destruct (JsObject.get sn0 (devices (store w))); [|congruence].
    change (dev_online sn (setDevice sn0 (set_selected (negb (selected d))) (store w))
            = false) in Hoff.
    rewrite dev_online_setDevice in Hoff; [congruence|done].
  - cbn [store with_store] in Hoff. unfold selectDevice in Hoff. cbv zeta in Hoff.
    destruct (JsObject.get sn0 _) in Hoff.
    + change (dev_online sn
                (setDevice sn0 (set_selected true)
                   (forEach (JsObject.keys (devices (store w)))
                      (fun k => setDevice k (set_selected false)) (store w)))
              = false) in Hoff.
      rewrite dev_online_setDevice, dev_online_deselect_loop in Hoff;
        [congruence|done].
    + rewrite dev_online_deselect_loop in Hoff. congruence.
  - change (dev_online sn
              (forEach (JsObject.keys (devices (store w)))
                 (fun k acc =>
                    if dev_online k acc then setDevice k (set_selected true) acc else acc)
                 (store w)) = false) in Hoff.
    rewrite dev_online_selection_loop in Hoff. congruence.
  - change (dev_online sn
              (forEach (JsObject.keys (devices (store w)))
                 (fun k => setDevice k (set_selected false)) (store w)) = false) in Hoff.
    rewrite dev_online_deselect_loop in Hoff. congruence.
  - cbn [store with_store] in Hoff. unfold selectGroup in Hoff.
    destruct (JsObject.get groupId0 (groups (store w))) as [g|]; [|congruence].
    change (dev_online sn
              (forEach (g_devices g)
                 (fun k acc =>
                    if dev_online k acc
                    then setDevice k
                           (set_selected
                              (negb (forallb (fun sn => dev_selected sn (store w))
                                       (g_devices g)))) acc
                    else acc)
                 (store w)) = false) in Hoff.
    rewrite dev_online_selection_loop in Hoff. congruence.
  - cbn [store with_store] in Hoff. unfold toggleGroup in Hoff.
    destruct (JsObject.get groupId0 (groups (store w)));
      change (dev_online sn (store w) = false) in Hoff; congruence.
  - rewrite dev_online_setColor in Hoff. congruence.
  - destruct (setPower_effect unicastThrows on duration w sn) as (_ & Ho & _).
    congruence.
  - unfold togglePower in Hoff. cbv zeta in Hoff.
    destruct (_ =? _)%nat; [congruence|].
    destruct (setPower_effect unicastThrows (negb (anyOn (store w))) 0 w sn)
      as (_ & Ho & _).
    congruence.
  - change (dev_online sn (store w) = false) in Hoff. congruence.
  - change (dev_online sn (store w) = false) in Hoff. congruence.
Qed.

(** ** The group dictionary is keyed by id *)

Lemma get_None_keys {V : Type} (k : string) (o : JsObject.t V) :
  JsObject.get k o = None -> k ∉ JsObject.keys o.
Proof.
  induction o as [|[k0 v] o IH]; simpl.
  - intros _. apply not_elem_of_nil.
  - destruct (String.eqb k0 k) eqn:E; [done|].
    apply String.eqb_neq in E. intros H. apply not_elem_of_cons.
    split; [congruence|by apply IH].
Qed.

Lemma groupsWf_update (k : string) (f : GroupState -> GroupState) (s : LifxStore) :
  (forall g, g_id (f g) = g_id g) ->
  groupsWf s -> groupsWf (with_groups (JsObject.update k f) s).
Proof.
  intros Hf [Hnd Hid]. split; simpl.
  - by rewrite keys_update.
  - unfold JsObject.update. apply Forall_fmap.
    eapply Forall_impl; [exact Hid|]. intros [k0 g] Hg. simpl in *.
    destruct (String.eqb k0 k); simpl; [by rewrite Hf|done].
Qed.

Lemma groupsWf_applyGroup (sn : string) (r : Settled StateGroup) (s : LifxStore) :
  groupsWf s -> groupsWf (applyGroup sn r s).
Proof.
  intros Hwf. unfold applyGroup. destruct r as [g|]; [|done]. cbv zeta.
  change (groups (setDevice sn (set_groupId (sg_group g))
                    (setDevice sn (set_group (sg_label g)) s))) with (groups s).
  destruct (JsObject.get (sg_group g) (groups s)) as [g0|] eqn:E.
  - destruct (includes sn (g_devices g0)); [exact Hwf|].
    apply (groupsWf_update (sg_group g) (add_member sn)
             (setDevice sn (set_groupId (sg_group g))
                (setDevice sn (set_group (sg_label g)) s))); [done|exact Hwf].
  - destruct Hwf as [Hnd Hid]. unfold JsObject.put. split; simpl; rewrite E.
    + unfold JsObject.keys. rewrite map_app. simpl.
      apply NoDup_app. split; [exact Hnd|]. split; [|apply NoDup_singleton].
      intros x Hx ->%list_elem_of_singleton.
      by apply (get_None_keys _ _ E).
    + apply Forall_app. split; [exact Hid|]. by repeat constructor.
Qed.

Lemma groupsWf_same (s s' : LifxStore) :
  groups s' = groups s -> groupsWf s -> groupsWf s'.
Proof. unfold groupsWf. by intros ->. Qed.

Lemma reachable_groupsWf (w : World) : reachable w -> groupsWf (store w).
Proof.
  induction 1 as [|w e Hr IH Hen].
  - split; simpl; constructor.
  - pose proof (exec_groups e w) as Hg.
    destruct e; try (by apply (groupsWf_same (store w))).
    + cbn [exec]. unfold queryDeviceState_resume. cbn [store].
      destruct (JsObject.get sn (devices (store w))); [|exact IH].
      apply (groupsWf_same
               (applyGroup sn (groupResult r)
                  (applyLabel sn (labelResult r)
                     (applyColor sn (colorResult r)
                        (applyVersion sn (versionResult r) (store w))))));
        [apply groups_batchBody|].
      apply groupsWf_applyGroup.
      apply (groupsWf_same (store w)); [|exact IH].
      destruct r as [rc rl rg rv]. cbn [versionResult colorResult labelResult].
      unfold applyLabel, applyColor, applyVersion.
      destruct rl as [l|]; [destruct (String.eqb l EmptyString)|];
        (destruct rc as [c|]; [destruct (ls_power c)|]);
        (destruct rv as [v|]; [destruct (existsb _ _)|]); reflexivity.
    + cbn [exec store with_store]. unfold toggleGroup.
      destruct (JsObject.get groupId0 (groups (store w))); [|exact IH].
      by apply groupsWf_update.
Qed.

Lemma keyed_values_inj {V : Type} (o : JsObject.t V) (k : string) (a b : V) :
  NoDup (JsObject.keys o) -> In (k, a) o -> In (k, b) o -> a = b.
Proof.
  induction o as [|[k0 v] o IH]; simpl; [done|].
  intros [Hk Hnd]%NoDup_cons [Ea|Ha] [Eb|Hb]; simplify_eq.
  - done.
  - exfalso. apply Hk. apply list_elem_of_In.
    change k with (fst (k, b)). by apply in_map.
  - exfalso. apply Hk. apply list_elem_of_In.
    change k with (fst (k, a)). by apply in_map.
  - by apply IH.
Qed.

(** In a reachable store no two groups have the same id: at most one
    group is the "ungrouped" one, so [compareGroups] orders distinct
    groups consistently and the stable sorted arrangement is determined. *)
Lemma reachable_group_ids_distinct (w : World) (a b : GroupState) :
  reachable w ->
  In a (JsObject.values (groups (store w))) ->
  In b (JsObject.values (groups (store w))) ->
  g_id a = g_id b -> a = b.
Proof.
  intros [Hnd Hid]%reachable_groupsWf Ha Hb E.
  unfold JsObject.values in *.
  apply in_map_iff in Ha as ([ka a'] & <- & Ha).
  apply in_map_iff in Hb as ([kb b'] & <- & Hb).
  simpl in *. rewrite List.Forall_forall in Hid.
  pose proof (Hid _ Ha) as Ia. pose proof (Hid _ Hb) as Ib. simpl in *.
  assert (Hk : kb = ka) by congruence. rewrite Hk in Hb.
  exact (keyed_values_inj (groups (store w)) ka a' b' Hnd Ha Hb).
Qed.

(** ** The tapped tempo in integer arithmetic *)

(** For a positive interval the rounded quotient is an integer division,
    halves upwards. *)
Lemma Math_round_quotient (t : Z) :
  0 < t ->
  Effects.Math_round (60000 / inject_Z t)%Q = (120000 + t) / (2 * t).
Proof.
  intros Ht. destruct t as [|p|p]; try lia.
  unfold Effects.Math_round, Qfloor, Qplus, Qdiv, Qmult, Qinv, inject_Z.
  simpl. f_equal; lia.
Qed.

(** A tempo set by tapping lies between 30 and 300 beats per minute. *)
Lemma tapped_bpm_range (t : Z) :
  200 < t < 2000 ->
  30 <= Effects.Math_round (60000 / inject_Z t)%Q <= 300.
Proof.
  intros Ht. rewrite Math_round_quotient by lia. split.
  - apply Z.div_le_lower_bound; lia.
  - apply Z.lt_succ_r. apply Z.div_lt_upper_bound; lia.
Qed.

(** * Further properties of the store *)

Import Invariants.

(** ** Records and their keys *)

Lemma get_Some_keys {V : Type} (k : string) (v : V) (o : JsObject.t V) :
  JsObject.get k o = Some v -> In k (JsObject.keys o).
Proof.
  induction o as [|[k0 v0] o IH]; simpl; [done|].
  destruct (String.eqb k0 k) eqn:E.
  - apply String.eqb_eq in E. by left.
  - intros H. right. by apply IH.
Qed.

Lemma keys_get_Some {V : Type} (k : string) (o : JsObject.t V) :
  In k (JsObject.keys o) -> exists v, JsObject.get k o = Some v.
Proof.
  induction o as [|[k0 v0] o IH]; simpl; [done|].
  destruct (String.eqb k0 k) eqn:E; [by eexists|].
  apply String.eqb_neq in E. intros [H|H]; [done|by apply IH].
Qed.

Lemma keys_setDevice (k : string) (f : DeviceState -> DeviceState) (s : LifxStore) :
  JsObject.keys (devices (setDevice k f s)) = JsObject.keys (devices s).
Proof. apply keys_update. Qed.

Lemma keys_selection_loop (b : bool) (l : list string) (s : LifxStore) :
  JsObject.keys
    (devices
       (forEach l
          (fun k acc => if dev_online k acc then setDevice k (set_selected b) acc else acc)
          s))
  = JsObject.keys (devices s).
Proof.
  apply (forEach_ind
           (fun acc => JsObject.keys (devices acc) = JsObject.keys (devices s)));
    [done|].
  intros x acc H. destruct (dev_online x acc); [|done].
  by rewrite keys_setDevice.
Qed.

Lemma keys_deselect_loop (l : list string) (s : LifxStore) :
  JsObject.keys (devices (forEach l (fun k => setDevice k (set_selected false)) s))
  = JsObject.keys (devices s).
Proof.
  apply (forEach_ind
           (fun acc => JsObject.keys (devices acc) = JsObject.keys (devices s)));
    [done|].
  intros x acc H. by rewrite keys_setDevice.
Qed.

(** The batch of a refresh rewrites one record in place. *)
Lemma devices_batchBody (sn : string) (r : Results) (now : Z) (s : LifxStore) :
  exists f : DeviceState -> DeviceState,
    devices (batchBody sn r now s) = JsObject.update sn f (devices s).
Proof.
  assert (Hcomp : forall (f g : DeviceState -> DeviceState) o,
            JsObject.update sn g (JsObject.update sn f o)
            = JsObject.update sn (fun d => g (f d)) o).
  { intros f g o. unfold JsObject.update. rewrite map_map. apply map_ext.
    intros [k0 v]. simpl. destruct (String.eqb k0 sn) eqn:E; simpl; by rewrite ?E. }
  assert (Hid : forall o : JsObject.t DeviceState,
            o = JsObject.update sn (fun d => d) o).
  { intros o. unfold JsObject.update. rewrite <- (map_id o) at 1. apply map_ext.
    intros [k0 v]. simpl. by destruct (String.eqb k0 sn). }
  assert (Hset : forall f s0 g,
            devices s0 = JsObject.update sn g (devices s) ->
            devices (setDevice sn f s0)
            = JsObject.update sn (fun d => f (g d)) (devices s)).
  { intros f s0 g H. unfold setDevice. simpl. by rewrite H, Hcomp. }
  unfold batchBody. cbv zeta. destruct r as [rc rl rg rv].
  cbn [versionResult colorResult labelResult groupResult].
  assert (Hv : exists f, devices (applyVersion sn rv s) = JsObject.update sn f (devices s)).
  { unfold applyVersion. destruct rv as [v|]; [|by eexists]. cbv zeta.
    destruct (existsb _ _); eexists; apply Hset, Hset, Hid. }
  destruct Hv as [fv Hv].
  assert (Hc : exists f, devices (applyColor sn rc (applyVersion sn rv s))
                         = JsObject.update sn f (devices s)).
  { unfold applyColor. destruct rc as [c|]; [|by eexists]. cbv zeta.
    destruct (ls_power c); eexists; [apply Hset, Hset, Hv|apply Hset, Hv]. }
  destruct Hc as [fc Hc].
  assert (Hl : exists f, devices (applyLabel sn rl (applyColor sn rc (applyVersion sn rv s)))
                         = JsObject.update sn f (devices s)).
  { unfold applyLabel. destruct rl as [l|]; [|by eexists].
    destruct (String.eqb l EmptyString); eexists; [exact Hc|apply Hset, Hc]. }
  destruct Hl as [fl Hl].
  assert (Hg : exists f,
            devices (applyGroup sn rg
                       (applyLabel sn rl (applyColor sn rc (applyVersion sn rv s))))
            = JsObject.update sn f (devices s)).
  { destruct rg as [g|]; [|by eexists].
    rewrite devices_applyGroup. eexists. apply Hset, Hset, Hl. }
  destruct Hg as [fg Hg].
  eexists. apply Hset, Hset, Hg.
Qed.

Lemma keys_batchBody (sn : string) (r : Results) (now : Z) (s : LifxStore) :
  JsObject.keys (devices (batchBody sn r now s)) = JsObject.keys (devices s).
Proof.
  destruct (devices_batchBody sn r now s) as [f ->]. apply keys_update.
Qed.

Lemma selectedDevices_batchBody (sn : string) (r : Results) (now : Z) (s : LifxStore) :
  selectedDevices (batchBody sn r now s) = selectedDevices s
  /\ isScanning (batchBody sn r now s) = isScanning s.
Proof.
  unfold batchBody. cbv zeta. destruct r as [rc rl rg rv].
  cbn [versionResult colorResult labelResult groupResult].
  unfold applyGroup, applyLabel, applyColor, applyVersion.
  destruct rg as [g|]; [cbv zeta; destruct (JsObject.get _ _) as [g0|];
                        [destruct (includes sn (g_devices g0))|]|];
    (destruct rl as [l|]; [destruct (String.eqb l EmptyString)|]);
    (destruct rc as [c|]; [destruct (ls_power c)|]);
    (destruct rv as [v|]; [destruct (existsb _ _)|]); split; reflexivity.
Qed.

(** ** The loop of [setColor] and [setPower] *)

Lemma control_loop (t : string -> bool) (setter : DeviceState -> DeviceState)
    (cmd : Command) (l : list string) (w : World) :
  (forall d, online (setter d) = online d) ->
  (forall d, setter (setter d) = setter d) ->
  let w' :=
    forEach l
      (fun sn acc =>
         match JsObject.get sn (devices (store acc)) with
         | Some deviceState =>
             if online deviceState then
               if t sn then acc
               else
                 mkWorld (setDevice sn setter (store acc))
                   (pendingQueries acc) (awaiting acc)
                   (outbox acc ++ [(cmd, sn)])
             else acc
         | None => acc
         end)
      w in
  (forall k,
     JsObject.get k (devices (store w'))
     = option_map
         (fun d => if includes k l && online d && negb (t k) then setter d else d)
         (JsObject.get k (devices (store w))))
  /\ outbox w'
     = outbox w
       ++ map (fun sn => (cmd, sn))
            (List.filter (fun sn => dev_online sn (store w) && negb (t sn)) l)
  /\ JsObject.keys (devices (store w')) = JsObject.keys (devices (store w))
  /\ selectedDevices (store w') = selectedDevices (store w)
  /\ groups (store w') = groups (store w)
  /\ isScanning (store w') = isScanning (store w)
  /\ pendingQueries w' = pendingQueries w
  /\ awaiting w' = awaiting w.
Proof.
  intros Hon Hidem. cbv zeta. revert w. induction l as [|x l IH]; intros w.
  - simpl. split; [|by rewrite app_nil_r].
    intros k. by destruct (JsObject.get k (devices (store w))).
  - change (forEach (x :: l) ?f w) with (forEach l f (f x w)).
    set (w1 := match JsObject.get x (devices (store w)) with
               | Some deviceState =>
                   if online deviceState then
                     if t x then w
                     else
                       mkWorld (setDevice x setter (store w))
                         (pendingQueries w) (awaiting w)
                         (outbox w ++ [(cmd, x)])
                   else w
               | None => w
               end).
    destruct (IH w1) as (IHg & IHo & IHk & IHs & IHgr & IHsc & IHp & IHa).
    assert (Honl : forall k, dev_online k (store w1) = dev_online k (store w)).
    { intros k. subst w1. destruct (JsObject.get x (devices (store w))) as [dx|]; [|done].
      destruct (online dx); [|done]. destruct (t x); [done|].
      simpl store. by apply dev_online_setDevice. }
    assert (Hfr : JsObject.keys (devices (store w1)) = JsObject.keys (devices (store w))
                  /\ selectedDevices (store w1) = selectedDevices (store w)
                  /\ groups (store w1) = groups (store w)
                  /\ isScanning (store w1) = isScanning (store w)
                  /\ pendingQueries w1 = pendingQueries w
                  /\ awaiting w1 = awaiting w).
    { subst w1. destruct (JsObject.get x (devices (store w))) as [dx|]; [|done].
      destruct (online dx); [|done]. destruct (t x); [done|].
      simpl. by rewrite keys_update. }
    destruct Hfr as (Hk & Hs & Hgr & Hsc & Hp & Ha).
    split; [|split; [|by rewrite IHk, IHs, IHgr, IHsc, IHp, IHa]].
    + intros k. rewrite IHg, includes_cons. subst w1.
      destruct (String.eqb k x) eqn:E.
      * apply String.eqb_eq in E. subst x.
        destruct (JsObject.get k (devices (store w))) as [d|] eqn:Ed;
          [|by rewrite Ed].
        destruct (online d) eqn:Eo;
          [|by rewrite Ed; simpl; rewrite Eo, andb_false_r].
        destruct (t k) eqn:Et.
        -- rewrite Ed. simpl. by rewrite Eo, !andb_false_r.
        -- simpl store. rewrite get_setDevice_same, Ed. simpl.
           rewrite Hon, Eo, Hidem. by destruct (includes k l).
      * assert (Hk' : k <> x) by by apply String.eqb_neq.
        destruct (JsObject.get x (devices (store w))) as [dx|]; [|done].
        destruct (online dx); [|done]. destruct (t x); [done|].
        simpl store. by rewrite get_setDevice_other.
    + rewrite IHo.
      rewrite (filter_ext (fun sn => dev_online sn (store w1) && negb (t sn))
                 (fun sn => dev_online sn (store w) && negb (t sn)))
        by (intros a; by rewrite Honl).
      simpl List.filter. unfold dev_online at 2. subst w1.
      destruct (JsObject.get x (devices (store w))) as [dx|]; [|done].
      destruct (online dx); [|done]. destruct (t x); [done|].
      simpl. by rewrite <- app_assoc.
Qed.

(** ** How the device dictionary evolves *)

Lemma evolves_setDevice (o : JsObject.t DeviceState) (k : string)
    (f : DeviceState -> DeviceState) (s : LifxStore) :
  (forall d, serialNumber (f d) = serialNumber d) ->
  (forall d, deviceType (f d) = deviceType d \/ deviceType (f d) <> unknown) ->
  evolves o (devices s) -> evolves o (devices (setDevice k f s)).
Proof. intros H1 H2 H. by apply evolves_update. Qed.

Ltac evolve_record :=
  repeat first
    [ assumption
    | apply evolves_refl
    | apply evolves_setDevice;
      [ reflexivity
      | intros ?; first [ left; reflexivity | right; discriminate ]
      | ] ].

Lemma evolves_batchBody (o : JsObject.t DeviceState) (sn : string)
    (r : Results) (now : Z) (s : LifxStore) :
  evolves o (devices s) -> evolves o (devices (batchBody sn r now s)).
Proof.
  intros H. unfold batchBody. cbv zeta. destruct r as [rc rl rg rv].
  cbn [versionResult colorResult labelResult groupResult].
  assert (Hv : evolves o (devices (applyVersion sn rv s))).
  { unfold applyVersion. destruct rv as [v|]; [|done]. cbv zeta.
    destruct (existsb _ _); evolve_record. }
  assert (Hc : evolves o (devices (applyColor sn rc (applyVersion sn rv s)))).
  { unfold applyColor. destruct rc as [c|]; [|done]. cbv zeta.
    destruct (ls_power c); evolve_record. }
  assert (Hl : evolves o (devices (applyLabel sn rl
                                     (applyColor sn rc (applyVersion sn rv s))))).
  { unfold applyLabel. destruct rl as [l|]; [|done].
    destruct (String.eqb l EmptyString); evolve_record. }
  assert (Hg : evolves o
                 (devices (applyGroup sn rg
                             (applyLabel sn rl
                                (applyColor sn rc (applyVersion sn rv s)))))).
  { destruct rg as [g|]; [|done]. rewrite devices_applyGroup. evolve_record. }
  evolve_record.
Qed.

Lemma evolves_queryDeviceState (o : JsObject.t DeviceState) (dev : Device)
    (k : nat) (w : World) :
  evolves o (devices (store w)) ->
  evolves o (devices (store (queryDeviceState dev k w))).
Proof.
  intros H. unfold queryDeviceState. cbv zeta.
  destruct (bool_decide _); [done|].
  destruct (4 <=? k)%nat; [done|]. simpl store. evolve_record.
Qed.

Lemma evolves_control_loop (t : string -> bool)
    (setter : DeviceState -> DeviceState) (cmd : string -> Command)
    (l : list string) (w : World) :
  (forall d, serialNumber (setter d) = serialNumber d) ->
  (forall d, deviceType (setter d) = deviceType d) ->
  evolves (devices (store w))
    (devices
       (store
          (forEach l
             (fun sn acc =>
                match JsObject.get sn (devices (store acc)) with
                | Some deviceState =>
                    if online deviceState then
                      if t sn then acc
                      else
                        mkWorld (setDevice sn setter (store acc))
                          (pendingQueries acc) (awaiting acc)
                          (outbox acc ++ [(cmd sn, sn)])
                    else acc
                | None => acc
                end)
             w))).
Proof.
  intros H1 H2.
  apply (forEach_ind (fun acc => evolves (devices (store w)) (devices (store acc))));
    [apply evolves_refl|].
  intros x acc H. destruct (JsObject.get x _) as [dx|]; [|done].
  destruct (online dx); [|done]. destruct (t x); [done|].
  simpl store. apply evolves_setDevice; [done|by left|done].
Qed.

(** Every operation of the store rewrites records in place or appends a
    record for a new serial number. *)
Lemma exec_evolves (e : Event) (w : World) :
  evolves (devices (store w)) (devices (store (exec e w))).
Proof.
  destruct e; cbn [exec].
  - unfold registerDevice. apply evolves_queryDeviceState.
    cbn [store with_store]. unfold upsertDevice. cbv zeta.
    destruct (JsObject.get (dev_serialNumber dev) (devices (store w))) eqn:E.
    + evolve_record.
    + cbn [devices with_devices]. unfold JsObject.put. rewrite E.
      apply evolves_new; [apply evolves_refl|done|reflexivity].
  - apply evolves_queryDeviceState, evolves_refl.
  - unfold queryDeviceState_resume. cbn [store].
    destruct (JsObject.get sn (devices (store w))); [|apply evolves_refl].
    apply evolves_batchBody, evolves_refl.
  - cbn [store with_store]. unfold toggleSelect.
    destruct (JsObject.get sn (devices (store w))); [|apply evolves_refl].
    unfold updateSelectedList. cbn [devices with_selectedDevices]. evolve_record.
  - cbn [store with_store]. unfold selectDevice. cbv zeta.
    assert (H : evolves (devices (store w))
                  (devices (forEach (JsObject.keys (devices (store w)))
                              (fun k => setDevice k (set_selected false)) (store w)))).
    { apply (forEach_ind (fun acc => evolves (devices (store w)) (devices acc)));
        [apply evolves_refl|]. intros x acc Ha. evolve_record. }
    destruct (JsObject.get sn _); [|exact H].
    unfold updateSelectedList. cbn [devices with_selectedDevices]. evolve_record.
  - cbn [store with_store]. unfold selectAll, updateSelectedList.
    cbn [devices with_selectedDevices].
    apply (forEach_ind (fun acc => evolves (devices (store w)) (devices acc)));
      [apply evolves_refl|].
    intros x acc Ha. destruct (dev_online x acc); evolve_record.
  - cbn [store with_store]. unfold selectNone, updateSelectedList.
    cbn [devices with_selectedDevices].
    apply (forEach_ind (fun acc => evolves (devices (store w)) (devices acc)));
      [apply evolves_refl|].
    intros x acc Ha. evolve_record.
  - cbn [store with_store]. unfold selectGroup.
    destruct (JsObject.get groupId0 (groups (store w))); [|apply evolves_refl].
    unfold updateSelectedList. cbn [devices with_selectedDevices].
    apply (forEach_ind (fun acc => evolves (devices (store w)) (devices acc)));
      [apply evolves_refl|].
    intros x acc Ha. destruct (dev_online x acc); evolve_record.
  - cbn [store with_store]. unfold toggleGroup.
    destruct (JsObject.get groupId0 (groups (store w))); apply evolves_refl.
  - unfold setColor. cbv zeta. destruct (_ =? _)%nat; [apply evolves_refl|].
    by apply (evolves_control_loop unicastThrows (set_color hsbk)
                (fun _ => SetColorCommand (hue hsbk) (saturation hsbk)
                            (brightness hsbk) (kelvin hsbk) duration)).
  - unfold setPower. cbv zeta. destruct (_ =? _)%nat; [apply evolves_refl|].
    by apply (evolves_control_loop unicastThrows (set_power on)
                (fun _ => SetLightPowerCommand on duration)).
  - unfold togglePower, setPower. cbv zeta.
    destruct (_ =? _)%nat; [apply evolves_refl|].
    by apply (evolves_control_loop unicastThrows
                (set_power (negb (anyOn (store w))))
                (fun _ => SetLightPowerCommand (negb (anyOn (store w))) 0)).
  - apply evolves_refl.
  - apply evolves_refl.
Qed.

Lemma evolves_trans (a b c : JsObject.t DeviceState) :
  evolves a b -> evolves b c -> evolves a c.
Proof.
  intros Hab Hbc. induction Hbc as [|o' k f H IH H1 H2|o' k v H IH Hn Hv].
  - exact Hab.
  - by apply evolves_update.
  - by apply evolves_new.
Qed.

Lemma run_evolves (es : list Event) (w : World) :
  evolves (devices (store w)) (devices (store (run es w))).
Proof.
  revert w. unfold run. induction es as [|e es IH]; intros w; simpl.
  - apply evolves_refl.
  - eapply evolves_trans; [apply exec_evolves|apply IH].
Qed.

Lemma evolves_keys (o o' : JsObject.t DeviceState) :
  evolves o o' -> JsObject.keys o `prefix_of` JsObject.keys o'.
Proof.
  induction 1 as [|o' k f H IH H1 H2|o' k v H IH Hn Hv].
  - done.
  - by rewrite keys_update.
  - unfold JsObject.keys. rewrite map_app. by apply prefix_app_r.
Qed.

Lemma evolves_get (o o' : JsObject.t DeviceState) (k : string) (d : DeviceState) :
  evolves o o' ->
  JsObject.get k o = Some d ->
  exists d',
    JsObject.get k o' = Some d'
    /\ serialNumber d' = serialNumber d
    /\ (deviceType d <> unknown -> deviceType d' <> unknown).
Proof.
  intros Hev Hd. induction Hev as [|o' k0 f H IH H1 H2|o' k0 v H IH Hn Hv].
  - by exists d.
  - destruct IH as (d' & Hg & Hs & Ht). rewrite get_update, Hg.
    destruct (String.eqb k k0); [|by exists d'].
    exists (f d'). simpl. split; [done|]. split; [by rewrite H1|].
    intros Hu. destruct (H2 d') as [E|E]; [rewrite E; by apply Ht|done].
  - destruct IH as (d' & Hg & Hs & Ht). exists d'.
    by rewrite get_app, Hg.
Qed.

Lemma evolves_wf (o o' : JsObject.t DeviceState) :
  evolves o o' ->
  NoDup (JsObject.keys o)
  /\ (forall k d, JsObject.get k o = Some d -> serialNumber d = k) ->
  NoDup (JsObject.keys o')
  /\ (forall k d, JsObject.get k o' = Some d -> serialNumber d = k).
Proof.
  intros Hev Hwf. induction Hev as [|o' k0 f H IH H1 H2|o' k0 v H IH Hn Hv].
  - done.
  - destruct IH as [Hnd Hsn]. split; [by rewrite keys_update|].
    intros k d. rewrite get_update. destruct (String.eqb k k0).
    + destruct (JsObject.get k o') as [d0|] eqn:E; [|done]. simpl.
      intros [= <-]. rewrite H1. by apply Hsn.
    + apply Hsn.
  - destruct IH as [Hnd Hsn]. split.
    + unfold JsObject.keys. rewrite map_app. simpl.
      apply NoDup_app. split; [exact Hnd|]. split; [|apply NoDup_singleton].
      intros x Hx ->%list_elem_of_singleton. by apply (get_None_keys _ _ Hn).
    + intros k d. rewrite get_app.
      destruct (JsObject.get k o') as [d0|] eqn:E.
      * intros [= <-]. by apply Hsn.
      * simpl. destruct (String.eqb k0 k) eqn:Ek; [|done].
        apply String.eqb_eq in Ek. subst k. by intros [= <-].
Qed.

Lemma reachable_devicesWf (w : World) : reachable w -> devicesWf (store w).
Proof.
  induction 1 as [|w e Hr IH Hen].
  - split; [constructor|]. intros k d. simpl. done.
  - exact (evolves_wf _ _ (exec_evolves e w) IH).
Qed.

(** X1. One record per device identity: in every reachable state the
    serial numbers that key the device dictionary are distinct, and each
    record is stored under the serial number it carries. *)
Theorem one_record_per_identity (w : World) :
  reachable w -> devicesWf (store w).
Proof. apply reachable_devicesWf. Qed.

Lemma one_record_per_identity_witness :
  reachable Examples.discovered
  /\ JsObject.keys (devices (store Examples.discovered)) = ["d073d5000001"]
  /\ devicesWf (store Examples.discovered).
Proof.
  split; [exact reachable_discovered|]. split; [vm_compute; reflexivity|].
  apply one_record_per_identity. exact reachable_discovered.
Defined.

(** X2. Device records are never removed or reordered: after any
    sequence of store operations the key list of before is a prefix of the
    key list of after (new registrations go to the end), and a device that
    had a record still has one, with the same serial number. *)
Theorem device_records_persist (es : list Event) (w : World) :
  JsObject.keys (devices (store w))
    `prefix_of` JsObject.keys (devices (store (run es w)))
  /\ forall k d,
       JsObject.get k (devices (store w)) = Some d ->
       exists d',
         JsObject.get k (devices (store (run es w))) = Some d'
         /\ serialNumber d' = serialNumber d.
Proof.
  split.
  - apply evolves_keys, run_evolves.
  - intros k d Hd.
    destruct (evolves_get _ _ k d (run_evolves es w) Hd) as (d' & Hg & Hs & _).
    by exists d'.
Qed.



(** ** The selection list *)

Lemma filter_sublist {A : Type} (f : A -> bool) (l : list A) :
  List.filter f l `sublist_of` l.
Proof.
  induction l as [|x l IH]; simpl; [constructor|].
  destruct (f x); by constructor.
Qed.

(** An operation either leaves the selection list alone or recomputes it
    from the keys of the device dictionary. *)
Lemma exec_selection (e : Event) (w : World) :
  selectedDevices (store (exec e w)) = selectedDevices (store w)
  \/ exists f,
       selectedDevices (store (exec e w))
       = List.filter f (JsObject.keys (devices (store (exec e w)))).
Proof.
  assert (Hq : forall dev k w0,
            selectedDevices (store (queryDeviceState dev k w0))
            = selectedDevices (store w0)).
  { intros dev k w0. unfold queryDeviceState. cbv zeta.
    destruct (bool_decide _); [done|]. by destruct (4 <=? k)%nat. }
  destruct e; cbn [exec].
  - left. unfold registerDevice. rewrite Hq. cbn [store with_store].
    unfold upsertDevice. cbv zeta. by destruct (JsObject.get _ _).
  - left. apply Hq.
  - left. unfold queryDeviceState_resume. cbn [store].
    destruct (JsObject.get sn _); [|done]. apply selectedDevices_batchBody.
  - cbn [store with_store]. unfold toggleSelect.
    destruct (JsObject.get sn _); [|by left]. right. by eexists.
  - cbn [store with_store]. unfold selectDevice. cbv zeta.
    destruct (JsObject.get sn _); [right; by eexists|]. left.
    by apply (forEach_ind
                (fun acc => selectedDevices acc = selectedDevices (store w))).
  - right. by eexists.
  - right. by eexists.
  - cbn [store with_store]. unfold selectGroup.
    destruct (JsObject.get groupId0 _); [right; by eexists|by left].
  - left. cbn [store with_store]. unfold toggleGroup.
    by destruct (JsObject.get groupId0 _).
  - left. unfold setColor. cbv zeta. destruct (_ =? _)%nat; [done|].
    apply (control_loop unicastThrows (set_color hsbk)
             (SetColorCommand (hue hsbk) (saturation hsbk) (brightness hsbk)
                (kelvin hsbk) duration)); done.
  - left. apply setPower_effect with (k := EmptyString).
  - left. unfold togglePower. cbv zeta. destruct (_ =? _)%nat; [done|].
    apply setPower_effect with (k := EmptyString).
  - by left.
  - by left.
Qed.

(** X4. The selection list is always in registration order and free of
    duplicates: in every reachable state it is a sub-list of
    [Object.keys(store.devices)], whatever the order in which the devices
    were selected. *)
Theorem selection_in_registration_order (w : World) :
  reachable w ->
  selectedDevices (store w) `sublist_of` JsObject.keys (devices (store w))
  /\ NoDup (selectedDevices (store w)).
Proof.
  intros Hr.
  assert (Hsub : selectedDevices (store w)
                   `sublist_of` JsObject.keys (devices (store w))).
  { induction Hr as [|w e Hr IH Hen]; [constructor|].
    destruct (exec_selection e w) as [->|[f ->]].
    - destruct (evolves_keys _ _ (exec_evolves e w)) as [k ->].
      by apply sublist_inserts_r.
    - apply filter_sublist. }
  split; [exact Hsub|].
  eapply sublist_NoDup; [|exact Hsub].
  apply (reachable_devicesWf w Hr).
Qed.

Lemma selection_in_registration_order_witness :
  reachable Examples.discovered
  /\ selectedDevices (store (run [ERegisterDevice Examples.strip 1000 4;
                                  EToggleSelect "d073d5000002";
                                  EToggleSelect "d073d5000001"]
                               Examples.discovered))
     = ["d073d5000001"; "d073d5000002"]
  /\ NoDup (selectedDevices (store Examples.discovered)).
Proof.
  split; [exact reachable_discovered|]. split; [vm_compute; reflexivity|].
  apply (selection_in_registration_order Examples.discovered reachable_discovered).
Defined.

(** ** Selection operations *)

Lemma filter_none {A : Type} (f : A -> bool) (l : list A) :
  (forall x, In x l -> f x = false) -> List.filter f l = [].
Proof.
  induction l as [|x l IH]; simpl; [done|]. intros H.
  rewrite (H x) by by left. apply IH. intros y Hy. apply H. by right.
Qed.

Lemma filter_one (sn : string) (l : list string) :
  NoDup l -> In sn l -> List.filter (fun k => String.eqb k sn) l = [sn].
Proof.
  induction 1 as [|x l Hx Hl IH]; simpl; [done|].
  destruct (String.eqb x sn) eqn:E.
  - apply String.eqb_eq in E. subst x. intros _. f_equal.
    apply filter_none. intros y Hy. apply String.eqb_neq. intros ->.
    by apply Hx, list_elem_of_In.
  - apply String.eqb_neq in E. intros [H|H]; [done|by apply IH].
Qed.

Lemma get_deselect_loop (l : list string) (s : LifxStore) (k : string) :
  JsObject.get k
    (devices (forEach l (fun k => setDevice k (set_selected false)) s))
  = option_map (fun d => if includes k l then set_selected false d else d)
      (JsObject.get k (devices s)).
Proof.
  revert s. induction l as [|x l IH]; intros s.
  - simpl. by destruct (JsObject.get k (devices s)).
  - change (forEach (x :: l) ?f s) with (forEach l f (f x s)).
    rewrite IH, includes_cons, get_setDevice.
    destruct (String.eqb k x); simpl.
    + destruct (JsObject.get k (devices s)); [|done]. simpl.
      by destruct (includes k l).
    + done.
Qed.

Lemma includes_keys (k : string) (d : DeviceState) (s : LifxStore) :
  JsObject.get k (devices s) = Some d ->
  includes k (JsObject.keys (devices s)) = true.
Proof. intros H. apply includes_In. by apply (get_Some_keys k d). Qed.

(** X5. [selectNone()] deselects every device: afterwards no record is
    flagged selected and the selection list is empty; no record is added
    or removed, no other field of a record and no group changes. *)
Theorem selectNone_clears (s : LifxStore) :
  selectedDevices (selectNone s) = []
  /\ (forall k,
        JsObject.get k (devices (selectNone s))
        = option_map (set_selected false) (JsObject.get k (devices s)))
  /\ JsObject.keys (devices (selectNone s)) = JsObject.keys (devices s)
  /\ groups (selectNone s) = groups s.
Proof.
  assert (Hget : forall k,
            JsObject.get k (devices (selectNone s))
            = option_map (set_selected false) (JsObject.get k (devices s))).
  { intros k. unfold selectNone, updateSelectedList.
    cbn [devices with_selectedDevices]. rewrite get_deselect_loop.
    destruct (JsObject.get k (devices s)) as [d|] eqn:E; [|done]. simpl.
    by rewrite (includes_keys k d s E). }
  split; [|split; [exact Hget|split; [apply keys_deselect_loop|apply groups_selectNone]]].
  unfold selectNone, updateSelectedList. cbn [selectedDevices with_selectedDevices].
  apply filter_none. intros k _. unfold dev_selected.
  rewrite get_deselect_loop.
  destruct (JsObject.get k (devices s)) as [d|] eqn:E; [|done]. simpl.
  by rewrite (includes_keys k d s E).
Qed.

(** X6. [selectAll()] selects every online device and deselects nothing:
    afterwards a device is selected exactly when it is online or was
    selected before, so an offline device that was selected stays in the
    selection list; the list is in registration order. *)
Theorem selectAll_keeps_offline_selection (s : LifxStore) :
  (forall k,
     dev_selected k (selectAll s) = dev_online k s || dev_selected k s)
  /\ selectedDevices (selectAll s)
     = List.filter (fun k => dev_online k s || dev_selected k s)
         (JsObject.keys (devices s))
  /\ (forall k,
        JsObject.get k (devices (selectAll s))
        = option_map (fun d => if online d then set_selected true d else d)
            (JsObject.get k (devices s))).
Proof.
  assert (Hget : forall k,
            JsObject.get k (devices (selectAll s))
            = option_map (fun d => if online d then set_selected true d else d)
                (JsObject.get k (devices s))).
  { intros k. unfold selectAll, updateSelectedList.
    cbn [devices with_selectedDevices]. rewrite get_forEach_select.
    destruct (JsObject.get k (devices s)) as [d|] eqn:E; [|done]. simpl.
    by rewrite (includes_keys k d s E). }
  assert (Hsel : forall k,
            dev_selected k (selectAll s) = dev_online k s || dev_selected k s).
  { intros k. unfold dev_selected, dev_online. rewrite Hget.
    destruct (JsObject.get k (devices s)) as [d|]; [|done]. simpl.
    by destruct (online d). }
  split; [exact Hsel|]. split; [|exact Hget].
  change (selectedDevices (selectAll s))
    with (List.filter (fun sn => dev_selected sn (selectAll s))
            (JsObject.keys (devices (selectAll s)))).
  unfold selectAll at 2, updateSelectedList. cbn [devices with_selectedDevices].
  rewrite keys_selection_loop. apply filter_ext. exact Hsel.
Qed.

(** X7. [selectDevice(sn)] for a device that has a record makes it the
    only selected device, whether it is online or not: its flag is the
    only one set and the selection list is [[sn]]. *)
Theorem selectDevice_selects_exactly_one (s : LifxStore) (sn : string)
    (d : DeviceState) :
  JsObject.get sn (devices s) = Some d ->
  NoDup (JsObject.keys (devices s)) ->
  (forall k, dev_selected k (selectDevice sn s) = String.eqb k sn)
  /\ selectedDevices (selectDevice sn s) = [sn].
Proof.
  intros Hd Hnd.
  set (s1 := forEach (JsObject.keys (devices s))
               (fun k => setDevice k (set_selected false)) s).
  assert (H1 : forall k,
            JsObject.get k (devices s1)
            = option_map (set_selected false) (JsObject.get k (devices s))).
  { intros k. subst s1. rewrite get_deselect_loop.
    destruct (JsObject.get k (devices s)) as [d0|] eqn:E; [|done]. simpl.
    by rewrite (includes_keys k d0 s E). }
  assert (Hs : selectDevice sn s
               = updateSelectedList (setDevice sn (set_selected true) s1)).
  { unfold selectDevice. cbv zeta. fold s1. by rewrite H1, Hd. }
  assert (Hsel : forall k,
            dev_selected k (setDevice sn (set_selected true) s1) = String.eqb k sn).
  { intros k. unfold dev_selected. rewrite get_setDevice, H1.
    destruct (String.eqb k sn) eqn:E.
    - apply String.eqb_eq in E. subst k. by rewrite Hd.
    - by destruct (JsObject.get k (devices s)). }
  rewrite Hs. split; [exact Hsel|].
  unfold updateSelectedList. cbn [selectedDevices with_selectedDevices].
  rewrite (filter_ext _ (fun k => String.eqb k sn)) by exact Hsel.
  subst s1. rewrite keys_setDevice, keys_deselect_loop.
  apply filter_one; [exact Hnd|by apply (get_Some_keys sn d)].
Qed.

Lemma selectDevice_selects_exactly_one_witness :
  JsObject.get "d073d5000001" (devices (store Examples.lampOffline))
  = JsObject.get "d073d5000001" (devices (store Examples.lampOffline))
  /\ NoDup (JsObject.keys (devices (store Examples.lampOffline)))
  /\ dev_online "d073d5000001" (store Examples.lampOffline) = false
  /\ selectedDevices (selectDevice "d073d5000001" (store Examples.lampOffline))
     = ["d073d5000001"].
Proof.
  assert (Hnd : NoDup (JsObject.keys (devices (store Examples.lampOffline)))).
  { apply (bool_decide_unpack
             (NoDup (JsObject.keys (devices (store Examples.lampOffline))))).
    vm_compute. exact I. }
  split; [reflexivity|]. split; [exact Hnd|]. split; [vm_compute; reflexivity|].
  destruct (JsObject.get "d073d5000001" (devices (store Examples.lampOffline)))
    as [d|] eqn:E; [|vm_compute in E; discriminate E].
  apply (selectDevice_selects_exactly_one (store Examples.lampOffline)
           "d073d5000001" d E Hnd).
Defined.

Lemma devices_updateSelectedList (s : LifxStore) :
  devices (updateSelectedList s) = devices s.
Proof. reflexivity. Qed.

(** X8. [toggleSelect(sn)] is its own inverse: two calls in a row leave
    every device record and every group as they were, and when the
    selection list agreed with the flags before, it is the same list
    after. *)
Theorem toggleSelect_twice (s : LifxStore) (sn : string) :
  let s2 := toggleSelect sn (toggleSelect sn s) in
  (forall k, JsObject.get k (devices s2) = JsObject.get k (devices s))
  /\ groups s2 = groups s
  /\ (selectionInSync s -> selectedDevices s2 = selectedDevices s).
Proof.
  cbv zeta. destruct (JsObject.get sn (devices s)) as [d|] eqn:Hd.
  2:{ unfold toggleSelect. rewrite Hd, Hd. done. }
  set (s1 := setDevice sn (set_selected (negb (selected d))) s).
  assert (H1 : toggleSelect sn s = updateSelectedList s1).
  { unfold toggleSelect. by rewrite Hd. }
  assert (Hd1 : JsObject.get sn (devices (updateSelectedList s1))
                = Some (set_selected (negb (selected d)) d)).
  { unfold updateSelectedList. cbn [devices with_selectedDevices].
    subst s1. by rewrite get_setDevice_same, Hd. }
  assert (H2 : toggleSelect sn (toggleSelect sn s)
               = updateSelectedList
                   (setDevice sn (set_selected (selected d)) (updateSelectedList s1))).
  { rewrite H1. unfold toggleSelect at 1. rewrite Hd1. simpl selected.
    by rewrite negb_involutive. }
  assert (Hget : forall k,
            JsObject.get k (devices (toggleSelect sn (toggleSelect sn s)))
            = JsObject.get k (devices s)).
  { intros k. rewrite H2. subst s1.
    rewrite devices_updateSelectedList, get_setDevice,
      devices_updateSelectedList, get_setDevice.
    destruct (String.eqb k sn) eqn:E; [|reflexivity].
    apply String.eqb_eq in E. subst k. rewrite Hd. simpl.
    by rewrite set_selected_idem, set_selected_same. }
  split; [exact Hget|]. split; [by rewrite !groups_toggleSelect|].
  intros Hsync. rewrite Hsync. rewrite H2 at 1.
  unfold updateSelectedList at 1. cbn [selectedDevices with_selectedDevices].
  subst s1. rewrite keys_setDevice, devices_updateSelectedList, keys_setDevice.
  apply filter_ext. intros k.
  change (dev_selected k
            (setDevice sn (set_selected (selected d))
               (updateSelectedList
                  (setDevice sn (set_selected (negb (selected d))) s))))
    with (dev_selected k
            (updateSelectedList
               (setDevice sn (set_selected (selected d))
                  (updateSelectedList
                     (setDevice sn (set_selected (negb (selected d))) s))))).
  rewrite <- H2. unfold dev_selected. by rewrite Hget.
Qed.

(** X9. [toggleGroup(id)] is its own inverse and touches nothing but the
    expansion flag: two calls in a row give back the store exactly, and
    one call changes no device record, no member list and not the
    selection. *)
Theorem toggleGroup_twice (s : LifxStore) (groupId : string) :
  toggleGroup groupId (toggleGroup groupId s) = s
  /\ devices (toggleGroup groupId s) = devices s
  /\ selectedDevices (toggleGroup groupId s) = selectedDevices s
  /\ (forall sn gid, isMember sn gid (toggleGroup groupId s) = isMember sn gid s).
Proof.
  assert (Hflip : forall o : JsObject.t GroupState,
            JsObject.update groupId flip_expanded
              (JsObject.update groupId flip_expanded o) = o).
  { intros o. unfold JsObject.update. rewrite map_map.
    rewrite <- (map_id o) at 2. apply map_ext. intros [k g]. simpl.
    destruct (String.eqb k groupId) eqn:E; simpl; rewrite E; [|done].
    destruct g as [i l ds ex]. unfold flip_expanded. simpl.
    by rewrite negb_involutive. }
  unfold toggleGroup.
  destruct (JsObject.get groupId (groups s)) as [g|] eqn:Hg.
  - split; [|split; [done|split; [done|]]].
    + cbn [groups with_groups]. rewrite get_update_same, Hg. simpl.
      unfold with_groups. simpl. rewrite Hflip. by destruct s.
    + intros sn gid. unfold isMember. cbn [groups with_groups].
      rewrite get_update. destruct (String.eqb gid groupId); [|done].
      by destruct (JsObject.get gid (groups s)).
  - by rewrite Hg.
Qed.

(** ** Control commands *)

(** X10. [setColor(hsbk, duration)] sends exactly one set-colour command,
    carrying [hsbk] and [duration], to each selected device that is online
    and whose [client.unicast] does not raise, in selection order, and
    caches [hsbk] as the colour of exactly those devices. Offline, unknown
    and raising devices are skipped without stopping the loop; an empty
    selection sends nothing. Nothing else in the store changes. *)
Theorem setColor_one_command_per_online_device (t : string -> bool)
    (hsbk : HSBK) (duration : Z) (w : World) :
  let sel := selectedDevices (store w) in
  let w' := setColor t hsbk duration w in
  outbox w'
  = outbox w
    ++ map (fun sn =>
              (SetColorCommand (hue hsbk) (saturation hsbk) (brightness hsbk)
                 (kelvin hsbk) duration, sn))
         (List.filter (fun sn => dev_online sn (store w) && negb (t sn)) sel)
  /\ (forall k,
        JsObject.get k (devices (store w'))
        = option_map
            (fun d => if includes k sel && online d && negb (t k)
                      then set_color hsbk d else d)
            (JsObject.get k (devices (store w))))
  /\ selectedDevices (store w') = sel
  /\ groups (store w') = groups (store w)
  /\ pendingQueries w' = pendingQueries w.
Proof.
  cbv zeta. unfold setColor. cbv zeta.
  destruct (length (selectedDevices (store w)) =? 0)%nat eqn:El.
  - apply Nat.eqb_eq in El.
    destruct (selectedDevices (store w)); [|done]. simpl.
    rewrite app_nil_r. repeat split.
    intros k. by destruct (JsObject.get k (devices (store w))).
  - destruct (control_loop t (set_color hsbk)
                (SetColorCommand (hue hsbk) (saturation hsbk) (brightness hsbk)
                   (kelvin hsbk) duration)
                (selectedDevices (store w)) w)
      as (Hg & Ho & _ & Hs & Hgr & _ & Hp & _); done.
Qed.

(** X11. [setPower(on, duration)] sends exactly one set-power command to
    each selected device that is online and whose [client.unicast] does
    not raise, in selection order, and [togglePower()] sends the same
    commands with duration 0 and [on] true exactly when no selected device
    was on. *)
Theorem power_one_command_per_online_device (t : string -> bool) (w : World) :
  let sel := selectedDevices (store w) in
  let targets := List.filter (fun sn => dev_online sn (store w) && negb (t sn)) sel in
  (forall on duration,
     outbox (setPower t on duration w)
     = outbox w ++ map (fun sn => (SetLightPowerCommand on duration, sn)) targets)
  /\ outbox (togglePower t w)
     = outbox w
       ++ map (fun sn => (SetLightPowerCommand (negb (anyOn (store w))) 0, sn)) targets.
Proof.
  cbv zeta.
  assert (H : forall on duration,
            outbox (setPower t on duration w)
            = outbox w
              ++ map (fun sn => (SetLightPowerCommand on duration, sn))
                   (List.filter (fun sn => dev_online sn (store w) && negb (t sn))
                      (selectedDevices (store w)))).
  { intros on duration. unfold setPower. cbv zeta.
    destruct (length (selectedDevices (store w)) =? 0)%nat eqn:El.
    - apply Nat.eqb_eq in El.
      destruct (selectedDevices (store w)); [|done]. simpl. by rewrite app_nil_r.
    - by destruct (control_loop t (set_power on) (SetLightPowerCommand on duration)
                     (selectedDevices (store w)) w) as (_ & Ho & _). }
  split; [exact H|].
  unfold togglePower. cbv zeta.
  destruct (length (selectedDevices (store w)) =? 0)%nat eqn:El; [|apply H].
  apply Nat.eqb_eq in El.
  destruct (selectedDevices (store w)); [|done]. simpl. by rewrite app_nil_r.
Qed.

(** ** What a refresh leaves alone *)

Lemma selected_batchRecord (r : Results) (now : Z) (d : DeviceState) :
  selected (batchRecord r now d) = selected d
  /\ serialNumber (batchRecord r now d) = serialNumber d
  /\ device (batchRecord r now d) = device d.
Proof.
  unfold batchRecord. destruct r as [rc rl rg rv]. simpl.
  destruct rg as [g|]; (destruct rl as [l|]; [destruct (String.eqb l EmptyString)|]);
    (destruct rc as [c|]; [destruct (ls_power c)|]);
    destruct rv as [v|]; repeat split.
Qed.

(** X12. A resumed refresh of device [sn] writes the record of [sn] and
    nothing of any other device: every other record is untouched, no
    record is added, no selected flag and not the selection list changes,
    and the continuation sends no message. *)
Theorem refresh_touches_one_record (w : World) (sn : string) (r : Results)
    (now : Z) :
  let w' := queryDeviceState_resume sn r now w in
  (forall k, k <> sn ->
     JsObject.get k (devices (store w')) = JsObject.get k (devices (store w)))
  /\ JsObject.keys (devices (store w')) = JsObject.keys (devices (store w))
  /\ (forall k, dev_selected k (store w') = dev_selected k (store w))
  /\ selectedDevices (store w') = selectedDevices (store w)
  /\ isScanning (store w') = isScanning (store w)
  /\ outbox w' = outbox w.
Proof.
  cbv zeta. unfold queryDeviceState_resume. cbn [store outbox].
  destruct (JsObject.get sn (devices (store w))) as [d|] eqn:Hd; [|done].
  split; [intros k Hk; by apply get_batchBody_other|].
  split; [apply keys_batchBody|].
  split; [|split; [apply selectedDevices_batchBody|
                   split; [apply selectedDevices_batchBody|done]]].
  intros k. unfold dev_selected. destruct (String.eqb k sn) eqn:E.
  - apply String.eqb_eq in E. subst k. rewrite get_batchBody, Hd.
    cbn [option_map]. apply selected_batchRecord.
  - apply String.eqb_neq in E. by rewrite get_batchBody_other.
Qed.

(** ** Groups keep their identity *)

Lemma exec_group_fixed (e : Event) (w : World) (gid : string) (g : GroupState) :
  JsObject.get gid (groups (store w)) = Some g ->
  exists g',
    JsObject.get gid (groups (store (exec e w))) = Some g'
    /\ g_id g' = g_id g /\ g_label g' = g_label g.
Proof.
  intros Hg. pose proof (exec_groups e w) as He.
  destruct e; try (rewrite He; by exists g).
  - cbn [exec]. unfold queryDeviceState_resume. cbn [store].
    destruct (JsObject.get sn (devices (store w))); [|by exists g].
    rewrite groups_batchBody.
    set (s3 := applyLabel sn (labelResult r)
                 (applyColor sn (colorResult r)
                    (applyVersion sn (versionResult r) (store w)))).
    assert (H3 : groups s3 = groups (store w)).
    { subst s3. destruct r as [rc rl rg rv].
      cbn [versionResult colorResult labelResult].
      unfold applyLabel, applyColor, applyVersion.
      destruct rl as [l|]; [destruct (String.eqb l EmptyString)|];
        (destruct rc as [c|]; [destruct (ls_power c)|]);
        (destruct rv as [v|]; [destruct (existsb _ _)|]); reflexivity. }
    unfold applyGroup. destruct (groupResult r) as [gv|]; [|rewrite H3; by exists g].
    cbv zeta.
    change (groups (setDevice sn (set_groupId (sg_group gv))
                      (setDevice sn (set_group (sg_label gv)) s3)))
      with (groups s3).
    rewrite H3.
    destruct (JsObject.get (sg_group gv) (groups (store w))) as [g0|] eqn:E0.
    + destruct (includes sn (g_devices g0)).
      * cbn [groups setDevice with_devices]. rewrite H3. by exists g.
      * cbn [groups with_groups setDevice with_devices]. rewrite H3, get_update, Hg.
        destruct (String.eqb gid (sg_group gv)); by eexists.
    + cbn [groups with_groups setDevice with_devices]. rewrite H3, get_put.
      destruct (String.eqb gid (sg_group gv)) eqn:E.
      * apply String.eqb_eq in E. subst gid. congruence.
      * by exists g.
  - cbn [exec store with_store]. unfold toggleGroup.
    destruct (JsObject.get groupId0 (groups (store w))); [|by exists g].
    cbn [groups with_groups]. rewrite get_update, Hg.
    destruct (String.eqb gid groupId0); by eexists.
Qed.

(** X13. A group keeps the id and the label it was created with: no
    sequence of store operations changes them, even when a later group
    reply carries another label for the same id (the device's own [group]
    field takes the new label, the group record does not). *)
Theorem group_identity_is_fixed (es : list Event) (w : World) (gid : string)
    (g : GroupState) :
  JsObject.get gid (groups (store w)) = Some g ->
  exists g',
    JsObject.get gid (groups (store (run es w))) = Some g'
    /\ g_id g' = g_id g /\ g_label g' = g_label g.
Proof.
  revert w g. unfold run. induction es as [|e es IH]; intros w g Hg; simpl.
  - by exists g.
  - destruct (exec_group_fixed e w gid g Hg) as (g1 & H1 & Hi & Hl).
    destruct (IH _ g1 H1) as (g' & H' & Hi' & Hl').
    exists g'. split; [done|]. split; congruence.
Qed.

Lemma group_identity_is_fixed_witness :
  let relabel :=
    [EQueryDeviceState Examples.lamp 4;
     EResume "d073d5000001"
       (Examples.allAnswered "Lamp" (mkStateGroup "a1b2c3d4" "Lounge")) 3000] in
  option_map g_label
    (JsObject.get "a1b2c3d4" (groups (store Examples.inLivingRoom)))
  = Some "Living Room"
  /\ option_map group
       (JsObject.get "d073d5000001"
          (devices (store (run relabel Examples.inLivingRoom))))
     = Some "Lounge"
  /\ exists g',
       JsObject.get "a1b2c3d4" (groups (store (run relabel Examples.inLivingRoom)))
       = Some g'
       /\ g_label g' = "Living Room".
Proof.
  cbv zeta. split; [vm_compute; reflexivity|]. split; [vm_compute; reflexivity|].
  destruct (JsObject.get "a1b2c3d4" (groups (store Examples.inLivingRoom)))
    as [g|] eqn:E; [|vm_compute in E; discriminate E].
  destruct (group_identity_is_fixed
              [EQueryDeviceState Examples.lamp 4;
               EResume "d073d5000001"
                 (Examples.allAnswered "Lamp" (mkStateGroup "a1b2c3d4" "Lounge")) 3000]
              Examples.inLivingRoom "a1b2c3d4" g E) as (g' & Hg' & _ & Hl).
  exists g'. split; [exact Hg'|]. rewrite Hl.
  vm_compute in E. injection E as <-. reflexivity.
Defined.

(** ** The online flag, group ids and the drain of the transport *)

(** X14. A device that is online is marked offline by one thing only: a
    [client.send] that raises while its own refresh is being started
    (inside [queryDeviceState], directly or through [registerDevice]). No
    outcome of the four sub-queries, no selection, control or scan
    operation and no refresh of another device clears the flag. *)
Theorem online_flag_cleared_only_by_raising_send (e : Event) (w : World)
    (sn : string) :
  dev_online sn (store w) = true ->
  dev_online sn (store (exec e w)) = false ->
  exists dev k,
    (e = EQueryDeviceState dev k \/ exists now, e = ERegisterDevice dev now k)
    /\ dev_serialNumber dev = sn
    /\ (k < 4)%nat.
Proof. apply online_cleared_only_by_throw. Qed.

Lemma online_flag_cleared_only_by_raising_send_witness :
  dev_online "d073d5000001" (store Examples.bothSelected) = true
  /\ dev_online "d073d5000001"
       (store (exec (EQueryDeviceState Examples.lamp 0) Examples.bothSelected))
     = false
  /\ exists dev k,
       (EQueryDeviceState Examples.lamp 0 = EQueryDeviceState dev k
        \/ exists now, EQueryDeviceState Examples.lamp 0 = ERegisterDevice dev now k)
       /\ dev_serialNumber dev = "d073d5000001"
       /\ (k < 4)%nat.
Proof.
  assert (H1 : dev_online "d073d5000001" (store Examples.bothSelected) = true)
    by (vm_compute; reflexivity).
  assert (H0 : dev_online "d073d5000001"
                 (store (exec (EQueryDeviceState Examples.lamp 0)
                           Examples.bothSelected)) = false)
    by (vm_compute; reflexivity).
  split; [exact H1|]. split; [exact H0|].
  exact (online_flag_cleared_only_by_raising_send
           (EQueryDeviceState Examples.lamp 0) Examples.bothSelected
           "d073d5000001" H1 H0).
Defined.

(** X15. In every reachable state the groups have distinct ids: a group
    is stored under its id, so two group records with the same id are the
    same record. *)
Theorem group_ids_are_distinct (w : World) (a b : GroupState) :
  reachable w ->
  In a (JsObject.values (groups (store w))) ->
  In b (JsObject.values (groups (store w))) ->
  g_id a = g_id b -> a = b.
Proof. apply reachable_group_ids_distinct. Qed.

Lemma reachable_run (es : list Event) (w : World) :
  reachable w -> runnable es w -> reachable (run es w).
Proof.
  revert w. unfold run. induction es as [|e es IH]; intros w Hr Hen; simpl.
  - exact Hr.
  - destruct Hen as [He Hes]. apply IH; [by apply reachable_step|exact Hes].
Qed.

Lemma reachable_house : reachable Examples.house.
Proof.
  assert (E : Examples.house
              = run [ERegisterDevice Examples.lamp 1000 4;
                     ERegisterDevice Examples.strip 1000 4;
                     ERegisterDevice Examples.wallSwitch 1000 4;
                     ERegisterDevice Examples.porch 1000 4;
                     EResume "d073d5000004"
                       (Examples.allAnswered "Porch"
                          (mkStateGroup "ungrouped" "A porch")) 2000;
                     EResume "d073d5000001"
                       (Examples.allAnswered "Lamp" Examples.livingRoom) 2000;
                     EResume "d073d5000003"
                       (mkResults (fulfilled Examples.white) (fulfilled "Switch")
                          (fulfilled (mkStateGroup "c9d0e1f2" "Hall"))
                          (fulfilled (mkStateVersion 1 (Some 70)))) 2000;
                     EResume "d073d5000002"
                       (Examples.allAnswered "Strip" Examples.kitchen) 2000]
                  initWorld)
    by (vm_compute; reflexivity).
  rewrite E. apply reachable_run; [apply reachable_init|].
  cbn [runnable enabled].
  repeat split; apply list_elem_of_In; vm_compute; tauto.
Qed.

Lemma group_ids_are_distinct_witness :
  reachable Examples.house
  /\ map g_id (JsObject.values (groups (store Examples.house)))
     = ["ungrouped"; "a1b2c3d4"; "c9d0e1f2"; "e5f6a7b8"]
  /\ forall a b,
       In a (JsObject.values (groups (store Examples.house))) ->
       In b (JsObject.values (groups (store Examples.house))) ->
       g_id a = g_id b -> a = b.
Proof.
  split; [exact reachable_house|]. split; [vm_compute; reflexivity|].
  intros a b. apply group_ids_are_distinct. exact reachable_house.
Defined.

(** X16. The drain of the transport is one completion short: when
    [close()] is called with [n + 1] datagrams still queued, the socket
    stays open through the first [n - 1] completions and [socket.close()]
    is called by the [n]-th, while one datagram is still queued; with no
    datagram or one datagram queued it is called inside [close()]. *)
Theorem drain_is_one_completion_short (t : Client.Transport) (n : nat) :
  Client.running t ->
  Client.sock_queued (Client.socket t) = S n ->
  (forall m, (m < n)%nat ->
     Client.sock_closed
       (Client.socket (Nat.iter m Client.sendCompleted (Client.close t))) = false)
  /\ Client.sock_closed
       (Client.socket (Nat.iter n Client.sendCompleted (Client.close t))) = true
  /\ Client.sock_queued
       (Client.socket (Nat.iter n Client.sendCompleted (Client.close t))) = 1%nat.
Proof. apply close_then_completions. Qed.

Lemma drain_is_one_completion_short_witness :
  let t := Client.onSend (Client.onSend (Client.onSend Client.init)) in
  Client.running t
  /\ Client.sock_queued (Client.socket t) = 3%nat
  /\ Client.sock_closed (Client.socket (Client.close t)) = false
  /\ Client.sock_closed
       (Client.socket (Nat.iter 2 Client.sendCompleted (Client.close t))) = true
  /\ Client.sock_queued
       (Client.socket (Nat.iter 2 Client.sendCompleted (Client.close t))) = 1%nat.
Proof.
  cbv zeta.
  assert (Hr : Client.running
                 (Client.onSend (Client.onSend (Client.onSend Client.init)))).
  { repeat apply Client.running_send. apply Client.running_init. }
  split; [exact Hr|]. split; [reflexivity|].
  destruct (drain_is_one_completion_short _ 2 Hr eq_refl) as (H0 & H1 & H2).
  split; [exact (H0 0%nat ltac:(lia))|]. split; [exact H1|exact H2].
Defined.

(** * Further properties of the DJ engine *)

Section BeatFacts.
Import Effects Beat.

Variable float : Type.
Variable ofZ : Z -> float.
Variable ofQ : Q -> float.
Variable mul : float -> float -> float.
Variable div : float -> float -> float.
Variable round : float -> Z.

Local Abbreviation Msg := (Beat.Msg float).
Local Abbreviation Frame := (Beat.Frame float).
Local Abbreviation unicastEach := (Beat.unicastEach float).
Local Abbreviation onBeat := (Beat.onBeat float ofZ ofQ mul div round).
Local Abbreviation command := (Beat.command float ofZ ofQ mul div round).
Local Abbreviation afterglow := (Beat.afterglow float ofZ).

Implicit Types (t : string -> bool) (ds : list Store.Device).

Lemma unicastEach_ok t (now_ : nat -> Store.Device -> Msg)
    (later : nat -> Store.Device -> option Msg) (i : nat) ds :
  (forall d, In d ds -> t (dev_serialNumber d) = false) ->
  returned _ (unicastEach t now_ later i ds) = true
  /\ map snd (sent _ (unicastEach t now_ later i ds)) = ds
  /\ (forall j,
        nth_error (sent _ (unicastEach t now_ later i ds)) j
        = option_map (fun d => (now_ (i + j)%nat d, d)) (nth_error ds j)).
Proof.
  revert i. induction ds as [|d ds IH]; intros i Hok; simpl.
  - split; [done|]. split; [done|]. by intros [|j].
  - rewrite (Hok d) by by left. simpl.
    destruct (IH (S i)) as (Hr & Hm & Hn); [intros x Hx; apply Hok; by right|].
    split; [exact Hr|]. split; [by rewrite Hm|].
    intros [|j]; simpl.
    + by rewrite Nat.add_0_r.
    + rewrite Hn. by rewrite Nat.add_succ_r.
Qed.

Lemma unicastEach_scheduled t (now_ : nat -> Store.Device -> Msg)
    (later : nat -> Store.Device -> option Msg) (om : option Msg) (i : nat) ds :
  (forall d, In d ds -> t (dev_serialNumber d) = false) ->
  (forall j d, later j d = om) ->
  scheduled _ (unicastEach t now_ later i ds)
  = match om with
    | Some m => map (fun d => (m, d)) ds
    | None => []
    end.
Proof.
  intros Hok Hl. revert i. induction ds as [|d ds IH]; intros i; simpl.
  - by destruct om.
  - rewrite (Hok d) by by left. simpl. rewrite Hl, IH.
    + by destruct om.
    + intros x Hx. apply Hok. by right.
Qed.

Lemma unicastEach_abort t (now_ : nat -> Store.Device -> Msg)
    (later : nat -> Store.Device -> option Msg) (i : nat)
    (pre post : list Store.Device) (d : Store.Device) :
  (forall x, In x pre -> t (dev_serialNumber x) = false) ->
  t (dev_serialNumber d) = true ->
  returned _ (unicastEach t now_ later i (pre ++ d :: post)) = false
  /\ map snd (sent _ (unicastEach t now_ later i (pre ++ d :: post))) = pre.
Proof.
  intros Hok Hd. revert i. induction pre as [|x pre IH]; intros i; simpl.
  - by rewrite Hd.
  - rewrite (Hok x) by by left. simpl.
    destruct (IH (fun y Hy => Hok y (or_intror Hy)) (S i)) as [Hr Hm].
    split; [exact Hr|by rewrite Hm].
Qed.

(** X17. A beat sends one command to each target device, in device
    order, when no [client.unicast] raises: the frame names every device
    exactly once, only the blackout pattern schedules a second, delayed
    command (one per device), and the beat counter goes up by one. With no
    target device the beat does nothing at all: the counter is not
    incremented. *)
Theorem onBeat_one_command_per_device t (pick : nat -> nat) (dj : DJ) :
  (forall d, In d (devices dj) -> t (dev_serialNumber d) = false) ->
  let dj' := fst (onBeat t pick dj) in
  let frame := snd (onBeat t pick dj) in
  map snd (sent _ frame) = devices dj
  /\ returned _ frame = true
  /\ map snd (scheduled _ frame)
     = (match pattern (config (engine dj)) with
        | blackout => devices dj
        | _ => []
        end)
  /\ devices dj' = devices dj
  /\ config (engine dj') = config (engine dj)
  /\ intervalId (engine dj') = intervalId (engine dj)
  /\ beatCount (engine dj')
     = (match devices dj with
        | [] => beatCount (engine dj)
        | _ :: _ => beatCount (engine dj) + 1
        end).
Proof.
  intros Hok. cbv zeta. unfold Beat.onBeat.
  destruct (devices dj) as [|d0 ds0] eqn:Hds.
  - simpl. by destruct (pattern (config (engine dj))).
  - cbn [fst snd]. cbv zeta.
    set (e := set_beatCount (beatCount (engine dj) + 1) (engine dj)).
    set (now_ := fun (i : nat) (_ : Store.Device) =>
                   command e (length (d0 :: ds0)) pick (beatCount (engine dj) + 1) i).
    set (later := fun (_ : nat) (_ : Store.Device) =>
                    afterglow e (beatCount (engine dj) + 1)).
    destruct (unicastEach_ok t now_ later 0 (d0 :: ds0) Hok) as (Hr & Hm & _).
    split; [exact Hm|]. split; [exact Hr|].
    split; [|done].
    rewrite (unicastEach_scheduled t now_ later
               (afterglow e (beatCount (engine dj) + 1)) 0 (d0 :: ds0) Hok)
      by done.
    unfold Beat.afterglow. subst e. cbn [config set_beatCount].
    destruct (pattern (config (engine dj))); try reflexivity.
    rewrite map_map. simpl. by rewrite map_id.
Qed.

(** X18. A raising [client.unicast] ends the beat: [onBeat] has no
    [try]/[catch], so the devices before the raising one have received
    their command, the raising device and all the devices after it get
    nothing on this beat, and the call does not return normally; the beat
    counter has been incremented all the same. *)
Theorem raising_unicast_aborts_beat t (pick : nat -> nat) (dj : DJ)
    (pre post : list Store.Device) (d : Store.Device) :
  devices dj = pre ++ d :: post ->
  (forall x, In x pre -> t (dev_serialNumber x) = false) ->
  t (dev_serialNumber d) = true ->
  let dj' := fst (onBeat t pick dj) in
  let frame := snd (onBeat t pick dj) in
  map snd (sent _ frame) = pre
  /\ returned _ frame = false
  /\ beatCount (engine dj') = beatCount (engine dj) + 1.
Proof.
  intros Hds Hok Hd. cbv zeta. unfold Beat.onBeat. rewrite Hds.
  destruct (pre ++ d :: post) as [|d0 ds0] eqn:E; [by destruct pre|].
  cbn [fst snd]. cbv zeta. rewrite <- E.
  set (e := set_beatCount (beatCount (engine dj) + 1) (engine dj)).
  destruct (unicastEach_abort t
              (fun (i : nat) (_ : Store.Device) =>
                 command e (length (pre ++ d :: post)) pick
                   (beatCount (engine dj) + 1) i)
              (fun (_ : nat) (_ : Store.Device) =>
                 afterglow e (beatCount (engine dj) + 1))
              0 pre post d Hok Hd) as [Hr Hm].
  split; [exact Hm|]. split; [exact Hr|reflexivity].
Qed.

End BeatFacts.

Lemma onBeat_one_command_per_device_witness :
  (forall d, In d (Beat.devices BeatRuns.started) ->
     Examples.neverThrows (dev_serialNumber d) = false)
  /\ map snd (Beat.sent Q (snd (BeatRuns.runBeat Examples.neverThrows
                                  (fun _ => 0%nat) BeatRuns.started)))
     = BeatRuns.trio
  /\ Beat.returned Q (snd (BeatRuns.runBeat Examples.neverThrows
                             (fun _ => 0%nat) BeatRuns.started)) = true
  /\ Effects.beatCount
       (Beat.engine (fst (BeatRuns.runBeat Examples.neverThrows
                            (fun _ => 0%nat) BeatRuns.started))) = 1.
Proof.
  assert (Hok : forall d, In d (Beat.devices BeatRuns.started) ->
                  Examples.neverThrows (dev_serialNumber d) = false)
    by (intros d _; reflexivity).
  split; [exact Hok|].
  destruct (onBeat_one_command_per_device Q inject_Z (fun q => q) Qmult Qdiv
              Effects.Math_round Examples.neverThrows (fun _ => 0%nat)
              BeatRuns.started Hok) as (Hs & Hr & _ & _ & _ & _ & Hb).
  split; [exact Hs|]. split; [exact Hr|exact Hb].
Defined.

Lemma raising_unicast_aborts_beat_witness :
  Beat.devices BeatRuns.started = [Examples.lamp] ++ Examples.strip :: [Examples.porch]
  /\ (forall x, In x [Examples.lamp] ->
        BeatRuns.stripRaises (dev_serialNumber x) = false)
  /\ BeatRuns.stripRaises (dev_serialNumber Examples.strip) = true
  /\ map snd (Beat.sent Q (snd (BeatRuns.runBeat BeatRuns.stripRaises
                                  (fun _ => 0%nat) BeatRuns.started)))
     = [Examples.lamp]
  /\ Beat.returned Q (snd (BeatRuns.runBeat BeatRuns.stripRaises
                             (fun _ => 0%nat) BeatRuns.started)) = false.
Proof.
  assert (Hpre : forall x, In x [Examples.lamp] ->
                   BeatRuns.stripRaises (dev_serialNumber x) = false)
    by (intros x [<-|[]]; reflexivity).
  split; [reflexivity|]. split; [exact Hpre|]. split; [reflexivity|].
  destruct (raising_unicast_aborts_beat Q inject_Z (fun q => q) Qmult Qdiv
              Effects.Math_round BeatRuns.stripRaises (fun _ => 0%nat)
              BeatRuns.started [Examples.lamp] [Examples.porch] Examples.strip
              eq_refl Hpre eq_refl) as (Hs & Hr & _).
  split; [exact Hs|exact Hr].
Defined.

Section BeatRunFacts.
Import Effects Beat BeatRuns.

Variable float : Type.
Variable ofZ : Z -> float.
Variable ofQ : Q -> float.
Variable mul : float -> float -> float.
Variable div : float -> float -> float.
Variable round : float -> Z.

Local Abbreviation onBeat := (Beat.onBeat float ofZ ofQ mul div round).
Local Abbreviation command := (Beat.command float ofZ ofQ mul div round).
Local Abbreviation afterglow := (Beat.afterglow float ofZ).
Local Abbreviation beats := (BeatRuns.beats float ofZ ofQ mul div round).
Local Abbreviation frameOfBeat := (BeatRuns.frameOfBeat float ofZ ofQ mul div round).

Lemma unicastEach_ext (t : string -> bool)
    (f f' : nat -> Store.Device -> Beat.Msg float)
    (l l' : nat -> Store.Device -> option (Beat.Msg float))
    (i : nat) (ds : list Store.Device) :
  (forall j d, f j d = f' j d) ->
  (forall j d, l j d = l' j d) ->
  Beat.unicastEach float t f l i ds = Beat.unicastEach float t f' l' i ds.
Proof.
  intros Hf Hl. revert i. induction ds as [|d ds IH]; intros i; simpl; [done|].
  by rewrite IH, Hf, Hl.
Qed.

(** X19. An empty palette plays as the single colour [DEFAULT_BLUE]:
    with [colors = []] every pattern (the random one included) sends, on
    every beat, exactly the commands it sends with [colors =
    [DEFAULT_BLUE]]; the index [beatCount % 0] is [NaN] and the lookup
    falls back. *)
Theorem empty_palette_plays_default_blue (t : string -> bool)
    (pick : nat -> nat) (dj : DJ) :
  colors (config (engine dj)) = [] ->
  snd (onBeat t pick dj) = snd (onBeat t pick (withColors [DEFAULT_BLUE] dj)).
Proof.
  intros Hc. unfold Beat.onBeat. cbn [devices withColors].
  destruct (devices dj) as [|d0 ds0]; [done|]. cbn [snd]. cbv zeta.
  apply unicastEach_ext.
  - intros j _. unfold Beat.command, Beat.scaled, Beat.beatInterval.
    cbn [config set_beatCount engine withColors colors pattern intensity bpm
           subdivision].
    rewrite Hc. cbn [length remLength at_ safeColor].
    rewrite !Z.mod_1_r. cbn [Z.to_nat nth_error].
    destruct (pattern (config (engine dj))); try reflexivity.
    destruct (pick j) as [|n]; [reflexivity|]. by destruct n.
  - intros j _. unfold Beat.afterglow.
    cbn [config set_beatCount engine withColors colors pattern].
    rewrite Hc. cbn [length remLength at_ safeColor].
    rewrite !Z.mod_1_r. reflexivity.
Qed.

Lemma beats_S (t : string -> bool) (pick : nat -> nat) (k : nat) (dj : DJ) :
  beats t pick (S k) dj = fst (onBeat t pick (beats t pick k dj)).
Proof. reflexivity. Qed.

Lemma beats_counter (t : string -> bool) (pick : nat -> nat) (k : nat) (dj : DJ) :
  devices (beats t pick k dj) = devices dj
  /\ config (engine (beats t pick k dj)) = config (engine dj)
  /\ beatCount (engine (beats t pick k dj))
     = (match devices dj with
        | [] => beatCount (engine dj)
        | _ :: _ => beatCount (engine dj) + Z.of_nat k
        end).
Proof.
  induction k as [|k (Hd & Hc & Hb)].
  - simpl. split; [done|]. split; [done|]. destruct (devices dj); [done|lia].
  - rewrite !beats_S.
    set (djk := beats t pick k dj) in *.
    unfold Beat.onBeat. rewrite Hd.
    destruct (devices dj) as [|d0 ds0] eqn:E.
    + cbn [fst]. by rewrite Hd.
    + cbn [fst devices engine config beatCount set_beatCount].
      split; [done|]. split; [done|]. lia.
Qed.

(** X20. The beat counter counts the firings of the timer since [start]:
    after [start] on a non-empty device list and [k] firings it is [k],
    whether or not frames were cut short by a raising [client.unicast];
    started on an empty list it stays 0. *)
Theorem beat_counter_counts_firings (t : string -> bool) (pick : nat -> nat)
    (k : nat) (newDevices : list Store.Device)
    (newConfig : option PartialDJConfig) (now : Z) (dj : DJ) :
  beatCount (engine (beats t pick k (start newDevices newConfig now dj)))
  = (match newDevices with
     | [] => 0
     | _ :: _ => Z.of_nat k
     end)
  /\ devices (beats t pick k (start newDevices newConfig now dj)) = newDevices
  /\ isRunning (engine (start newDevices newConfig now dj)) = true.
Proof.
  destruct (beats_counter t pick k (start newDevices newConfig now dj))
    as (Hd & _ & Hb).
  rewrite Hb, Hd. cbn [start devices engine beatCount setInterval_onBeat].
  split; [by destruct newDevices|]. split; reflexivity.
Qed.

(** X21. The chase lights the devices in turn, starting with the second
    one: on firing number [k] (counted from 1) after the beat counter was
    reset, as [start] does, the device at index [k mod n] of the [n]
    devices receives the palette colour number [k mod (number of
    colours)] as a set-colour command with ramp 50, and every other
    device receives the dim command (hue 0, saturation 0, ramp 100). The
    first device is lit on firing [n] only. *)
Theorem chase_lights_devices_in_turn (t : string -> bool) (pick : nat -> nat)
    (k : nat) (dj : DJ) (i : nat) (d : Store.Device) :
  (forall x, In x (devices dj) -> t (dev_serialNumber x) = false) ->
  pattern (config (engine dj)) = chase ->
  beatCount (engine dj) = 0 ->
  (1 <= k)%nat ->
  nth_error (devices dj) i = Some d ->
  let cfg := config (engine dj) in
  let color :=
    safeColor (at_ (colors cfg) (remLength (Z.of_nat k) (length (colors cfg))))
      DEFAULT_BLUE in
  nth_error (sent _ (frameOfBeat t pick k dj)) i
  = Some
      (if Z.of_nat i =? Z.of_nat k mod Z.of_nat (length (devices dj))
       then Beat.SetColorCommand float (Store.hue color) (Store.saturation color)
              (round (mul (ofZ (Store.brightness color)) (ofQ (intensity cfg))))
              (Store.kelvin color) (ofZ 50)
       else Beat.SetColorCommand float 0 0
              (round (mul (mul (ofZ (Store.brightness color)) (ofQ (1 # 10)))
                        (ofQ (intensity cfg))))
              (Store.kelvin color) (ofZ 100),
       d).
Proof.
  intros Hok Hp Hb Hk Hd. cbv zeta. unfold BeatRuns.frameOfBeat.
  destruct (beats_counter t pick (k - 1) dj) as (Hdev & Hcfg & Hcnt).
  fold (beats t pick (k - 1) dj).
  set (djk := beats t pick (k - 1) dj) in *.
  unfold Beat.onBeat. rewrite Hdev.
  destruct (devices dj) as [|d0 ds0] eqn:E; [by destruct i|].
  cbn [snd]. cbv zeta.
  match goal with
  | |- nth_error (sent _ (Beat.unicastEach _ _ ?f ?l _ _)) _ = _ =>
      destruct (unicastEach_ok float t f l 0 (d0 :: ds0) Hok) as (_ & _ & Hn)
  end.
  rewrite Hn, Hd. cbn [option_map]. f_equal. f_equal.
  unfold Beat.command, Beat.scaled.
  cbn [config set_beatCount]. rewrite Hcfg, Hp, Hcnt, Hb.
  replace (0 + Z.of_nat (k - 1) + 1) with (Z.of_nat k) by lia.
  reflexivity.
Qed.

End BeatRunFacts.

Lemma empty_palette_plays_default_blue_witness :
  Effects.colors (Effects.config (Beat.engine (BeatRuns.withColors [] BeatRuns.started)))
  = []
  /\ snd (BeatRuns.runBeat Examples.neverThrows (fun _ => 2%nat)
            (BeatRuns.withColors [] BeatRuns.started))
     = snd (BeatRuns.runBeat Examples.neverThrows (fun _ => 2%nat)
              (BeatRuns.withColors [Effects.DEFAULT_BLUE]
                 (BeatRuns.withColors [] BeatRuns.started))).
Proof.
  split; [reflexivity|].
  exact (empty_palette_plays_default_blue Q inject_Z (fun q => q) Qmult Qdiv
           Effects.Math_round Examples.neverThrows (fun _ => 2%nat)
           (BeatRuns.withColors [] BeatRuns.started) eq_refl).
Defined.

Lemma chase_lights_devices_in_turn_witness :
  (forall x, In x (Beat.devices BeatRuns.started) ->
     Examples.neverThrows (dev_serialNumber x) = false)
  /\ Effects.pattern (Effects.config (Beat.engine BeatRuns.started)) = Effects.chase
  /\ Effects.beatCount (Beat.engine BeatRuns.started) = 0
  /\ (1 <= 4)%nat
  /\ nth_error (Beat.devices BeatRuns.started) 1 = Some Examples.strip
  /\ nth_error
       (Beat.sent Q
          (BeatRuns.frameOfBeat Q inject_Z (fun q => q) Qmult Qdiv
             Effects.Math_round Examples.neverThrows (fun _ => 0%nat) 4
             BeatRuns.started)) 1
     = Some (Beat.SetColorCommand Q 43690 65535 65535 3500 (inject_Z 50),
             Examples.strip).
Proof.
  assert (Hok : forall x, In x (Beat.devices BeatRuns.started) ->
                  Examples.neverThrows (dev_serialNumber x) = false)
    by (intros x _; reflexivity).
  assert (H4 : (1 <= 4)%nat) by lia.
  split; [exact Hok|]. split; [reflexivity|]. split; [reflexivity|].
  split; [exact H4|]. split; [reflexivity|].
  exact (chase_lights_devices_in_turn Q inject_Z (fun q => q) Qmult Qdiv
           Effects.Math_round Examples.neverThrows (fun _ => 0%nat) 4
           BeatRuns.started 1%nat Examples.strip Hok eq_refl eq_refl H4 eq_refl).
Defined.

(** * The DJ screen *)

Section SessionFacts.
Import Effects Sessions.

Variable addD : Q -> Q -> Q.
Variable subD : Q -> Q -> Q.
Variable tenth : Q.

Local Abbreviation handleDJModeKeys := (App.handleDJModeKeys addD subD tenth).
Local Abbreviation step := (Sessions.step addD subD tenth).
Local Abbreviation session := (Sessions.session addD subD tenth).

Lemma config_stop (e : Engine) : config (stop e) = config e.
Proof. unfold stop. by destruct (intervalId e). Qed.

Lemma config_updateConfig (c : PartialDJConfig) (e : Engine) :
  config (updateConfig c e) = merge (config e) c.
Proof.
  unfold updateConfig. cbv zeta. cbn [setConfig intervalId].
  destruct (intervalId e); [|reflexivity].
  cbn [setInterval_onBeat config]. by rewrite config_stop.
Qed.

Lemma window_cases (t : Z) :
  (200 < t < 2000 /\ (200 <? t) && (t <? 2000) = true)
  \/ (200 <? t) && (t <? 2000) = false.
Proof.
  destruct (Z.ltb_spec 200 t); [|by right].
  destruct (Z.ltb_spec t 2000); [left|by right]. split; [lia|done].
Qed.

Lemma config_tapTempo (now : Z) (e : Engine) :
  config (tapTempo now e) = config e
  \/ exists t, 200 < t < 2000
       /\ config (tapTempo now e)
          = merge (config e)
              (mkPartial (Some (Math_round (60000 / inject_Z t)%Q)) None None None None).
Proof.
  unfold tapTempo. cbv zeta. cbn [set_lastTapTime config].
  destruct (0 <? lastTapTime e); [|by left].
  destruct (window_cases (now - lastTapTime e)) as [[Hw ->]| ->]; [|by left].
  right. exists (now - lastTapTime e). split; [exact Hw|].
  apply config_updateConfig.
Qed.

Lemma config_start (ds : list Store.Device) (c : option PartialDJConfig)
    (now : Z) (dj : Beat.DJ) :
  config (Beat.engine (Beat.start ds c now dj))
  = match c with
    | Some c' => merge (config (Beat.engine dj)) c'
    | None => config (Beat.engine dj)
    end.
Proof.
  unfold Beat.start. cbv zeta. cbn [Beat.engine setInterval_onBeat config].
  destruct c; cbn [setConfig config]; by rewrite config_stop.
Qed.

Lemma config_fired (t : string -> bool) (pick : nat -> nat) (dj : Beat.DJ) :
  config (Beat.engine (fst (BeatRuns.runBeat t pick dj))) = config (Beat.engine dj)
  /\ intervalId (Beat.engine (fst (BeatRuns.runBeat t pick dj)))
     = intervalId (Beat.engine dj)
  /\ Beat.devices (fst (BeatRuns.runBeat t pick dj)) = Beat.devices dj.
Proof.
  unfold BeatRuns.runBeat, Beat.onBeat.
  destruct (Beat.devices dj) eqn:E; cbn [fst Beat.engine Beat.devices];
    [by rewrite E|].
  split; [reflexivity|]. split; reflexivity.
Qed.

Lemma step_bpm (st : Step) (dj : Beat.DJ) :
  30 <= bpm (config (Beat.engine dj)) <= 300 ->
  30 <= bpm (config (Beat.engine (step dj st))) <= 300.
Proof.
  intros Hb. destruct st as [key now s|t pick]; cbn [Sessions.step].
  - unfold App.handleDJModeKeys. cbv zeta.
    destruct key as [| | |n| | |shift|]; unfold App.withEngine; cbn [Beat.engine];
      rewrite ?config_stop, ?config_updateConfig; try exact Hb.
    + destruct (config_tapTempo now (Beat.engine dj)) as [->|(t & Ht & ->)];
        [exact Hb|]. cbn [merge bpm p_bpm]. by apply tapped_bpm_range.
    + destruct (Beat.isRunning (Beat.engine dj)).
      * cbn [Beat.engine]. by rewrite config_stop.
      * destruct (0 <? length (App.selectedHandles s))%nat; [|exact Hb].
        rewrite config_start. exact Hb.
    + destruct n as [|k]; [exact Hb|].
      destruct (nth_error App.patterns k); [|exact Hb].
      cbn [Beat.engine]. rewrite config_updateConfig. exact Hb.
    + cbn [merge bpm p_bpm App.onlyBpm]. lia.
    + cbn [merge bpm p_bpm App.onlyBpm]. lia.
  - destruct (Beat.isRunning (Beat.engine dj)); [|exact Hb].
    by rewrite (proj1 (config_fired t pick dj)).
Qed.

(** X22. The tempo of the DJ screen stays between 30 and 300 beats per
    minute: from an engine whose tempo is in that range, no sequence of
    key presses and timer firings leads out of it. The keys '+' and '-'
    clamp to the range, and a tempo set by tapping is accepted only for
    intervals between 200 and 2000 ms, which round to the same range. *)
Theorem dj_tempo_stays_in_range (sts : list Step) (dj : Beat.DJ) :
  30 <= bpm (config (Beat.engine dj)) <= 300 ->
  30 <= bpm (config (Beat.engine (session sts dj))) <= 300.
Proof.
  unfold Sessions.session. revert dj. induction sts as [|st sts IH]; intros dj Hb; [exact Hb|].
  cbn [fold_left]. apply IH. by apply step_bpm.
Qed.

Lemma timerInSync_setInterval (e : Engine) : timerInSync (setInterval_onBeat e).
Proof. reflexivity. Qed.

Lemma timerInSync_stop (e : Engine) : timerInSync (stop e).
Proof.
  unfold timerInSync, stop.
  destruct (intervalId e) eqn:E; cbn [intervalId]; [exact I|by rewrite E].
Qed.

Lemma timerInSync_updateConfig (c : PartialDJConfig) (e : Engine) :
  timerInSync (updateConfig c e).
Proof.
  unfold updateConfig. cbv zeta. cbn [setConfig intervalId].
  destruct (intervalId e) eqn:E; [apply timerInSync_setInterval|].
  unfold timerInSync. cbn [setConfig intervalId]. by rewrite E.
Qed.

Lemma timerInSync_tapTempo (now : Z) (e : Engine) :
  timerInSync e -> timerInSync (tapTempo now e).
Proof.
  intros He. unfold tapTempo. cbv zeta.
  assert (Hs : forall e', timerInSync e' -> timerInSync (set_lastTapTime now e'))
    by (intros e' H'; exact H').
  apply Hs.
  destruct (0 <? lastTapTime e); [|exact He].
  destruct ((200 <? now - lastTapTime e) && (now - lastTapTime e <? 2000));
    [apply timerInSync_updateConfig|exact He].
Qed.

Lemma step_timerInSync (st : Step) (dj : Beat.DJ) :
  timerInSync (Beat.engine dj) -> timerInSync (Beat.engine (step dj st)).
Proof.
  intros He. destruct st as [key now s|t pick]; cbn [Sessions.step].
  - unfold App.handleDJModeKeys. cbv zeta.
    destruct key as [| | |n| | |shift|]; unfold App.withEngine; cbn [Beat.engine];
      try apply timerInSync_stop; try apply timerInSync_updateConfig; try exact He.
    + by apply timerInSync_tapTempo.
    + destruct (Beat.isRunning (Beat.engine dj)).
      * apply timerInSync_stop.
      * destruct (0 <? length (App.selectedHandles s))%nat; [|exact He].
        apply timerInSync_setInterval.
    + destruct n as [|k]; [exact He|].
      destruct (nth_error App.patterns k); [|exact He].
      apply timerInSync_updateConfig.
  - destruct (Beat.isRunning (Beat.engine dj)); [|exact He].
    destruct (config_fired t pick dj) as (Hc & Hi & _).
    unfold timerInSync, getBeatInterval in *. by rewrite Hi, Hc.
Qed.

(** X23. The armed timer always has the period of the current
    configuration, [(60000 / bpm) / subdivision]: every function that
    writes the configuration while the engine runs ([updateConfig], and
    [tapTempo] through it) re-arms the timer, and [start] arms it after
    merging its configuration. So no sequence of key presses and timer
    firings leaves a timer ticking at a stale tempo. *)
Theorem timer_period_follows_configuration (sts : list Step) (dj : Beat.DJ) :
  timerInSync (Beat.engine dj) ->
  timerInSync (Beat.engine (session sts dj)).
Proof.
  unfold Sessions.session. revert dj. induction sts as [|st sts IH]; intros dj He; [exact He|].
  cbn [fold_left]. apply IH. by apply step_timerInSync.
Qed.

(** X24. Only the space and escape keys start or stop the engine: every
    other key (a tap, a pattern digit, '+', '-', the intensity keys, and
    the keys the handler ignores) leaves the running state as it is, and
    no key but space changes the device list or the beat counter. *)
Theorem only_space_and_escape_switch_the_engine (key : App.DJKey) (now : Z)
    (s : Store.LifxStore) (dj : Beat.DJ) :
  key <> App.KSpace ->
  (key <> App.KEscape ->
     Beat.isRunning (Beat.engine (handleDJModeKeys key now s dj))
     = Beat.isRunning (Beat.engine dj))
  /\ Beat.devices (handleDJModeKeys key now s dj) = Beat.devices dj
  /\ beatCount (Beat.engine (handleDJModeKeys key now s dj))
     = beatCount (Beat.engine dj).
Proof.
  intros Hsp.
  assert (Hu : forall c e, Beat.isRunning (updateConfig c e) = Beat.isRunning e
                           /\ beatCount (updateConfig c e) = beatCount e).
  { intros c e. unfold updateConfig, Beat.isRunning. cbv zeta.
    cbn [setConfig intervalId].
    destruct (intervalId e) eqn:E; cbn [setInterval_onBeat setConfig intervalId beatCount].
    - split; [reflexivity|]. unfold stop. cbn [setConfig intervalId]. by rewrite E.
    - by rewrite E. }
  assert (Hs : forall e, beatCount (stop e) = beatCount e).
  { intros e. unfold stop. by destruct (intervalId e). }
  assert (Ht : forall e, Beat.isRunning (tapTempo now e) = Beat.isRunning e
                         /\ beatCount (tapTempo now e) = beatCount e).
  { intros e. unfold tapTempo. cbv zeta.
    change (Beat.isRunning (set_lastTapTime now ?x)) with (Beat.isRunning x).
    change (beatCount (set_lastTapTime now ?x)) with (beatCount x).
    destruct (0 <? lastTapTime e); [|done].
    destruct ((200 <? now - lastTapTime e) && (now - lastTapTime e <? 2000));
      [apply Hu|done]. }
  unfold App.handleDJModeKeys. cbv zeta.
  destruct key as [| | |n| | |shift|]; try done; unfold App.withEngine;
    cbn [Beat.engine Beat.devices];
    try (split; [intros _; apply Hu|split; [reflexivity|apply Hu]]).
  - split; [done|]. split; [reflexivity|apply Hs].
  - split; [intros _; apply Ht|split; [reflexivity|apply Ht]].
  - destruct n as [|k]; [done|]. destruct (nth_error App.patterns k); [|done].
    cbn [Beat.engine Beat.devices].
    split; [intros _; apply Hu|split; [reflexivity|apply Hu]].
Qed.

End SessionFacts.

Lemma dj_tempo_stays_in_range_witness :
  30 <= Effects.bpm (Effects.config (Beat.engine Sessions.fresh)) <= 300
  /\ 30 <= Effects.bpm
             (Effects.config
                (Beat.engine (Sessions.runSession Sessions.evening Sessions.fresh)))
        <= 300
  /\ Effects.bpm
       (Effects.config
          (Beat.engine (Sessions.runSession Sessions.evening Sessions.fresh)))
     = 205.
Proof.
  assert (H : 30 <= Effects.bpm (Effects.config (Beat.engine Sessions.fresh)) <= 300)
    by (change (30 <= 120 <= 300); lia).
  split; [exact H|].
  split; [|reflexivity].
  exact (dj_tempo_stays_in_range Qplus Qminus Sessions.tenthD Sessions.evening
           Sessions.fresh H).
Defined.

Lemma timer_period_follows_configuration_witness :
  Sessions.timerInSync (Beat.engine Sessions.fresh)
  /\ Sessions.timerInSync
       (Beat.engine (Sessions.runSession Sessions.evening Sessions.fresh))
  /\ option_map Effects.timer_period
       (Effects.intervalId
          (Beat.engine (Sessions.runSession Sessions.evening Sessions.fresh)))
     = Some (60000 / 205 / 1)%Q.
Proof.
  split; [exact I|].
  split; [|reflexivity].
  exact (timer_period_follows_configuration Qplus Qminus Sessions.tenthD
           Sessions.evening Sessions.fresh I).
Defined.

Lemma only_space_and_escape_switch_the_engine_witness :
  App.KPlus <> App.KSpace
  /\ Beat.isRunning
       (Beat.engine
          (App.handleDJModeKeys Qplus Qminus Sessions.tenthD App.KPlus 9000
             (Store.store Examples.bothSelected) BeatRuns.started))
     = true
  /\ Beat.devices
       (App.handleDJModeKeys Qplus Qminus Sessions.tenthD App.KPlus 9000
          (Store.store Examples.bothSelected) BeatRuns.started)
     = BeatRuns.trio.
Proof.
  assert (H : App.KPlus <> App.KSpace) by discriminate.
  split; [exact H|].
  destruct (only_space_and_escape_switch_the_engine Qplus Qminus Sessions.tenthD
              App.KPlus 9000 (Store.store Examples.bothSelected)
              BeatRuns.started H)
    as (Hr & Hd & _).
  split; [apply Hr; discriminate|exact Hd].
Defined.

(** * Colours *)

Section ColorFacts.
Import Colors.

(** A byte prints as two hexadecimal digits that read back as the byte. *)
Lemma toHex_byte (n : Z) :
  0 <= n <= 255 ->
  exists c1 c2,
    toHex n = String c1 (String c2 EmptyString)
    /\ isHexDigit c1 = true /\ isHexDigit c2 = true
    /\ parseInt16_2 c1 c2 = n.
Proof.
  intros Hn.
  assert (H : forallb
                (fun k =>
                   match toHex (Z.of_nat k) with
                   | String c1 (String c2 EmptyString) =>
                       isHexDigit c1 && isHexDigit c2
                       && (parseInt16_2 c1 c2 =? Z.of_nat k)
                   | _ => false
                   end)
                (seq 0 256) = true) by (vm_compute; reflexivity).
  rewrite forallb_forall in H. specialize (H (Z.to_nat n)).
  rewrite Z2Nat.id in H by lia.
  destruct (toHex n) as [|c1 [|c2 [|c3 rest]]];
    try (discriminate H; apply in_seq; lia).
  assert (Hin : In (Z.to_nat n) (seq 0 256)) by (apply in_seq; lia).
  apply H in Hin. apply andb_prop in Hin as [Hin Hp].
  apply andb_prop in Hin as [H1 H2]. apply Z.eqb_eq in Hp.
  by exists c1, c2.
Qed.

(** X25. Reading back a printed colour gives the colour:
    [hexToRgb(rgbToHex(rgb))] is [rgb] whenever the three components are
    integers between 0 and 255. Single-digit components are padded to two
    digits, so the string always has the six digits the parser wants. *)
Theorem hex_round_trip (rgb : RGB) :
  0 <= r rgb <= 255 -> 0 <= g rgb <= 255 -> 0 <= b rgb <= 255 ->
  hexToRgb (rgbToHex rgb) = rgb.
Proof.
  intros Hr Hg Hb. destruct rgb as [x y z]. cbn [r g b] in *.
  destruct (toHex_byte x Hr) as (r1 & r2 & Ex & Hr1 & Hr2 & Px).
  destruct (toHex_byte y Hg) as (g1 & g2 & Ey & Hg1 & Hg2 & Py).
  destruct (toHex_byte z Hb) as (b1 & b2 & Ez & Hb1 & Hb2 & Pz).
  unfold rgbToHex. cbn [r g b]. rewrite Ex, Ey, Ez.
  change (String.append (String r1 (String r2 EmptyString))
            (String.append (String g1 (String g2 EmptyString))
               (String b1 (String b2 EmptyString))))
    with (String r1 (String r2 (String g1 (String g2 (String b1
            (String b2 EmptyString)))))).
  unfold hexToRgb. cbn [list_ascii_of_string forallb].
  rewrite Hr1, Hr2, Hg1, Hg2, Hb1, Hb2. cbn [andb].
  by rewrite Px, Py, Pz.
Qed.

Lemma hex_round_trip_witness :
  0 <= r (mkRGB 255 0 10) <= 255
  /\ 0 <= g (mkRGB 255 0 10) <= 255
  /\ 0 <= b (mkRGB 255 0 10) <= 255
  /\ rgbToHex (mkRGB 255 0 10) = "#ff000a"
  /\ hexToRgb (rgbToHex (mkRGB 255 0 10)) = mkRGB 255 0 10.
Proof.
  assert (Hr : 0 <= r (mkRGB 255 0 10) <= 255) by (cbn [r]; lia).
  assert (Hg : 0 <= g (mkRGB 255 0 10) <= 255) by (cbn [g]; lia).
  assert (Hb : 0 <= b (mkRGB 255 0 10) <= 255) by (cbn [b]; lia).
  split; [exact Hr|]. split; [exact Hg|]. split; [exact Hb|].
  split; [reflexivity|].
  exact (hex_round_trip (mkRGB 255 0 10) Hr Hg Hb).
Defined.

(** X26. The end points of [lerpHsbk], for hues between 0 and 65535: at
    [t = 0] the result is [a]; at [t = 1] saturation, brightness and
    kelvin are those of [b], and the hue is that of [b] except at the
    seam of the hue circle, where wrapping by 65535 lands on the other
    representation of the seam: going down to [b.hue = 65535] from the
    lower half gives hue 0, and going up to [b.hue = 0] from the upper
    half gives hue 65535. *)
Theorem lerpHsbk_end_points (a b : Store.HSBK) :
  0 <= Store.hue a <= 65535 ->
  0 <= Store.hue b <= 65535 ->
  lerpHsbk a b 0 = a
  /\ Store.saturation (lerpHsbk a b 1) = Store.saturation b
  /\ Store.brightness (lerpHsbk a b 1) = Store.brightness b
  /\ Store.kelvin (lerpHsbk a b 1) = Store.kelvin b
  /\ Store.hue (lerpHsbk a b 1)
     = (if (Store.hue b =? 65535) && (Store.hue a <? 32768) then 0
        else if (Store.hue b =? 0) && (32767 <? Store.hue a) then 65535
        else Store.hue b).
Proof.
  intros Ha Hb. destruct a as [ha sa ba ka], b as [hb sb bb kb].
  cbn [Store.hue Store.saturation Store.brightness Store.kelvin] in *.
  unfold lerpHsbk.
  cbn [Store.hue Store.saturation Store.brightness Store.kelvin]. cbv zeta.
  split; [|split; [lia|split; [lia|split; [lia|]]]].
  - rewrite !Z.mul_0_r, !Z.add_0_r.
    destruct (Z.ltb_spec ha 0); [lia|].
    destruct (Z.ltb_spec 65535 ha); [lia|]. reflexivity.
  - destruct (Z.eqb_spec hb 65535), (Z.ltb_spec ha 32768),
      (Z.eqb_spec hb 0), (Z.ltb_spec 32767 ha); cbn [andb];
      repeat match goal with
             | |- context [?x <? ?y] => destruct (Z.ltb_spec x y)
             end; lia.
Qed.

Lemma lerpHsbk_end_points_witness :
  0 <= Store.hue (Store.mkHSBK 100 0 0 3500) <= 65535
  /\ 0 <= Store.hue (Store.mkHSBK 65535 65535 65535 3500) <= 65535
  /\ Store.hue (lerpHsbk (Store.mkHSBK 100 0 0 3500)
                  (Store.mkHSBK 65535 65535 65535 3500) 1) = 0.
Proof.
  assert (Ha : 0 <= Store.hue (Store.mkHSBK 100 0 0 3500) <= 65535)
    by (cbn [Store.hue]; lia).
  assert (Hb : 0 <= Store.hue (Store.mkHSBK 65535 65535 65535 3500) <= 65535)
    by (cbn [Store.hue]; lia).
  split; [exact Ha|]. split; [exact Hb|].
  destruct (lerpHsbk_end_points _ _ Ha Hb) as (_ & _ & _ & _ & Hh).
  exact Hh.
Defined.

End ColorFacts.

(** * The sliders *)

Section SliderFacts.
Import App.

(** X27. A slider never leaves its range and the hue slider does not wrap:
    whatever the colour before and the step, the moved component ends
    between 0 and 65535 (kelvin: between 1500 and 9000) and the other
    three components are untouched. The hue is clamped before the two
    wrapping statements, which therefore never fire: the result is
    [max(0, min(65535, hue + step))], so stepping up from 65535 stays at
    65535. *)
Theorem slider_saturates_in_range (slider step kelvinStep : Z) (c : HSBK) :
  1 <= slider <= 4 ->
  let c' := adjusted slider step kelvinStep c in
  (slider = 1 -> c' = with_hue (Z.max 0 (Z.min 65535 (hue c + step))) c)
  /\ (slider = 2 ->
        c' = with_saturation (Z.max 0 (Z.min 65535 (saturation c + step))) c)
  /\ (slider = 3 ->
        c' = with_brightness (Z.max 0 (Z.min 65535 (brightness c + step))) c)
  /\ (slider = 4 ->
        c' = with_kelvin (Z.max 1500 (Z.min 9000 (kelvin c + kelvinStep))) c)
  /\ (slider = 1 -> 0 <= hue c' <= 65535)
  /\ (slider = 2 -> 0 <= saturation c' <= 65535)
  /\ (slider = 3 -> 0 <= brightness c' <= 65535)
  /\ (slider = 4 -> 1500 <= kelvin c' <= 9000).
Proof.
  intros Hs. cbv zeta.
  assert (H1 : adjusted 1 step kelvinStep c
               = with_hue (Z.max 0 (Z.min 65535 (hue c + step))) c).
  { unfold adjusted, clamp. cbn [Z.eqb]. cbv zeta.
    destruct (Z.ltb_spec 65535 (Z.max 0 (Z.min 65535 (hue c + step)))); [lia|].
    destruct (Z.ltb_spec (Z.max 0 (Z.min 65535 (hue c + step))) 0); [lia|].
    reflexivity. }
  assert (H2 : adjusted 2 step kelvinStep c
               = with_saturation (Z.max 0 (Z.min 65535 (saturation c + step))) c)
    by reflexivity.
  assert (H3 : adjusted 3 step kelvinStep c
               = with_brightness (Z.max 0 (Z.min 65535 (brightness c + step))) c)
    by reflexivity.
  assert (H4 : adjusted 4 step kelvinStep c
               = with_kelvin (Z.max 1500 (Z.min 9000 (kelvin c + kelvinStep))) c)
    by reflexivity.
  split; [by intros ->|]. split; [by intros ->|].
  split; [by intros ->|]. split; [by intros ->|].
  split; [intros ->; rewrite H1; cbn [with_hue hue]; lia|].
  split; [intros ->; rewrite H2; cbn [with_saturation saturation]; lia|].
  split; [intros ->; rewrite H3; cbn [with_brightness brightness]; lia|].
  intros ->; rewrite H4; cbn [with_kelvin kelvin]; lia.
Qed.

Lemma slider_saturates_in_range_witness :
  1 <= 1 <= 4
  /\ adjusted 1 5000 500 (mkHSBK 65535 0 32768 3500) = mkHSBK 65535 0 32768 3500
  /\ adjusted 1 (-5000) (-500) (mkHSBK 2000 0 32768 3500) = mkHSBK 0 0 32768 3500.
Proof.
  assert (H : 1 <= 1 <= 4) by lia.
  split; [exact H|].
  split.
  - exact (proj1 (slider_saturates_in_range 1 5000 500
                    (mkHSBK 65535 0 32768 3500) H) eq_refl).
  - exact (proj1 (slider_saturates_in_range 1 (-5000) (-500)
                    (mkHSBK 2000 0 32768 3500) H) eq_refl).
Defined.

(** X28. Moving a colour slider imposes the whole colour of the first
    selected device on the selection: the colour is read from the first
    selected device alone, one component of it is adjusted, and the
    result is sent (with duration 250) to every selected device that is
    online and whose [client.unicast] does not raise, and cached as its
    colour. Devices that are not selected, offline or raising keep their
    records. *)
Theorem slider_imposes_first_colour (t : string -> bool)
    (slider step kelvinStep : Z) (w : World) (firstSn : string)
    (rest : list string) (firstDevice : DeviceState) :
  selectedDevices (store w) = firstSn :: rest ->
  firstSn <> EmptyString ->
  JsObject.get firstSn (devices (store w)) = Some firstDevice ->
  1 <= slider <= 4 ->
  let c := adjusted slider step kelvinStep (color firstDevice) in
  let w' := adjustSlider t slider step kelvinStep w in
  outbox w'
  = outbox w
    ++ map (fun sn =>
              (SetColorCommand (hue c) (saturation c) (brightness c) (kelvin c)
                 250, sn))
         (List.filter (fun sn => dev_online sn (store w) && negb (t sn))
            (firstSn :: rest))
  /\ (forall k,
        JsObject.get k (devices (store w'))
        = option_map
            (fun d => if includes k (firstSn :: rest) && online d && negb (t k)
                      then set_color c d else d)
            (JsObject.get k (devices (store w))))
  /\ selectedDevices (store w') = firstSn :: rest.
Proof.
  intros Hsel Hne Hget Hs. cbv zeta. unfold adjustSlider.
  rewrite Hsel. apply String.eqb_neq in Hne. rewrite Hne, Hget.
  assert (E0 : (slider =? 0) = false) by (apply Z.eqb_neq; lia).
  assert (E1 : (1 <=? slider) && (slider <=? 4) = true).
  { apply andb_true_intro. split; apply Z.leb_le; lia. }
  rewrite E0, E1. unfold setColor. cbv zeta. rewrite Hsel.
  cbn [length Nat.eqb].
  set (c := adjusted slider step kelvinStep (color firstDevice)).
  destruct (control_loop t (set_color c)
              (SetColorCommand (hue c) (saturation c) (brightness c) (kelvin c) 250)
              (firstSn :: rest) w)
    as (Hg & Ho & _ & Hsd & _); [done|done|].
  split; [exact Ho|]. split; [exact Hg|]. by rewrite Hsd.
Qed.

Lemma slider_imposes_first_colour_witness :
  selectedDevices (store Examples.lampOffline) = ["d073d5000001"; "d073d5000002"]
  /\ "d073d5000001" <> EmptyString
  /\ 1 <= 3 <= 4
  /\ dev_online "d073d5000001" (store Examples.lampOffline) = false
  /\ outbox (adjustSlider Examples.neverThrows 3 5000 500 Examples.lampOffline)
     = outbox Examples.lampOffline
       ++ [(SetColorCommand 0 0 37768 3500 250, "d073d5000002")]
  /\ option_map color
       (JsObject.get "d073d5000002"
          (devices (store (adjustSlider Examples.neverThrows 3 5000 500
                             Examples.lampOffline))))
     = Some (mkHSBK 0 0 37768 3500).
Proof.
  assert (Hne : "d073d5000001" <> EmptyString) by discriminate.
  assert (Hs : 1 <= 3 <= 4) by lia.
  split; [reflexivity|]. split; [exact Hne|]. split; [exact Hs|].
  split; [reflexivity|].
  let o := eval vm_compute in
             (JsObject.get "d073d5000001" (devices (store Examples.lampOffline))) in
  match o with
  | Some ?d =>
      destruct (slider_imposes_first_colour Examples.neverThrows 3 5000 500
                  Examples.lampOffline "d073d5000001" ["d073d5000002"] d
                  eq_refl Hne eq_refl Hs) as (Ho & Hg & _)
  end.
  split; [exact Ho|]. rewrite Hg. reflexivity.
Defined.

End SliderFacts.

(** * Scenes *)

Section SceneFacts.

Lemma get_toggleSelect (k sn : string) (s : LifxStore) :
  JsObject.get k (devices (toggleSelect sn s))
  = option_map
      (fun d => if String.eqb k sn then set_selected (negb (selected d)) d else d)
      (JsObject.get k (devices s)).
Proof.
  unfold toggleSelect. destruct (JsObject.get sn (devices s)) as [d|] eqn:E.
  - rewrite devices_updateSelectedList, get_setDevice.
    destruct (String.eqb k sn) eqn:Ek.
    + apply String.eqb_eq in Ek. subst k. by rewrite E.
    + by destruct (JsObject.get k (devices s)).
  - destruct (String.eqb k sn) eqn:Ek.
    + apply String.eqb_eq in Ek. subst k. by rewrite E.
    + by destruct (JsObject.get k (devices s)).
Qed.

Lemma toggle_known (sn : string) (s : LifxStore) :
  match JsObject.get sn (devices s) with
  | Some _ => toggleSelect sn s
  | None => s
  end = toggleSelect sn s.
Proof. unfold toggleSelect. by destruct (JsObject.get sn (devices s)). Qed.

Lemma toggleSelect_frame (sn : string) (s : LifxStore) :
  JsObject.keys (devices (toggleSelect sn s)) = JsObject.keys (devices s)
  /\ (selectionInSync s -> selectionInSync (toggleSelect sn s)).
Proof.
  unfold toggleSelect. destruct (JsObject.get sn (devices s)); [|done].
  split; [|intros _; reflexivity].
  by rewrite devices_updateSelectedList, keys_setDevice.
Qed.

Lemma toggle_loop (l : list string) (s : LifxStore) :
  NoDup l ->
  let s' :=
    forEach l
      (fun sn acc =>
         match JsObject.get sn (devices acc) with
         | Some _ => toggleSelect sn acc
         | None => acc
         end)
      s in
  (forall k,
     JsObject.get k (devices s')
     = option_map
         (fun d => if includes k l then set_selected (negb (selected d)) d else d)
         (JsObject.get k (devices s)))
  /\ JsObject.keys (devices s') = JsObject.keys (devices s)
  /\ groups s' = groups s
  /\ (selectionInSync s -> selectionInSync s').
Proof.
  intros Hnd. cbv zeta. revert s. induction Hnd as [|x l Hx Hl IH]; intros s.
  - simpl. split; [|done]. intros k. by destruct (JsObject.get k (devices s)).
  - change (forEach (x :: l) ?f s) with (forEach l f (f x s)).
    cbv beta. rewrite toggle_known.
    destruct (IH (toggleSelect x s)) as (Hg & Hk & Hgr & Hsy).
    destruct (toggleSelect_frame x s) as (Hk1 & Hsy1).
    split; [|split; [by rewrite Hk|split; [by rewrite Hgr, groups_toggleSelect|auto]]].
    intros k. rewrite Hg, get_toggleSelect, includes_cons.
    destruct (JsObject.get k (devices s)) as [d|]; [|done]. simpl.
    destruct (String.eqb k x) eqn:E; [|done].
    apply String.eqb_eq in E. subst k. simpl.
    destruct (includes x l) eqn:Ei; [|done].
    apply includes_In in Ei. by apply list_elem_of_In in Ei.
Qed.

Lemma applyScene_effect (scene : Scenes.Scene) (s : LifxStore) :
  NoDup (JsObject.keys (Scenes.devices scene)) ->
  (forall k,
     JsObject.get k (devices (Scenes.applyScene scene s))
     = option_map
         (set_selected (includes k (JsObject.keys (Scenes.devices scene))))
         (JsObject.get k (devices s)))
  /\ selectedDevices (Scenes.applyScene scene s)
     = List.filter (fun k => includes k (JsObject.keys (Scenes.devices scene)))
         (JsObject.keys (devices s))
  /\ JsObject.keys (devices (Scenes.applyScene scene s)) = JsObject.keys (devices s)
  /\ groups (Scenes.applyScene scene s) = groups s.
Proof.
  intros Hnd. unfold Scenes.applyScene.
  destruct (toggle_loop (JsObject.keys (Scenes.devices scene)) (selectNone s) Hnd)
    as (Hg & Hk & Hgr & Hsy).
  assert (Hnone : forall k,
            JsObject.get k (devices (selectNone s))
            = option_map (set_selected false) (JsObject.get k (devices s))).
  { intros k. unfold selectNone, updateSelectedList.
    cbn [devices with_selectedDevices]. rewrite get_deselect_loop.
    destruct (JsObject.get k (devices s)) as [d|] eqn:E; [|done]. simpl.
    by rewrite (includes_keys k d s E). }
  assert (Hkn : JsObject.keys (devices (selectNone s)) = JsObject.keys (devices s))
    by apply keys_deselect_loop.
  assert (Hget : forall k,
            JsObject.get k
              (devices
                 (forEach (JsObject.keys (Scenes.devices scene))
                    (fun sn acc =>
                       match JsObject.get sn (devices acc) with
                       | Some _ => toggleSelect sn acc
                       | None => acc
                       end)
                    (selectNone s)))
            = option_map
                (set_selected (includes k (JsObject.keys (Scenes.devices scene))))
                (JsObject.get k (devices s))).
  { intros k. rewrite Hg, Hnone.
    destruct (JsObject.get k (devices s)) as [d|]; [|done]. simpl.
    by destruct (includes k (JsObject.keys (Scenes.devices scene))). }
  split; [exact Hget|].
  split; [|split; [by rewrite Hk|by rewrite Hgr, groups_selectNone]].
  rewrite Hsy by reflexivity. rewrite Hk, Hkn.
  apply filter_ext_in. intros k Hin. unfold dev_selected. rewrite Hget.
  destruct (keys_get_Some k (devices s) Hin) as [d ->]. reflexivity.
Qed.

(** X29. [applyScene] only selects: afterwards exactly the devices that
    the scene names and the store knows are selected, in the order of the
    device dictionary, and every record differs from before in its
    selected flag alone. The power and colour stored in the scene are
    never written to a record: the second loop of the function builds a
    local array and stops there. *)
Theorem applyScene_only_selects (scene : Scenes.Scene) (s : LifxStore) :
  NoDup (JsObject.keys (Scenes.devices scene)) ->
  (forall k,
     JsObject.get k (devices (Scenes.applyScene scene s))
     = option_map
         (set_selected (includes k (JsObject.keys (Scenes.devices scene))))
         (JsObject.get k (devices s)))
  /\ selectedDevices (Scenes.applyScene scene s)
     = List.filter (fun k => includes k (JsObject.keys (Scenes.devices scene)))
         (JsObject.keys (devices s))
  /\ JsObject.keys (devices (Scenes.applyScene scene s)) = JsObject.keys (devices s)
  /\ groups (Scenes.applyScene scene s) = groups s.
Proof. exact (applyScene_effect scene s). Qed.

Lemma applyScene_only_selects_witness :
  NoDup (JsObject.keys (Scenes.devices SceneRuns.movie))
  /\ selectedDevices (Scenes.applyScene SceneRuns.movie (store Examples.partlySelected))
     = ["d073d5000002"]
  /\ option_map power
       (JsObject.get "d073d5000002"
          (devices (Scenes.applyScene SceneRuns.movie (store Examples.partlySelected))))
     = option_map power
         (JsObject.get "d073d5000002" (devices (store Examples.partlySelected))).
Proof.
  assert (Hnd : NoDup (JsObject.keys (Scenes.devices SceneRuns.movie))).
  { apply (bool_decide_unpack (NoDup (JsObject.keys (Scenes.devices SceneRuns.movie)))).
    vm_compute. exact I. }
  split; [exact Hnd|].
  destruct (applyScene_only_selects SceneRuns.movie (store Examples.partlySelected) Hnd)
    as (Hg & Hs & _).
  split; [exact Hs|]. rewrite Hg.
  by destruct (JsObject.get "d073d5000002" (devices (store Examples.partlySelected))).
Defined.

Lemma NoDup_List_filter {A : Type} (f : A -> bool) (l : list A) :
  NoDup l -> NoDup (List.filter f l).
Proof.
  induction 1 as [|x l Hx Hl IH]; simpl; [constructor|].
  destruct (f x); [|done]. constructor; [|done].
  intros Hin. apply Hx. apply list_elem_of_In in Hin. apply filter_In in Hin.
  apply list_elem_of_In. tauto.
Qed.

Lemma keys_scene_loop (s : LifxStore) (l : list string)
    (acc : JsObject.t Scenes.SceneDevice) :
  NoDup l ->
  (forall k, In k l -> exists d, JsObject.get k (devices s) = Some d) ->
  (forall k, In k l -> JsObject.get k acc = None) ->
  JsObject.keys
    (forEach l
       (fun sn devices =>
          match JsObject.get sn (Store.devices s) with
          | Some device =>
              JsObject.put sn (Scenes.mkSceneDevice (Store.power device) (Store.color device))
                devices
          | None => devices
          end)
       acc)
  = JsObject.keys acc ++ l.
Proof.
  intros Hnd. revert acc. induction Hnd as [|x l Hx Hl IH]; intros acc Hkn Hfresh.
  - simpl. by rewrite app_nil_r.
  - change (forEach (x :: l) ?f acc) with (forEach l f (f x acc)). cbv beta.
    destruct (Hkn x) as [d Hd]; [by left|]. rewrite Hd.
    rewrite IH.
    + unfold JsObject.put. rewrite (Hfresh x) by by left.
      unfold JsObject.keys. rewrite map_app. simpl. by rewrite <- app_assoc.
    + intros k Hk. apply Hkn. by right.
    + intros k Hk. rewrite get_put.
      destruct (String.eqb k x) eqn:E.
      * apply String.eqb_eq in E. subst k. by apply list_elem_of_In in Hk.
      * apply Hfresh. by right.
Qed.

(** X30. Saving the selection as a scene and applying it restores the
    selection: when the device keys are distinct and the selection list
    agrees with the flags, [applyScene(createSceneFromCurrentState(...))]
    leaves every device record and the selection list exactly as they
    were, whatever happened to be selected. The scene holds one entry per
    selected device, in selection order. *)
Theorem scene_round_trip (now : Z) (s : LifxStore) (name : string)
    (icon : option string) :
  NoDup (JsObject.keys (devices s)) ->
  selectionInSync s ->
  let scene := Scenes.createSceneFromCurrentState now s name icon in
  JsObject.keys (Scenes.devices scene) = selectedDevices s
  /\ selectedDevices (Scenes.applyScene scene s) = selectedDevices s
  /\ (forall k,
        JsObject.get k (devices (Scenes.applyScene scene s)) = JsObject.get k (devices s)).
Proof.
  intros Hnd Hsy. cbv zeta.
  assert (Hsel : NoDup (selectedDevices s)).
  { rewrite Hsy. by apply NoDup_List_filter. }
  assert (Hkn : forall k, In k (selectedDevices s) ->
                  exists d, JsObject.get k (devices s) = Some d).
  { intros k Hk. rewrite Hsy in Hk. apply filter_In in Hk as [Hk _].
    by apply keys_get_Some. }
  assert (Hkeys : JsObject.keys
                    (Scenes.devices (Scenes.createSceneFromCurrentState now s name icon))
                  = selectedDevices s).
  { unfold Scenes.createSceneFromCurrentState. cbn [Scenes.devices].
    by rewrite (keys_scene_loop s (selectedDevices s) [] Hsel Hkn). }
  assert (Hnd' : NoDup (JsObject.keys
                          (Scenes.devices (Scenes.createSceneFromCurrentState now s name icon))))
    by by rewrite Hkeys.
  destruct (applyScene_effect (Scenes.createSceneFromCurrentState now s name icon) s Hnd')
    as (Hg & Hs & _).
  assert (Hin : forall k d, JsObject.get k (devices s) = Some d ->
                  includes k (selectedDevices s) = selected d).
  { intros k d Hd.
    destruct (selected d) eqn:Es.
    - apply includes_In. rewrite Hsy. apply filter_In.
      split; [by apply (get_Some_keys k d)|]. unfold dev_selected. by rewrite Hd.
    - destruct (includes k (selectedDevices s)) eqn:Ei; [|done].
      apply includes_In in Ei. rewrite Hsy in Ei. apply filter_In in Ei as [_ Ei].
      unfold dev_selected in Ei. rewrite Hd in Ei. congruence. }
  split; [exact Hkeys|]. split.
  - rewrite Hs, Hkeys. etransitivity; [|symmetry; exact Hsy].
    apply filter_ext_in. intros k Hk.
    destruct (keys_get_Some k (devices s) Hk) as [d Hd].
    rewrite (Hin k d Hd). unfold dev_selected. by rewrite Hd.
  - intros k. rewrite Hg, Hkeys.
    destruct (JsObject.get k (devices s)) as [d|] eqn:Hd; [|done]. simpl.
    by rewrite (Hin k d Hd), set_selected_same.
Qed.

Lemma scene_round_trip_witness :
  NoDup (JsObject.keys (devices (store Examples.bothSelected)))
  /\ selectionInSync (store Examples.bothSelected)
  /\ selectedDevices
       (Scenes.applyScene
          (Scenes.createSceneFromCurrentState 1700000000000 (store Examples.bothSelected)
             "Evening" None)
          (store Examples.bothSelected))
     = ["d073d5000001"; "d073d5000002"].
Proof.
  assert (Hnd : NoDup (JsObject.keys (devices (store Examples.bothSelected)))).
  { apply (bool_decide_unpack
             (NoDup (JsObject.keys (devices (store Examples.bothSelected))))).
    vm_compute. exact I. }
  assert (Hsy : selectionInSync (store Examples.bothSelected)) by reflexivity.
  split; [exact Hnd|]. split; [exact Hsy|].
  exact (proj1 (proj2 (scene_round_trip 1700000000000 (store Examples.bothSelected)
                         "Evening" None Hnd Hsy))).
Defined.

End SceneFacts.
